(** * Regolith: filter orchestration pipeline, shallow embedding

    The Go sources embedded here are the pipeline file of package
    [regolith] ([SetupTmpFiles], [CheckProfileImpl], [RunProfileImpl],
    [RunProfile], [SubfilterCollection], [ProfileFromObject]) and
    [regolith/main_functions.go] ([Install], [InstallAll], [Update],
    [UpdateAll], [runOrWatch], [Tool], [Init], [clean],
    [CleanCurrentProject], [CleanUserCache], [Clean]).

    Go functions that return [error] become computations in a state monad
    over a [World] (file system, Go heap, logger output, event trace) whose
    result is [Ok] for a nil error and [Err e] otherwise; side effects
    persist on the error path, as they do in Go. *)

From Stdlib Require Import String Ascii List Bool Arith Lia.
From stdpp Require Import base option list strings gmap fin_maps pretty sorting.

Local Open Scope string_scope.
Local Open Scope list_scope.
Set Warnings "-register-all".

(** ** Go values: errors and formatting *)

Module Go.

(** The double quote character, and [%q] of a string (Go escapes are not
    modelled, only the surrounding quotes). *)
Definition dq : string := String "034"%char EmptyString.
Definition q (s : string) : string := dq +:+ s +:+ dq.

(** [%v] of an int. *)
Definition v (n : nat) : string := pretty n.

(** Error numbers a system call can report. *)
Inductive errno : Type := ENOENT | EACCES | ENOTDIR | EIO.

Definition errno_eqb (a b : errno) : bool :=
  match a, b with
  | ENOENT, ENOENT | EACCES, EACCES | ENOTDIR, ENOTDIR | EIO, EIO => true
  | _, _ => false
  end.

(** Errors of the package: [WrappedError]/[WrappedErrorf] create a fresh
    error, [WrapError]/[WrapErrorf] add context to a cause; [PathError] is
    what package [os] returns; [Foreign] is an error produced by code outside
    the two embedded files. *)
Inductive error : Type :=
  | PathError (op path : string) (e : errno)
  | Foreign (msg : string)
  | WrappedError (msg : string)
  | WrapError (cause : error) (msg : string).

(** [os.IsNotExist]. *)
Definition IsNotExist (e : error) : bool :=
  match e with
  | PathError _ _ ENOENT => true
  | _ => false
  end.

(** The innermost cause of an error chain. *)
Fixpoint root_cause (e : error) : error :=
  match e with
  | WrapError c _ => root_cause c
  | _ => e
  end.

(** The text an error chain renders to, outermost context first. *)
Fixpoint render (e : error) : string :=
  match e with
  | PathError op path ENOENT => op +:+ " " +:+ path +:+ ": no such file or directory"
  | PathError op path EACCES => op +:+ " " +:+ path +:+ ": permission denied"
  | PathError op path ENOTDIR => op +:+ " " +:+ path +:+ ": not a directory"
  | PathError op path EIO => op +:+ " " +:+ path +:+ ": input/output error"
  | Foreign msg => msg
  | WrappedError msg => msg
  | WrapError c msg => msg +:+ " " +:+ render c
  end.

End Go.
Import Go.

(** ** The world the program runs in *)

(** A file system node: a directory, or a regular file with its bytes. *)
Inductive node : Type :=
  | Dir
  | File (content : string).

Definition is_dir (n : node) : bool :=
  match n with Dir => true | File _ => false end.

(** The system calls the embedded code issues, by name and argument. *)
Inductive syscall : Type :=
  | SysStat (path : string)
  | SysRemoveAll (path : string)
  | SysMkdirAll (path : string)
  | SysCopy (src dst : string)
  | SysReadFile (path : string)
  | SysWriteFile (path : string).

(** Go maps are reference types: the configuration loaded by
    [LoadConfigAsMap] is a graph of map objects in the heap, and the map
    returned by [filterDefinitionsFromConfigMap] is one of its objects. *)
Definition loc : Type := nat.

(** A remote filter definition as [Install] handles it. *)
Record RemoteFilterDefinition : Type := mkRemoteFilterDefinition {
  Url : string;
  Version : string;
  Name : string
}.

(** What a Go map of the configuration holds under a key: a string, another
    map (by reference), or the remote filter definition [Install] stores. *)
Inductive value : Type :=
  | VString (s : string)
  | VMap (l : loc)
  | VFilterDefinition (d : RemoteFilterDefinition).

(** The part of the world that code outside the embedded files may touch:
    the file tree, the heap of Go maps, and [fault], which says which system
    calls fail for a reason the file tree does not show (permissions, I/O). *)
Record Sys : Type := mkSys {
  fs : gmap string node;
  heap : gmap loc (gmap string value);
  fault : syscall → option errno
}.

Inductive level : Type := Debug | Info | Warn | Error.

(** What is observed of a run: system calls, calls on filter runners, calls
    into the rest of the package, each with whether it returned without an
    error, and stores into a Go map. An event is recorded when its call
    returns. *)
Inductive event : Type :=
  | EvSys (c : syscall) (ok : bool)
  | EvCheck (index : nat) (id : string) (ok : bool)
  | EvRun (index : nat) (id : string) (ok : bool)
  | EvCall (fn : string) (ok : bool)
  | EvStore (l : loc) (key : string).

(** [sessionLockErr] is the local variable of the running command that its
    deferred closure captures. *)
Record World : Type := mkWorld {
  sys : Sys;
  log : list (level * string);
  trace : list event;
  sessionLockErr : option error
}.

Definition set_sys (s : Sys) (w : World) : World :=
  mkWorld s (log w) (trace w) (sessionLockErr w).
Definition set_fs (f : gmap string node) (w : World) : World :=
  set_sys (mkSys f (heap (sys w)) (fault (sys w))) w.
Definition set_heap (h : gmap loc (gmap string value)) (w : World) : World :=
  set_sys (mkSys (fs (sys w)) h (fault (sys w))) w.

(** ** The monad of Go functions returning an error *)

Inductive Res (A : Type) : Type :=
  | Ok (a : A)
  | Err (e : error).
Arguments Ok {A} a.
Arguments Err {A} e.

Definition M (A : Type) : Type := World → Res A * World.

Definition ret {A} (a : A) : M A := λ w, (Ok a, w).
Definition throw {A} (e : error) : M A := λ w, (Err e, w).
Definition bind {A B} (m : M A) (k : A → M B) : M B :=
  λ w, match m w with
       | (Ok a, w') => k a w'
       | (Err e, w') => (Err e, w')
       end.

(** [if err != nil { return f(err) }] around a call. *)
Definition or_return {A} (m : M A) (f : error → error) : M A :=
  λ w, match m w with
       | (Ok a, w') => (Ok a, w')
       | (Err e, w') => (Err (f e), w')
       end.

(** [return err] for an [error] value that may be nil. *)
Definition return_error (o : option error) : M unit :=
  match o with
  | None => ret tt
  | Some e => throw e
  end.

Declare Scope go_scope.
Delimit Scope go_scope with go.
Notation "x <- m ;; k" := (bind m (λ x, k))
  (at level 100, m at next level, right associativity) : go_scope.
Notation "m ;; k" := (bind m (λ _, k))
  (at level 100, right associativity) : go_scope.
Notation "m 'orelse' f" := (or_return m f) (at level 69, no associativity) : go_scope.
Local Open Scope go_scope.

Definition is_ok {A} (r : Res A) : bool :=
  match r with Ok _ => true | Err _ => false end.

Definition add_event (e : event) (w : World) : World :=
  mkWorld (sys w) (log w) (trace w ++ [e]) (sessionLockErr w).

Definition emit (e : event) : M unit := λ w, (Ok tt, add_event e w).

(** A call whose return is recorded in the trace. *)
Definition traced {A} (ev : bool → event) (m : M A) : M A :=
  λ w, let '(r, w') := m w in (r, add_event (ev (is_ok r)) w').

Definition Logger (l : level) (msg : string) : M unit :=
  λ w, (Ok tt, mkWorld (sys w) (log w ++ [(l, msg)]) (trace w) (sessionLockErr w)).

(** A call into code outside the embedded files: it is recorded in the
    trace and acts on [Sys] only. *)
Definition on_sys {A} (f : Sys → Res A * Sys) : M A :=
  λ w, let '(r, s) := f (sys w) in (r, set_sys s w).

Definition call {A} (fn : string) (f : Sys → Res A * Sys) : M A :=
  traced (EvCall fn) (on_sys f).

(** A method call on a runner: the filter's own program runs on [Sys], and
    its return is recorded in the trace. *)
Definition invoke (ev : bool → event) (f : Sys → Res unit * Sys) : M unit :=
  traced ev (on_sys f).

(** ** Package [os] and [copy] over the file tree *)

Module os.

(** [under p k]: [k] is [p] or lies below it. *)
Definition under (p k : string) : bool :=
  String.eqb p k || String.prefix (p +:+ "/") k.

(** The directories [MkdirAll p] makes sure of: every prefix of [p] that
    ends before a separator, then [p] itself. *)
Fixpoint dirs_from (acc s : string) : list string :=
  match s with
  | EmptyString => if String.eqb acc "" then [] else [acc]
  | String c s' =>
      if Ascii.eqb c "/"
      then (if String.eqb acc "" then [] else [acc]) ++ dirs_from (acc +:+ "/") s'
      else dirs_from (acc +:+ String c EmptyString) s'
  end.
Definition dirs_of (p : string) : list string := dirs_from "" p.

Definition is_file_at (f : gmap string node) (p : string) : bool :=
  match f !! p with Some (File _) => true | _ => false end.

Definition mkdirs (ds : list string) (f : gmap string node) : gmap string node :=
  foldr (λ d acc, <[d := Dir]> acc) f ds.

(** [rest] such that [k = src ++ rest] names [src] or something below it. *)
Fixpoint strip (src k : string) : option string :=
  match src, k with
  | EmptyString, EmptyString => Some ""
  | EmptyString, String c _ => if Ascii.eqb c "/" then Some k else None
  | String a src', String b k' => if Ascii.eqb a b then strip src' k' else None
  | String _ _, EmptyString => None
  end.

Definition copy_tree (src dst : string) (f : gmap string node) : gmap string node :=
  let moved : list (string * node) :=
    omap (λ kn : string * node,
            match strip src kn.1 with
            | Some rest => Some (dst +:+ rest, kn.2)
            | None => None
            end) (map_to_list f) in
  (list_to_map moved : gmap string node) ∪ f.

(** A system call: it fails with the injected fault if there is one, and
    otherwise acts on the file tree. *)
Definition failing {A} (c : syscall) (op path : string) (k : M A) : M A :=
  traced (EvSys c)
    (λ w, match fault (sys w) c with
          | Some e => (Err (PathError op path e), w)
          | None => k w
          end).

(** [os.Stat]: the node at [path], or a [PathError]. For a path that is
    not there the error is ENOTDIR when the path leads through a regular
    file, as stat(2) has it, and ENOENT otherwise. *)
Definition Stat (path : string) : M node :=
  failing (SysStat path) "stat" path
    (λ w, match fs (sys w) !! path with
          | Some n => (Ok n, w)
          | None =>
              if existsb (is_file_at (fs (sys w))) (dirs_of path)
              then (Err (PathError "stat" path ENOTDIR), w)
              else (Err (PathError "stat" path ENOENT), w)
          end).

(** [os.RemoveAll]: removes [path] and everything below it; a missing
    [path] is not an error. *)
Definition RemoveAll (path : string) : M unit :=
  failing (SysRemoveAll path) "unlinkat" path
    (λ w, (Ok tt, set_fs (filter (λ kn, under path kn.1 = false) (fs (sys w))) w)).

(** [os.MkdirAll]: creates [path] and the missing parents; fails when one of
    them is a regular file. Permission bits are not modelled. *)
Definition MkdirAll (path : string) : M unit :=
  failing (SysMkdirAll path) "mkdir" path
    (λ w, if existsb (is_file_at (fs (sys w))) (dirs_of path)
          then (Err (PathError "mkdir" path ENOTDIR), w)
          else (Ok tt, set_fs (mkdirs (dirs_of path) (fs (sys w))) w)).

(** [copy.Copy] of a directory tree (github.com/otiai10/copy). *)
Definition Copy (src dst : string) : M unit :=
  failing (SysCopy src dst) "copy" src
    (λ w, match fs (sys w) !! src with
          | None => (Err (PathError "lstat" src ENOENT), w)
          | Some _ => (Ok tt, set_fs (copy_tree src dst (mkdirs (dirs_of dst) (fs (sys w)))) w)
          end).

(** [ioutil.ReadFile]. *)
Definition ReadFile (path : string) : M string :=
  failing (SysReadFile path) "open" path
    (λ w, match fs (sys w) !! path with
          | Some (File c) => (Ok c, w)
          | Some Dir => (Err (PathError "read" path EIO), w)
          | None => (Err (PathError "open" path ENOENT), w)
          end).

(** [ioutil.WriteFile]. *)
Definition WriteFile (path data : string) : M unit :=
  failing (SysWriteFile path) "open" path
    (λ w, match fs (sys w) !! path with
          | Some Dir => (Err (PathError "open" path EIO), w)
          | _ => (Ok tt, set_fs (<[path := File data]> (fs (sys w))) w)
          end).

End os.

(** ** Data model of the pipeline *)

(** [interface{}] values produced by [json.Unmarshal]. *)
Inductive json : Type :=
  | JNull
  | JBool (b : bool)
  | JNumber (n : nat)
  | JString (s : string)
  | JArray (items : list json)
  | JObject (fields : gmap string json).

(** The scalar fields of [Config]. *)
Record ConfigFields : Type := mkConfigFields {
  ConfigName : string;
  Author : string;
  ResourceFolder : string;
  BehaviorFolder : string;
  DataPath : string
}.

(** [RunContext]. Its [Config] pointer is kept as the scalar fields of the
    configuration: runners are opaque programs here, and a context that held
    the profiles would make the runner type refer to itself. *)
Inductive RunContext : Type := mkRunContext {
  AbsoluteLocation : string;
  ctx_Config : ConfigFields;
  Parent : option RunContext;
  ctx_Profile : string;
  DotRegolithPath : string
}.

(** [*RemoteFilter], the receiver of [SubfilterCollection]. *)
Record RemoteFilter : Type := mkRemoteFilter {
  Id : string;
  GetDownloadPath : string;
  Arguments : list string
}.

(** The [FilterRunner] interface: a value with its methods. The filter
    programs behind [runner_Check] and [runner_Run] are arbitrary; they act
    on [Sys]. [as_RemoteFilter] is the type assertion
    of the runner to a pointer to [RemoteFilter]. *)
Record FilterRunner : Type := mkFilterRunner {
  GetId : string;
  IsDisabled : bool;
  as_RemoteFilter : option RemoteFilter;
  runner_Arguments : list string;
  runner_Check : RunContext → Sys → Res unit * Sys;
  runner_Run : RunContext → Sys → Res unit * Sys
}.

(** The [FilterInstaller] interface; [as_RemoteFilterDefinition] is the
    remote definition behind the interface value, when that is what it
    holds. *)
Record FilterInstaller : Type := mkFilterInstaller {
  as_RemoteFilterDefinition : option RemoteFilterDefinition;
  CreateFilterRunner : gmap string json → Res FilterRunner
}.

Record FilterCollection : Type := mkFilterCollection {
  Filters : list FilterRunner
}.

Record ExportTarget : Type := mkExportTarget {
  Target : string;
  ReadOnly : bool
}.

Record Profile : Type := mkProfile {
  profile_FilterCollection :> FilterCollection;
  profile_ExportTarget : ExportTarget
}.

(** The zero value [Profile{}], which a Go map lookup yields for a key that
    is not in the map. *)
Definition zero_Profile : Profile :=
  mkProfile (mkFilterCollection []) (mkExportTarget "" false).

Record Config : Type := mkConfig {
  config_fields :> ConfigFields;
  FilterDefinitions : gmap string FilterInstaller;
  Profiles : gmap string Profile
}.

(** Control helpers: the pair [(value, err)] of a call, a pure result as a
    computation, and [for i, x := range l] whose body may return an error. *)
Definition attempt {A} (m : M A) : M (Res A) :=
  λ w, let '(r, w') := m w in (Ok r, w').

Definition lift_res {A} (r : Res A) : M A :=
  match r with
  | Ok a => ret a
  | Err e => throw e
  end.

Fixpoint for_range {A} (i : nat) (l : list A) (body : nat → A → M unit) : M unit :=
  match l with
  | [] => ret tt
  | x :: rest => body i x ;; for_range (S i) rest body
  end.

(** ** The pipeline: staging, checking, running, exporting *)

Module Pipeline.
Section WithPackage.

(** Functions of the package that the pipeline calls and that live in other
    files: they are parameters, so every result below holds for all of their
    behaviours. [cwd] is what [filepath.Abs(".")] returns. *)
Variable cwd : string.
Variable LoadConfigAsMap : Sys → Res loc * Sys.
Variable ConfigFromObject : loc → Sys → Res Config * Sys.
Variable ExportProject : Profile → string → string → Sys → Res unit * Sys.
Variable json_Unmarshal : string → Res (gmap string json).
Variable FilterInstallerFromObject : string → gmap string json → Res FilterInstaller.
Variable CopyArguments : FilterRunner → RemoteFilter → FilterRunner.

(** The closure [setup_tmp_directory] of [SetupTmpFiles]. *)
Definition setup_tmp_directory (path short_name descriptive_name : string) : M unit :=
  if negb (String.eqb path "") then
    r <- attempt (os.Stat path) ;;
    match r with
    | Err err =>
        if IsNotExist err then
          Logger Warn (descriptive_name +:+ " " +:+ q path +:+ " does not exist") ;;
          os.MkdirAll (".regolith/tmp/" +:+ short_name)
            orelse (λ err, WrapError err
              ("Failed to create " +:+ q (".regolith/tmp/" +:+ short_name) +:+ " directory."))
        else ret tt
    | Ok stats =>
        if is_dir stats then
          os.Copy path (".regolith/tmp/" +:+ short_name)
            orelse (λ err, WrapError err
              ("Failed to copy " +:+ descriptive_name +:+ " " +:+ q path +:+ " to "
               +:+ q (".regolith/tmp/" +:+ short_name) +:+ "."))
        else (* The folder paths leads to a file *)
          throw (WrappedError
            (descriptive_name +:+ " path " +:+ q path +:+ " is not a directory"))
    end
  else
    os.MkdirAll (".regolith/tmp/" +:+ short_name)
      orelse (λ err, WrapError err
        ("Failed to create " +:+ q (".regolith/tmp/" +:+ short_name) +:+ " directory.")).

(** [SetupTmpFiles] set up the workspace for the filters. *)
Definition SetupTmpFiles (config : Config) (profile : Profile) : M unit :=
  Logger Debug "Cleaning .regolith/tmp" ;;
  os.RemoveAll ".regolith/tmp"
    orelse (λ err, WrapError err
      ("Unable to clean temporary directory: " +:+ q ".regolith/tmp" +:+ ".")) ;;
  os.MkdirAll ".regolith/tmp"
    orelse (λ err, WrapError err
      ("Unable to prepare temporary directory: " +:+ q "./regolith/tmp" +:+ ".")) ;;
  Logger Debug "Copying project files to .regolith/tmp" ;;
  setup_tmp_directory (ResourceFolder config) "RP" "resource folder"
    orelse (λ err, WrapError err
      "Failed to setup resource folder in the temporary directory.") ;;
  setup_tmp_directory (BehaviorFolder config) "BP" "behavior folder"
    orelse (λ err, WrapError err
      "Failed to setup behavior folder in the temporary directory.") ;;
  setup_tmp_directory (DataPath config) "data" "data folder"
    orelse (λ err, WrapError err
      "Failed to setup data folder in the temporary directory.") ;;
  Logger Debug "Setup done in " ;;
  ret tt.

Definition CheckProfileImpl (profile : Profile) (profileName : string)
    (config : Config) (parentContext : option RunContext) : M unit :=
  (* Check whether every filter, uses a supported filter type *)
  for_range 0 (Filters profile) (λ i f,
    invoke (EvCheck i (GetId f))
      (runner_Check f (mkRunContext "" config parentContext profileName ""))
      orelse (λ err, WrapError err "Filter check failed.")).

Definition RunProfileImpl (profile : Profile) (profileName : string)
    (config : Config) (parentContext : option RunContext) : M unit :=
  (* Run the filters! *)
  for_range 0 (Filters profile) (λ i filter,
    let path := cwd in
    (* Disabled filters are skipped *)
    if IsDisabled filter then
      Logger Info ("Filter " +:+ q (GetId filter) +:+ " is disabled, skipping.")
    else
      (* Skip printing if the filter ID is empty (most likely a nested profile) *)
      (if negb (String.eqb (GetId filter) "")
       then Logger Info ("Running filter " +:+ GetId filter)
       else ret tt) ;;
      r <- attempt (invoke (EvRun i (GetId filter))
             (runner_Run filter (mkRunContext path config parentContext profileName ""))) ;;
      Logger Debug "Executed in " ;;
      match r with
      | Err err => throw (WrapError err "Failed to run filter.")
      | Ok _ => ret tt
      end).

(** [RunProfile] loads the profile from config.json and runs it. *)
Definition RunProfile (profileName : string) : M unit :=
  configJson <- call "LoadConfigAsMap" LoadConfigAsMap
    orelse (λ err, WrapError err ("Could not load " +:+ q "config.json" +:+ ".")) ;;
  config <- call "ConfigFromObject" (ConfigFromObject configJson)
    orelse (λ err, WrapError err ("Could not load " +:+ q "config.json" +:+ ".")) ;;
  let profile := default zero_Profile (Profiles config !! profileName) in
  CheckProfileImpl profile profileName config None ;;
  (* Prepare tmp files *)
  SetupTmpFiles config profile
    orelse (λ err, WrapError err "Unable to setup profile.") ;;
  RunProfileImpl profile profileName config None ;;
  (* Export files *)
  Logger Info "Moving files to target directory." ;;
  call "ExportProject" (ExportProject profile (ConfigName config) (DataPath config))
    orelse (λ err, WrapError err "Exporting project failed.") ;;
  Logger Debug "Done in " ;;
  (* Clear the tmp/data path *)
  os.RemoveAll ".regolith/tmp/data"
    orelse (λ err, WrapError err "Unable to clean .regolith/tmp/data directory.") ;;
  ret tt.

(** [filepath.Join] of a directory and a file name (no cleaning of the
    directory part). *)
Definition filepath_Join (dir name : string) : string := dir +:+ "/" +:+ name.

(** The loop of [SubfilterCollection] over the entries of ["filters"],
    from index [i], with the runners collected so far. *)
Fixpoint subfilters (f : RemoteFilter) (path : string) (i : nat)
    (filters : list json) (result : list FilterRunner) : Res (list FilterRunner) :=
  match filters with
  | [] => Ok result
  | entry :: rest =>
      match entry with
      | JObject filter =>
          (* Using the same JSON data to create both the filter
             definiton (installer) and the filter (runner) *)
          let filterId := Id f +:+ ":subfilter" +:+ v i in
          match FilterInstallerFromObject filterId filter with
          | Err err =>
              Err (WrapError err
                ("Could not parse filter " +:+ v i +:+ " of " +:+ q path +:+ "."))
          | Ok filterInstaller =>
              let filter := <["filter" := JString filterId]> filter in
              match CreateFilterRunner filterInstaller filter with
              | Err err =>
                  Err (WrapError err
                    ("Could not parse filter " +:+ v i +:+ " of " +:+ q path +:+ "."))
              | Ok filterRunner =>
                  match as_RemoteFilter filterRunner with
                  | Some _ =>
                      Err (WrappedError
                        ("remote filters are not allowed in subfilters. Remote filter"
                         +:+ " " +:+ q (Id f) +:+ " subfilter " +:+ v i))
                  | None =>
                      subfilters f path (S i) rest
                        (result ++ [CopyArguments filterRunner f])
                  end
              end
          end
      | _ =>
          Err (WrappedError
            ("Could not parse filter " +:+ v i +:+ " of " +:+ q path +:+ "."))
      end
  end.

(** [SubfilterCollection] returns a collection of filters from a
    "filter.json" file of a remote filter. The Go result pair
    of a collection pointer and an error is [Ok collection] or [Err err]: every
    error return of the function has a nil collection. *)
Definition SubfilterCollection (f : RemoteFilter) : M FilterCollection :=
  let path := filepath_Join (GetDownloadPath f) "filter.json" in
  file <- os.ReadFile path
    orelse (λ err, WrapError err ("Couldn't read " +:+ q path +:+ ".")) ;;
  filterCollection <- lift_res (json_Unmarshal file)
    orelse (λ err, WrapError err
      ("Couldn't load " +:+ path +:+ "! Does the file contain correct json?")) ;;
  (* Filters *)
  match filterCollection !! "filters" with
  | Some (JArray filters) =>
      result <- lift_res (subfilters f path 0 filters []) ;;
      ret (mkFilterCollection result)
  | _ => throw (WrappedError ("Could not parse filters of " +:+ q path +:+ "."))
  end.

End WithPackage.
End Pipeline.

(** ** The commands of [main_functions.go] *)

(** How a call of [runOrWatch] ends: it returns to its caller, or (in watch
    mode, whose loop has no exit) the process is terminated while it waits,
    or it is still watching when the observation stops. *)
Inductive Exit : Type := Returned | ProcessTerminated | StillWatching.

Definition returned (x : Exit) : bool :=
  match x with Returned => true | _ => false end.

(** An element of the result of [parseInstallFilterArgs]. *)
Record parsedInstallFilterArg : Type := mkParsedArg {
  url : string;
  name : string;
  version : string
}.

Definition error_of {A} (r : Res A) : option error :=
  match r with Ok _ => None | Err e => Some e end.

Definition get_sessionLockErr : M (option error) :=
  λ w, (Ok (sessionLockErr w), w).
Definition set_sessionLockErr (o : option error) : M unit :=
  λ w, (Ok tt, mkWorld (sys w) (log w) (trace w) o).

(** [defer d] in a function whose body is [body]. A [return e] of the body
    evaluates [e] and sets the result; the deferred call [d] runs after that,
    when the function returns, and the function has no named result that [d]
    could assign. A body that does not return (the process ends first) never
    runs [d]. *)
Definition go_defer {A} (returns : A → bool) (d : M unit) (body : M A) : M A :=
  λ w, let '(r, w1) := body w in
       match r with
       | Ok a => if returns a then (r, (d w1).2) else (r, w1)
       | Err _ => (r, (d w1).2)
       end.

(** The Go map at [l]; reading a key and [m[key] = x]. *)
Definition map_at (l : loc) (s : Sys) : gmap string value :=
  default ∅ (heap s !! l).
Definition map_lookup (l : loc) (key : string) : M (option value) :=
  λ w, (Ok (map_at l (sys w) !! key), w).
Definition map_store (l : loc) (key : string) (x : value) : M unit :=
  λ w, (Ok tt,
        add_event (EvStore l key)
          (set_heap (<[l := <[key := x]> (map_at l (sys w))]> (heap (sys w))) w)).

Definition nl : string := String "010"%char EmptyString.

(** [firstErr] is a helper of the package outside the embedded files; it is
    taken to return the first of its arguments that is not nil. *)
Definition firstErr (err1 err2 : option error) : option error :=
  match err1 with
  | Some e => Some e
  | None => err2
  end.

Module Commands.
Section WithPackage.

(** The rest of the package, as parameters. Constants that are format
    strings with one verb are functions of its argument. *)
Variable cwd : string.
Variable ConfigFilePath : string.
Variable gitNotInstalledWarning aquireSessionLockError : string.
Variable osMkdirError createFilterRunnerError filterRunnerCheckError
  setupTmpFilesError filterRunnerRunError : string → string.
Variable hasGit : Sys → bool.
Variable parseInstallFilterArgs : list string → Res (list parsedInstallFilterArg).
Variable LoadConfigAsMap : Sys → Res loc * Sys.
Variable ConfigFromObject : loc → Sys → Res Config * Sys.
Variable dataPathFromConfigMap : loc → Sys → Res string * Sys.
Variable filterDefinitionsFromConfigMap : loc → Sys → Res loc * Sys.
Variable GetDotRegolith : bool → string → Sys → Res string * Sys.
Variable CreateDirectoryIfNotExists : string → Sys → Res unit * Sys.
Variable aquireSessionLock : string → Sys → Res (Sys → Res unit * Sys) * Sys.
Variable FilterDefinitionFromTheInternet :
  string → string → string → Sys → Res RemoteFilterDefinition * Sys.
Variable RemoteFilterDefinition_CreateFilterRunner :
  RemoteFilterDefinition → gmap string json → Res FilterRunner.
Variable installFilters :
  gmap string FilterInstaller → bool → string → string → Sys → Res unit * Sys.
Variable updateFilters : gmap string FilterInstaller → string → Sys → Res unit * Sys.
Variable json_MarshalIndent : gmap loc (gmap string value) → loc → string.
Variable CheckProfileImpl :
  Profile → string → Config → option RunContext → string → Sys → Res unit * Sys.
Variable RunProfile : RunContext → Sys → Res unit * Sys.
Variable SetupTmpFiles : Config → string → Sys → Res unit * Sys.
Variable InplaceExportProject : Config → string → Sys → Res unit * Sys.
Variable StartWatchingSourceFiles : RunContext → Sys → Sys.
Variable PassError : error → error.

(** [AwaitInterruption] suspends the caller; [Some s] is the system when a
    change of the watched files wakes it, [None] means that the process was
    terminated by a signal while it waited. *)
Variable AwaitInterruption : RunContext → Sys → option Sys.

(** [InitLogging] configures the logger and has no other effect. *)
Definition InitLogging (debug : bool) : M unit := ret tt.

Definition has_git : M bool := λ w, (Ok (hasGit (sys w)), w).

(** A remote definition as a [FilterInstaller] interface value. *)
Definition as_installer (d : RemoteFilterDefinition) : FilterInstaller :=
  mkFilterInstaller (Some d) (RemoteFilterDefinition_CreateFilterRunner d).

(** [unlockSession, sessionLockErr := aquireSessionLock(dotRegolithPath)]. *)
Definition lock_session (dotRegolithPath : string) : M (Sys → Res unit * Sys) :=
  r <- attempt (call "aquireSessionLock" (aquireSessionLock dotRegolithPath)) ;;
  set_sessionLockErr (error_of r) ;;
  match r with
  | Err sessionLockErr => throw (WrapError sessionLockErr aquireSessionLockError)
  | Ok unlockSession => ret unlockSession
  end.

(** The deferred closure [func() { sessionLockErr = unlockSession() }]. *)
Definition unlock_closure (unlockSession : Sys → Res unit * Sys) : M unit :=
  r <- attempt (call "unlockSession" unlockSession) ;;
  set_sessionLockErr (error_of r).

(** [return sessionLockErr]. *)
Definition return_sessionLockErr : M unit :=
  e <- get_sessionLockErr ;;
  return_error e.

Definition always {A} (a : A) : bool := true.

Definition already_installed (filter_name : string) : string :=
  "The filter is already on the filter definitions list." +:+ nl
  +:+ "Filter: " +:+ filter_name +:+ nl
  +:+ "If you want to force the installation of the filter, "
  +:+ "please add " +:+ q "--force" +:+ " flag to your "
  +:+ q "regolith install" +:+ " command".

(** The loop of [Install] that fills [filterInstallers]. *)
Fixpoint download (parsedArgs : list parsedInstallFilterArg)
    (filterInstallers : gmap string RemoteFilterDefinition)
    : M (gmap string RemoteFilterDefinition) :=
  match parsedArgs with
  | [] => ret filterInstallers
  | parsedArg :: rest =>
      (* Get the filter definition from the Internet *)
      remoteFilterDefinition <-
        call "FilterDefinitionFromTheInternet"
          (FilterDefinitionFromTheInternet
             (url parsedArg) (name parsedArg) (version parsedArg))
        orelse (λ err, WrapError err
          ("Unable to download the filter definition from the Internet." +:+ nl
           +:+ "Filter repository Url: " +:+ url parsedArg +:+ nl
           +:+ "Filter name: " +:+ name parsedArg +:+ nl
           +:+ "Filter version: " +:+ version parsedArg +:+ nl)) ;;
      let remoteFilterDefinition :=
        if String.eqb (version parsedArg) "HEAD" || String.eqb (version parsedArg) "latest"
        then
          (* The "HEAD" and "latest" keywords should be the same in the
             config file don't lock them to the actual versions *)
          mkRemoteFilterDefinition (Url remoteFilterDefinition)
            (version parsedArg) (Name remoteFilterDefinition)
        else remoteFilterDefinition in
      download rest (<[name parsedArg := remoteFilterDefinition]> filterInstallers)
  end.

(** [Install] handles the "regolith install" command. The loop over the Go
    map [filterInstallers] visits its keys in an order Go does not fix; the
    keys are distinct, so the stores commute, and the order of
    [map_to_list] is taken. *)
Definition Install (filters : list string) (force debug : bool) : M unit :=
  InitLogging debug ;;
  Logger Info "Installing filters..." ;;
  git <- has_git ;;
  (if negb git then Logger Warn gitNotInstalledWarning else ret tt) ;;
  (* Parse arguments into download tasks *)
  parsedArgs <- lift_res (parseInstallFilterArgs filters)
    orelse (λ err, WrapError err "Failed to parse arguments.") ;;
  config <- call "LoadConfigAsMap" LoadConfigAsMap
    orelse (λ err, WrapError err "Unable to load config file.") ;;
  (* Get parts of config file required for installation *)
  dataPath <- call "dataPathFromConfigMap" (dataPathFromConfigMap config)
    orelse (λ err, WrapError err "Failed to get data path from config file.") ;;
  filterDefinitions <-
    call "filterDefinitionsFromConfigMap" (filterDefinitionsFromConfigMap config)
    orelse (λ err, WrapError err
      "Failed to get the list of filter definitions from config file.") ;;
  (* Get dotRegolithPath *)
  dotRegolithPath <- call "GetDotRegolith" (GetDotRegolith false ".")
    orelse (λ err, WrapError err "Unable to get the path to regolith cache folder.") ;;
  (* Lock the session *)
  unlockSession <- lock_session dotRegolithPath ;;
  go_defer always (unlock_closure unlockSession) (
    (* Check if the filters are already installed if force mode is disabled *)
    (if negb force then
       for_range 0 parsedArgs (λ _ parsedArg,
         entry <- map_lookup filterDefinitions (name parsedArg) ;;
         match entry with
         | Some _ => throw (WrappedError (already_installed (name parsedArg)))
         | None => ret tt
         end)
     else ret tt) ;;
    (* Convert to filter definitions for download *)
    filterInstallers <- download parsedArgs ∅ ;;
    (* Download the filter definitions *)
    call "installFilters"
      (installFilters (as_installer <$> filterInstallers) force dataPath dotRegolithPath)
      orelse (λ err, WrapError err "Failed to install filters.") ;;
    (* Add the filters to the config *)
    for_range 0 (map_to_list filterInstallers) (λ _ entry,
      (* Add the filter to config file *)
      map_store filterDefinitions entry.1 (VFilterDefinition entry.2)) ;;
    (* Save the config file *)
    jsonBytes <- (λ w, (Ok (json_MarshalIndent (heap (sys w)) config), w)) ;;
    os.WriteFile ConfigFilePath jsonBytes
      orelse (λ err, WrapError err
        ("Successfully downloaded " +:+ v (length parsedArgs) +:+ " filters"
         +:+ "but failed to update the config file." +:+ nl
         +:+ "Run " +:+ q "regolith clean" +:+ " to fix invalid cache state.")) ;;
    Logger Info "Successfully installed the filters." ;;
    return_sessionLockErr (* Return the error from the defer function *)).

(** [configMap, err1 := LoadConfigAsMap(); config, err2 :=
    ConfigFromObject(configMap)] followed by the [firstErr] test. A failed
    load hands the nil map (location 0) to [ConfigFromObject]. *)
Definition load_config : M Config :=
  r1 <- attempt (call "LoadConfigAsMap" LoadConfigAsMap) ;;
  let configMap := match r1 with Ok m => m | Err _ => 0 end in
  r2 <- attempt (call "ConfigFromObject" (ConfigFromObject configMap)) ;;
  match firstErr (error_of r1) (error_of r2), r2 with
  | Some err, _ => throw (WrapError err "Failed to load config.json.")
  | None, Ok config => ret config
  | None, Err err => throw err
  end.

(** [InstallAll] handles the "regolith install-all" command. *)
Definition InstallAll (force debug : bool) : M unit :=
  InitLogging debug ;;
  Logger Info "Installing filters..." ;;
  git <- has_git ;;
  (if negb git then Logger Warn gitNotInstalledWarning else ret tt) ;;
  config <- load_config ;;
  dotRegolithPath <- call "GetDotRegolith" (GetDotRegolith false ".")
    orelse (λ err, WrapError err "Unable to get the path to regolith cache folder.") ;;
  unlockSession <- lock_session dotRegolithPath ;;
  go_defer always (unlock_closure unlockSession) (
    (* Install the filters *)
    call "installFilters"
      (installFilters (FilterDefinitions config) force (DataPath config) dotRegolithPath)
      orelse (λ err, WrapError err "Could not install filters.") ;;
    Logger Info "Successfully installed the filters." ;;
    return_sessionLockErr).

(** The loop of [Update] that selects the installed filters. *)
Fixpoint select_installed (config : Config) (filters : list string)
    (filterInstallers : gmap string FilterInstaller) : M (gmap string FilterInstaller) :=
  match filters with
  | [] => ret filterInstallers
  | filterName :: rest =>
      match FilterDefinitions config !! filterName with
      | None =>
          Logger Warn ("Filter " +:+ q filterName
                       +:+ " is not installed and therefore cannot be updated.") ;;
          select_installed config rest filterInstallers
      | Some filterInstaller =>
          select_installed config rest (<[filterName := filterInstaller]> filterInstallers)
      end
  end.

(** [Update] handles the "regolith update" command. *)
Definition Update (filters : list string) (debug : bool) : M unit :=
  InitLogging debug ;;
  Logger Info "Updating filters..." ;;
  git <- has_git ;;
  (if negb git then Logger Warn gitNotInstalledWarning else ret tt) ;;
  if Nat.eqb (length filters) 0 then throw (WrappedError "No filters specified.")
  else
    config <- load_config ;;
    dotRegolithPath <- call "GetDotRegolith" (GetDotRegolith false ".")
      orelse (λ err, WrapError err "Unable to get the path to regolith cache folder.") ;;
    unlockSession <- lock_session dotRegolithPath ;;
    go_defer always (unlock_closure unlockSession) (
      (* Filter out the filters that are not present in the 'filters' list *)
      filterInstallers <- select_installed config filters ∅ ;;
      (* Update the filters from the list *)
      call "updateFilters" (updateFilters filterInstallers dotRegolithPath)
        orelse (λ err, WrapError err "Could not update filters.") ;;
      Logger Info "Successfully updated the filters." ;;
      return_sessionLockErr).

(** [UpdateAll] handles the "regolith update-all" command. *)
Definition UpdateAll (debug : bool) : M unit :=
  InitLogging debug ;;
  Logger Info "Updating filters..." ;;
  git <- has_git ;;
  (if negb git then Logger Warn gitNotInstalledWarning else ret tt) ;;
  config <- load_config ;;
  dotRegolithPath <- call "GetDotRegolith" (GetDotRegolith false ".")
    orelse (λ err, WrapError err "Unable to get the path to regolith cache folder.") ;;
  unlockSession <- lock_session dotRegolithPath ;;
  go_defer always (unlock_closure unlockSession) (
    (* Update the filters *)
    call "updateFilters" (updateFilters (FilterDefinitions config) dotRegolithPath)
      orelse (λ err, WrapError err "Could not install filters.") ;;
    Logger Info "Successfully installed the filters." ;;
    return_sessionLockErr).

(** [context.AwaitInterruption()]: [true] when the call returns. *)
Definition await (context : RunContext) : M bool :=
  λ w, match AwaitInterruption context (sys w) with
       | Some s => (Ok true, add_event (EvCall "AwaitInterruption" true) (set_sys s w))
       | None => (Ok false, add_event (EvCall "AwaitInterruption" false) w)
       end.

(** The loop [for { ... }] of [runOrWatch], observed for [fuel] iterations. *)
Fixpoint watch_loop (fuel : nat) (context : RunContext) (profileName : string) : M Exit :=
  match fuel with
  | 0 => ret StillWatching
  | S fuel' =>
      r <- attempt (call "RunProfile" (RunProfile context)) ;;
      match r with
      | Err err =>
          Logger Error ("Failed to run profile " +:+ q profileName +:+ ": "
                        +:+ render (PassError err))
      | Ok _ =>
          Logger Info ("Successfully ran the " +:+ q profileName +:+ " profile.")
      end ;;
      Logger Info "Press Ctrl+C to stop watching." ;;
      resumed <- await context ;;
      if resumed : bool then
        Logger Warn "Restarting..." ;;
        watch_loop fuel' context profileName
      else ret ProcessTerminated
  end.

(** [runOrWatch] handles both 'regolith run' and 'regolith watch' commands
    based on the 'watch' parameter. *)
Definition runOrWatch (fuel : nat) (profileName : string) (debug watch : bool) : M Exit :=
  InitLogging debug ;;
  let profileName := if String.eqb profileName "" then "default" else profileName in
  (* Load the Config and the profile *)
  configJson <- call "LoadConfigAsMap" LoadConfigAsMap
    orelse (λ err, WrapError err ("Could not load " +:+ q "config.json" +:+ ".")) ;;
  config <- call "ConfigFromObject" (ConfigFromObject configJson)
    orelse (λ err, WrapError err ("Could not load " +:+ q "config.json" +:+ ".")) ;;
  match Profiles config !! profileName with
  | None =>
      throw (WrappedError
        ("Profile " +:+ q profileName +:+ " does not exist in the configuration."))
  | Some profile =>
      (* Get dotRegolithPath *)
      dotRegolithPath <- call "GetDotRegolith" (GetDotRegolith false ".")
        orelse (λ err, WrapError err "Unable to get the path to regolith cache folder.") ;;
      call "CreateDirectoryIfNotExists" (CreateDirectoryIfNotExists dotRegolithPath)
        orelse (λ err, WrapError err (osMkdirError dotRegolithPath)) ;;
      (* Lock the session *)
      unlockSession <- lock_session dotRegolithPath ;;
      go_defer returned (unlock_closure unlockSession) (
        (* Check the filters of the profile *)
        call "CheckProfileImpl"
          (CheckProfileImpl profile profileName config None dotRegolithPath) ;;
        let path := cwd in
        let context := mkRunContext path config None profileName dotRegolithPath in
        if watch then (* Loop until program termination (CTRL+C) *)
          call "StartWatchingSourceFiles"
            (λ s, (Ok tt, StartWatchingSourceFiles context s)) ;;
          watch_loop fuel context profileName
        else
          call "RunProfile" (RunProfile context)
            orelse (λ err, WrapError err ("Failed to run profile " +:+ q profileName)) ;;
          Logger Info ("Successfully ran the " +:+ q profileName +:+ " profile.") ;;
          return_sessionLockErr ;; (* Return the error from the defer function *)
          ret Returned)
  end.

(** [Run] handles the "regolith run" command. *)
Definition Run (profileName : string) (debug : bool) : M Exit :=
  runOrWatch 0 profileName debug false.

(** [Watch] handles the "regolith watch" command. *)
Definition Watch (fuel : nat) (profileName : string) (debug : bool) : M Exit :=
  runOrWatch fuel profileName debug true.

(** [Tool] handles the "regolith tool" command. *)
Definition Tool (filterName : string) (filterArgs : list string) (debug : bool) : M unit :=
  InitLogging debug ;;
  (* Load the Config and the profile *)
  configJson <- call "LoadConfigAsMap" LoadConfigAsMap
    orelse (λ err, WrapError err ("Could not load " +:+ q "config.json" +:+ ".")) ;;
  config <- call "ConfigFromObject" (ConfigFromObject configJson)
    orelse (λ err, WrapError err ("Could not load " +:+ q "config.json" +:+ ".")) ;;
  match FilterDefinitions config !! filterName with
  | None =>
      throw (WrappedError
        ("Unable to find the filter on the " +:+ q "filterDefinitions" +:+ " list "
         +:+ "of the " +:+ q "config.json" +:+ " file." +:+ nl
         +:+ "Filter name: " +:+ filterName))
  | Some filterDefinition =>
      (* Get dotRegolithPath *)
      dotRegolithPath <- call "GetDotRegolith" (GetDotRegolith false ".")
        orelse (λ err, WrapError err "Unable to get the path to regolith cache folder.") ;;
      call "CreateDirectoryIfNotExists" (CreateDirectoryIfNotExists dotRegolithPath)
        orelse (λ err, WrapError err (osMkdirError dotRegolithPath)) ;;
      (* Lock the session *)
      unlockSession <- lock_session dotRegolithPath ;;
      go_defer always
        (* WARNING: sessionLockError is not reported in case of different errors.
           This error is minor and other errors are way more important. *)
        (unlock_closure unlockSession) (
        (* Create the filter *)
        let runConfiguration : gmap string json :=
          <["filter" := JString filterName]>
            (<["arguments" := JArray (JString <$> filterArgs)]> ∅) in
        filterRunner <- lift_res (CreateFilterRunner filterDefinition runConfiguration)
          orelse (λ err, WrapError err (createFilterRunnerError filterName)) ;;
        (* Create run context *)
        let path := cwd in
        let runContext :=
          mkRunContext path config None "[dynamic profile]" dotRegolithPath in
        (* Check the filter *)
        invoke (EvCheck 0 (GetId filterRunner)) (runner_Check filterRunner runContext)
          orelse (λ err, WrapError err (filterRunnerCheckError filterName)) ;;
        (* Setup tmp directory *)
        call "SetupTmpFiles" (SetupTmpFiles config dotRegolithPath)
          orelse (λ err, WrapError err (setupTmpFilesError dotRegolithPath)) ;;
        (* Run the filter *)
        Logger Info ("Running the " +:+ q filterName +:+ " filter.") ;;
        invoke (EvRun 0 (GetId filterRunner)) (runner_Run filterRunner runContext)
          orelse (λ err, WrapError err (filterRunnerRunError filterName)) ;;
        (* Export files to the source files *)
        Logger Info "Overwriting the source files." ;;
        call "InplaceExportProject" (InplaceExportProject config dotRegolithPath)
          orelse (λ err, WrapError err
            "Failed to overwrite the source files with generated files.") ;;
        Logger Info ("Successfully ran the " +:+ q filterName +:+ " filter.") ;;
        return_sessionLockErr)
  end.

End WithPackage.
End Commands.

(** ** The commands init and clean of [main_functions.go] *)

(** [userConfig], of which [Init] reads the user name. *)
Record UserConfig : Type := mkUserConfig {
  Username : string
}.

(** A call that reads the environment of the process ([os.Getwd],
    [os.UserCacheDir]): it is recorded in the trace and changes nothing. *)
Definition ask {A} (fn : string) (f : Sys → Res A) : M A :=
  traced (EvCall fn) (λ w, (f (sys w), w)).

Module Maintenance.
Section WithPackage.

(** Constants and helpers of the package that live in other files. *)
Variable ConfigFilePath GitIgnore : string.
Variable osGetwdError getUserConfigError osUserCacheDirError appDataCachePath : string.
Variable os_Getwd : Sys → Res string.
Variable os_UserCacheDir : Sys → Res string.
Variable IsDirEmpty : string → Sys → Res bool * Sys.
Variable getUserConfig : Sys → Res UserConfig * Sys.
Variable getAppDataDotRegolith : bool → string → Sys → Res string * Sys.

(** [json.MarshalIndent] of a [Config] and of a map, and what
    [json.Unmarshal] leaves in the map it is given (its error is ignored by
    the caller). *)
Variable json_MarshalIndent_Config : Config → string.
Variable json_MarshalIndent_map : gmap string json → string.
Variable json_Unmarshal_into : string → gmap string json → gmap string json.

(** The text [Logger.Error] prints for its three arguments. *)
Variable Logger_Error_text : string → string → error → string.

Definition schema_url : string :=
  "https://raw.githubusercontent.com/Bedrock-OSS/regolith-schemas/main/config/v1.json".

Definition not_empty_directory (wd : string) : string :=
  "Cannot initialze the project, because " +:+ wd +:+ " is not an empty "
  +:+ "directory." +:+ nl +:+ q "regolith init" +:+ " can be used only in empty "
  +:+ "directories.".

(** The configuration [Init] writes for the user [author]. *)
Definition default_config (author : string) : Config :=
  mkConfig (mkConfigFields "Project name" author "./packs/RP" "./packs/BP" "./packs/data")
    ∅
    {[ "default" := mkProfile (mkFilterCollection []) (mkExportTarget "development" false) ]}.

Definition ConfigurationFolders : list string :=
  ["packs"; "packs/data"; "packs/BP"; "packs/RP";
   Pipeline.filepath_Join ".regolith" "cache/venvs"].

(** [Init] handles the "regolith init" command. *)
Definition Init (debug : bool) : M unit :=
  Commands.InitLogging debug ;;
  Logger Info "Initializing Regolith project..." ;;
  wd <- ask "os.Getwd" os_Getwd
    orelse (λ err, WrapError err osGetwdError) ;;
  isEmpty <- call "IsDirEmpty" (IsDirEmpty wd)
    orelse (λ err, WrapError err
      ("Failed to check if " +:+ wd +:+ " is an empty directory.")) ;;
  if negb isEmpty then throw (WrappedError (not_empty_directory wd))
  else
    attempt (os.WriteFile ".gitignore" GitIgnore) ;;
    (* Create new default configuration *)
    userConfig <- call "getUserConfig" getUserConfig
      orelse (λ err, WrapError err getUserConfigError) ;;
    let jsonData := default_config (Username userConfig) in
    let jsonBytes := json_MarshalIndent_Config jsonData in
    (* Add the schema property, this is a little hacky *)
    let rawJsonData := json_Unmarshal_into jsonBytes ∅ in
    let rawJsonData := <["$schema" := JString schema_url]> rawJsonData in
    let jsonBytes := json_MarshalIndent_map rawJsonData in
    os.WriteFile ConfigFilePath jsonBytes
      orelse (λ err, WrapError err ("Failed to write data to " +:+ q ConfigFilePath)) ;;
    for_range 0 ConfigurationFolders (λ _ folder,
      r <- attempt (os.MkdirAll folder) ;;
      match r with
      | Err err => Logger Error (Logger_Error_text "Could not create folder: %s" folder err)
      | Ok _ => ret tt
      end) ;;
    Logger Info "Regolith project initialized." ;;
    ret tt.

(** [clean] cleans the cache folder of regolith at [dotRegolithPath]. *)
Definition clean (dotRegolithPath : string) : M unit :=
  os.RemoveAll dotRegolithPath
    orelse (λ err, WrapError err ("failed to remove " +:+ q dotRegolithPath +:+ " folder")).

Definition CleanCurrentProject : M unit :=
  Logger Info "Cleaning cache..." ;;
  (* Clean .regolith *)
  Logger Info ("Cleaning " +:+ q ".regolith" +:+ "...") ;;
  clean ".regolith"
    orelse (λ err, WrapError err
      ("Failed to clean the cache from " +:+ q ".regolith" +:+ ".")) ;;
  (* Clean cache from AppData *)
  Logger Info "Cleaning the cache in application data folder..." ;;
  dotRegolithPath <- call "getAppDataDotRegolith" (getAppDataDotRegolith true ".")
    orelse (λ err, WrapError err "Unable to get the path to regolith cache folder.") ;;
  Logger Info ("Regolith cache folder is: " +:+ dotRegolithPath) ;;
  clean dotRegolithPath
    orelse (λ err, WrapError err
      ("Failed to clean the cache from " +:+ q dotRegolithPath +:+ ".")) ;;
  Logger Info "Cache cleaned." ;;
  ret tt.

Definition CleanUserCache : M unit :=
  Logger Info "Cleaning all Regolith cache files from user app data..." ;;
  (* App data enabled - use user cache dir *)
  userCache <- ask "os.UserCacheDir" os_UserCacheDir
    orelse (λ _, WrappedError osUserCacheDirError) ;;
  let regolithCacheFiles := Pipeline.filepath_Join userCache appDataCachePath in
  Logger Info ("Regolith cache files are located in: " +:+ regolithCacheFiles) ;;
  os.RemoveAll regolithCacheFiles
    orelse (λ err, WrapError err
      ("failed to remove " +:+ q regolithCacheFiles +:+ " folder")) ;;
  attempt (os.MkdirAll regolithCacheFiles) ;;
  Logger Info "All regolith files cached in user app data cleaned." ;;
  ret tt.

(** [Clean] handles the "regolith clean" command. *)
Definition Clean (debug userCache : bool) : M unit :=
  Commands.InitLogging debug ;;
  if userCache then CleanUserCache else CleanCurrentProject.

End WithPackage.
End Maintenance.

(** ** [ProfileFromObject] of the pipeline file *)

Module Profiles.
Section WithPackage.

Variable FilterRunnerFromObjectAndDefinitions :
  gmap string json → gmap string FilterInstaller → Res FilterRunner.
Variable ExportTargetFromObject : gmap string json → Res ExportTarget.

(** [nth] renders an index as an ordinal. *)
Variable nth : nat → string.

(** The loop of [ProfileFromObject] over the entries of ["filters"], from
    index [i], with the runners appended to [result.Filters] so far. It
    yields the runners and the error the function returns from the loop, if
    any. *)
Fixpoint profile_filters (filterDefinitions : gmap string FilterInstaller) (i : nat)
    (filters : list json) (result : list FilterRunner)
    : list FilterRunner * option error :=
  match filters with
  | [] => (result, None)
  | entry :: rest =>
      match entry with
      | JObject filter =>
          match FilterRunnerFromObjectAndDefinitions filter filterDefinitions with
          | Err err =>
              (result,
               Some (WrapError err
                 ("Could not parse the " +:+ nth i +:+ " filter of the profile.")))
          | Ok filterRunner =>
              profile_filters filterDefinitions (S i) rest (result ++ [filterRunner])
          end
      | _ =>
          (result,
           Some (WrappedError ("The " +:+ nth i +:+ " filter from the list is not a map.")))
      end
  end.

(** [ProfileFromObject]: the Go result pair of a [Profile] and an error;
    the profile is returned as far as it was filled in when an error is. *)
Definition ProfileFromObject (obj : gmap string json)
    (filterDefinitions : gmap string FilterInstaller) : Profile * option error :=
  let result := zero_Profile in
  (* Filters *)
  match obj !! "filters" with
  | None => (result, Some (WrappedError ("Missing " +:+ q "filters" +:+ " property.")))
  | Some (JArray filters) =>
      let '(runners, err) := profile_filters filterDefinitions 0 filters [] in
      let result := mkProfile (mkFilterCollection runners) (profile_ExportTarget result) in
      match err with
      | Some err => (result, Some err)
      | None =>
          (* ExportTarget *)
          match obj !! "export" with
          | None =>
              (result, Some (WrappedError ("Missing " +:+ q "export" +:+ " property.")))
          | Some (JObject export) =>
              match ExportTargetFromObject export with
              | Err err =>
                  (result, Some (WrapError err ("Could not parse " +:+ q "export" +:+ ".")))
              | Ok exportTarget =>
                  (mkProfile (mkFilterCollection runners) exportTarget, None)
              end
          | Some _ =>
              (result,
               Some (WrappedError ("The " +:+ q "export" +:+ " property is not a map.")))
          end
      end
  | Some _ =>
      (result, Some (WrappedError ("Could not parse " +:+ q "filters" +:+ " property.")))
  end.

End WithPackage.
End Profiles.

(** ** Vocabulary of the statements *)

(** The three source paths the Stage phase copies, with the names
    [SetupTmpFiles] passes to its closure for each. *)
Inductive role : Type := RP | BP | data.

Definition role_path (c : ConfigFields) (ρ : role) : string :=
  match ρ with
  | RP => ResourceFolder c
  | BP => BehaviorFolder c
  | data => DataPath c
  end.

Definition short_name (ρ : role) : string :=
  match ρ with RP => "RP" | BP => "BP" | data => "data" end.

Definition descriptive_name (ρ : role) : string :=
  match ρ with
  | RP => "resource folder"
  | BP => "behavior folder"
  | data => "data folder"
  end.

Definition workspace_dir (ρ : role) : string := ".regolith/tmp/" +:+ short_name ρ.

(** The context [SetupTmpFiles] wraps a failure of the role's step in. *)
Definition role_failure (ρ : role) : string :=
  match ρ with
  | RP => "Failed to setup resource folder in the temporary directory."
  | BP => "Failed to setup behavior folder in the temporary directory."
  | data => "Failed to setup data folder in the temporary directory."
  end.

(** The phase of the pipeline an event belongs to: loading the
    configuration (0), Check (1), Stage (2), Run (3), Export (4) and the
    removal of the transient data directory (5). *)
Definition phase (e : event) : nat :=
  match e with
  | EvCall fn _ => if String.eqb fn "ExportProject" then 4 else 0
  | EvCheck _ _ _ => 1
  | EvSys (SysRemoveAll path) _ =>
      if String.eqb path ".regolith/tmp/data" then 5 else 2
  | EvSys _ _ => 2
  | EvRun _ _ _ => 3
  | EvStore _ _ => 0
  end.

Definition failed (e : event) : bool :=
  match e with
  | EvSys _ ok | EvCheck _ _ ok | EvRun _ _ ok | EvCall _ ok => negb ok
  | EvStore _ _ => false
  end.

(** The events of checking, and of running, the runners of a list one after
    the other without a failure, the first of them having index [i]. *)
Fixpoint checks_ok (i : nat) (l : list FilterRunner) : list event :=
  match l with
  | [] => []
  | f :: rest => EvCheck i (GetId f) true :: checks_ok (S i) rest
  end.

Fixpoint runs_ok (i : nat) (l : list FilterRunner) : list event :=
  match l with
  | [] => []
  | f :: rest =>
      (if IsDisabled f then [] else [EvRun i (GetId f) true]) ++ runs_ok (S i) rest
  end.

(** The step of [SetupTmpFiles] for one role, and the steps for a list of
    roles followed by what comes after them. *)
Definition stage_role (config : Config) (ρ : role) : M unit :=
  Pipeline.setup_tmp_directory (role_path config ρ) (short_name ρ) (descriptive_name ρ)
    orelse (λ err, WrapError err (role_failure ρ)).

Fixpoint stage_roles (config : Config) (ρs : list role) (k : M unit) : M unit :=
  match ρs with
  | [] => k
  | ρ :: rest => stage_role config ρ ;; stage_roles config rest k
  end.

Definition role_eqb (a b : role) : bool :=
  match a, b with
  | RP, RP | BP, BP | data, data => true
  | _, _ => false
  end.

(** A path outside the cache directory [.regolith]. *)
Definition outside (path : string) : Prop := String.prefix ".regolith" path = false.

(** [path] is not there and does not lead through a regular file: [os.Stat]
    answers that it does not exist. *)
Definition missing (s : Sys) (path : string) : Prop :=
  fs s !! path = None ∧ ∀ k, k ∈ os.dirs_of path → os.is_file_at (fs s) k = false.

(** Nothing in the file tree hinders the staging of the role [ρ]: its path
    is not configured, or it is outside the cache and is missing or a
    directory. *)
Definition stageable (config : Config) (s : Sys) (ρ : role) : Prop :=
  role_path config ρ = "" ∨
  (outside (role_path config ρ) ∧
   (missing s (role_path config ρ) ∨ fs s !! role_path config ρ = Some Dir)).

(** Events in the order of the phases they belong to. *)
Definition phase_order (a b : event) : Prop := (phase a ≤ phase b)%nat.

(** How the Check loop over the runners [l], the first of index [i], can
    end, with the events it leaves: every runner was checked, or the check
    of one runner failed after those before it had passed. *)
Inductive check_outcome (i : nat) (l : list FilterRunner) : Res unit → list event → Prop :=
  | checked_all : check_outcome i l (Ok tt) (checks_ok i l)
  | check_failed pre f post e :
      l = pre ++ f :: post →
      check_outcome i l (Err (WrapError e "Filter check failed."))
        (checks_ok i pre ++ [EvCheck (i + length pre) (GetId f) false]).

(** The same for the Run loop; a runner that fails there is not disabled. *)
Inductive run_outcome (i : nat) (l : list FilterRunner) : Res unit → list event → Prop :=
  | ran_all : run_outcome i l (Ok tt) (runs_ok i l)
  | run_failed pre f post e :
      l = pre ++ f :: post → IsDisabled f = false →
      run_outcome i l (Err (WrapError e "Failed to run filter."))
        (runs_ok i pre ++ [EvRun (i + length pre) (GetId f) false]).

(** The system calls of a Stage phase: the first of them cleans the
    workspace, and none removes the transient data directory. *)
Definition stage_calls (ts : list event) : Prop :=
  Forall (λ ev, phase ev = 2) ts ∧
  ∃ ok ts', ts = EvSys (SysRemoveAll ".regolith/tmp") ok :: ts'.

(** How [RunProfile] can end once the configuration is loaded, with the
    events it leaves after the two loading calls; [ts] are the system calls
    of the Stage phase. *)
Inductive pipeline_outcome (l : list FilterRunner) : Res unit → list event → Prop :=
  | stopped_in_check r t :
      check_outcome 0 l r t → is_ok r = false → pipeline_outcome l r t
  | stopped_in_stage e ts :
      stage_calls ts →
      pipeline_outcome l (Err (WrapError e "Unable to setup profile."))
        (checks_ok 0 l ++ ts)
  | stopped_in_run r ts t :
      stage_calls ts →
      run_outcome 0 l r t → is_ok r = false →
      pipeline_outcome l r (checks_ok 0 l ++ ts ++ t)
  | stopped_in_export e ts :
      stage_calls ts →
      pipeline_outcome l (Err (WrapError e "Exporting project failed."))
        (checks_ok 0 l ++ ts ++ runs_ok 0 l ++ [EvCall "ExportProject" false])
  | stopped_in_cleanup e ts :
      stage_calls ts →
      pipeline_outcome l
        (Err (WrapError e "Unable to clean .regolith/tmp/data directory."))
        (checks_ok 0 l ++ ts ++ runs_ok 0 l
         ++ [EvCall "ExportProject" true;
             EvSys (SysRemoveAll ".regolith/tmp/data") false])
  | completed ts :
      stage_calls ts →
      pipeline_outcome l (Ok tt)
        (checks_ok 0 l ++ ts ++ runs_ok 0 l
         ++ [EvCall "ExportProject" true;
             EvSys (SysRemoveAll ".regolith/tmp/data") true]).

(** The world in which the Check phase of [RunProfile] starts: the two
    loading calls have returned, leaving the systems [s1] and then [s2]. *)
Definition loaded (s1 s2 : Sys) (w : World) : World :=
  add_event (EvCall "ConfigFromObject" true)
    (set_sys s2 (add_event (EvCall "LoadConfigAsMap" true) (set_sys s1 w))).

(** What the loop of [SubfilterCollection] makes of the entry at index [i]:
    the runner that the installer built from the entry creates. *)
Definition resolves_to
    (FilterInstallerFromObject : string → gmap string json → Res FilterInstaller)
    (f : RemoteFilter) (i : nat) (entry : json) (runner : FilterRunner) : Prop :=
  ∃ filter installer,
    entry = JObject filter ∧
    FilterInstallerFromObject (Id f +:+ ":subfilter" +:+ v i) filter = Ok installer ∧
    CreateFilterRunner installer
      (<["filter" := JString (Id f +:+ ":subfilter" +:+ v i)]> filter) = Ok runner.

(** The error of [SubfilterCollection] for a remote sub-filter at index [i]
    of the remote filter [f]. *)
Definition remote_in_subfilters (f : RemoteFilter) (i : nat) : error :=
  WrappedError
    ("remote filters are not allowed in subfilters. Remote filter"
     +:+ " " +:+ q (Id f) +:+ " subfilter " +:+ v i).





(** The first of the parsed arguments of [Install] whose name is a key of
    the filter definitions [m]. *)
Definition first_installed (m : gmap string value)
    (parsedArgs : list parsedInstallFilterArg) : option parsedInstallFilterArg :=
  List.find (λ a, match m !! name a with Some _ => true | None => false end) parsedArgs.

(** Whether a version specifier is one of the two keywords. *)
Definition is_keyword (version : string) : bool :=
  String.eqb version "HEAD" || String.eqb version "latest".

(** The property of [FilterDefinitionFromTheInternet] that the
    specification states for a version or commit hash that is given (one
    that is neither omitted nor a keyword): the definition it returns is
    pinned to that version. *)
Definition pins_given_version
    (FilterDefinitionFromTheInternet :
       string → string → string → Sys → Res RemoteFilterDefinition * Sys) : Prop :=
  ∀ url name version s d s',
    version ≠ "" → is_keyword version = false →
    FilterDefinitionFromTheInternet url name version s = (Ok d, s') →
    Version d = version.

(** The version an entry of the filter definitions is persisted with. *)
Definition persisted_version (m : gmap string value) (filter_name : string)
    : option string :=
  match m !! filter_name with
  | Some (VFilterDefinition d) => Some (Version d)
  | _ => None
  end.

(** What [Install] stores for a request: the downloaded definition, with the
    requested keyword in place of its version when the request gave one. *)
Definition stored_definition (a : parsedInstallFilterArg)
    (downloaded : RemoteFilterDefinition) : RemoteFilterDefinition :=
  if is_keyword (version a)
  then mkRemoteFilterDefinition (Url downloaded) (version a) (Name downloaded)
  else downloaded.

(** ** Relations between the worlds before and after a computation *)

(** [step w w' t l]: from [w] to [w'] the trace grew by [t] and the log by
    [l], and nothing but the file tree changed besides. *)
Record step (w w' : World) (t : list event) (l : list (level * string)) : Prop := mkStep {
  step_trace : trace w' = trace w ++ t;
  step_log : log w' = log w ++ l;
  step_fault : fault (sys w') = fault (sys w);
  step_heap : heap (sys w') = heap (sys w);
  step_lock : sessionLockErr w' = sessionLockErr w
}.

(** [grow w w' t l]: the trace grew by [t], the log by [l], and the captured
    local of the command was not assigned. Calls into filters and into the
    rest of the package may change [sys] in any way. *)
Record grow (w w' : World) (t : list event) (l : list (level * string)) : Prop := mkGrow {
  grow_trace : trace w' = trace w ++ t;
  grow_log : log w' = log w ++ l;
  grow_lock : sessionLockErr w' = sessionLockErr w
}.

(** An event of the Stage phase. *)
Definition stage_event (e : event) : Prop := phase e = 2.

(** The messages of the two failures of [SetupTmpFiles] before the role
    steps. *)
Definition clean_failure : string :=
  "Unable to clean temporary directory: " +:+ q ".regolith/tmp" +:+ ".".
Definition prepare_failure : string :=
  "Unable to prepare temporary directory: " +:+ q "./regolith/tmp" +:+ ".".

(** The profile [RunProfile] works on: the entry of the profile mapping, or
    the zero profile when the name is not a key. *)
Definition selected (config : Config) (profileName : string) : Profile :=
  default zero_Profile (Profiles config !! profileName).

(** ** Vocabulary of the further results *)

(** [rest] is empty or begins with a separator: [p +:+ rest] is [p] or a
    path below it. *)
Definition below (rest : string) : bool :=
  match rest with
  | EmptyString => true
  | String c _ => Ascii.eqb c "/"
  end.

(** Whether a name has no separator in it. *)
Fixpoint no_separator (p : string) : bool :=
  match p with
  | EmptyString => true
  | String c p' => negb (Ascii.eqb c "/") && no_separator p'
  end.

(** The event of the same call when it fails. *)
Definition failure (ev : event) : event :=
  match ev with
  | EvSys c _ => EvSys c false
  | EvCheck i id _ => EvCheck i id false
  | EvRun i id _ => EvRun i id false
  | EvCall fn _ => EvCall fn false
  | EvStore l key => EvStore l key
  end.

(** [t] is the trace of going through [steps] up to one that failed. *)
Definition stopped (steps t : list event) : Prop :=
  ∃ pre ev post, steps = pre ++ ev :: post ∧ t = pre ++ [failure ev].

(** The calls with which [runOrWatch] and [Tool] begin, up to the taking of
    the session lock. *)
Definition locked_opening : list event :=
  [EvCall "LoadConfigAsMap" true; EvCall "ConfigFromObject" true;
   EvCall "GetDotRegolith" true; EvCall "CreateDirectoryIfNotExists" true;
   EvCall "aquireSessionLock" true].

(** The steps of [Tool] on the runner [id] under the lock, and those of
    [runOrWatch] when it does not watch. *)
Definition tool_steps (id : string) : list event :=
  [EvCheck 0 id true; EvCall "SetupTmpFiles" true; EvRun 0 id true;
   EvCall "InplaceExportProject" true].

Definition run_steps : list event :=
  [EvCall "CheckProfileImpl" true; EvCall "RunProfile" true].

(** The profile name [runOrWatch] works with. *)
Definition effective_profile (profileName : string) : string :=
  if String.eqb profileName "" then "default" else profileName.

Definition unknown_profile (profileName : string) : error :=
  WrappedError
    ("Profile " +:+ q (effective_profile profileName)
     +:+ " does not exist in the configuration.").

(** An event of the watch loop: a run of the pipeline or a wait. *)
Definition watch_event (e : event) : Prop :=
  ∃ ok, e = EvCall "RunProfile" ok ∨ e = EvCall "AwaitInterruption" ok.

Definition unknown_filter (filterName : string) : error :=
  WrappedError
    ("Unable to find the filter on the " +:+ q "filterDefinitions" +:+ " list "
     +:+ "of the " +:+ q "config.json" +:+ " file." +:+ nl
     +:+ "Filter name: " +:+ filterName).

(** The calls with which [Install] begins, up to the taking of the session
    lock. *)
Definition install_opening : list event :=
  [EvCall "LoadConfigAsMap" true; EvCall "dataPathFromConfigMap" true;
   EvCall "filterDefinitionsFromConfigMap" true; EvCall "GetDotRegolith" true;
   EvCall "aquireSessionLock" true].

(** The calls of [InstallAll], [Update] and [UpdateAll] after the
    configuration is loaded: the cache directory, the lock, and the call
    [fn] that installs or updates. *)
Definition maintenance_steps (fn : string) : list event :=
  [EvCall "GetDotRegolith" true; EvCall "aquireSessionLock" true; EvCall fn true].

(** How [InstallAll], [Update] and [UpdateAll] can end, with the events
    they leave; [fn] is the call that installs or updates and [msg] the
    context its error is returned with. *)
Definition maintenance_outcome (fn msg : string) (r : Res unit) (t : list event) : Prop :=
  (∃ ok1 ok2,
     (ok1 = false ∨ ok2 = false) ∧ is_ok r = false ∧
     t = [EvCall "LoadConfigAsMap" ok1; EvCall "ConfigFromObject" ok2]) ∨
  (∃ body,
     is_ok r = false ∧ stopped (take 2 (maintenance_steps fn)) body ∧
     t = [EvCall "LoadConfigAsMap" true; EvCall "ConfigFromObject" true] ++ body) ∨
  (∃ cause ok,
     r = Err (WrapError cause msg) ∧
     t = [EvCall "LoadConfigAsMap" true; EvCall "ConfigFromObject" true;
          EvCall "GetDotRegolith" true; EvCall "aquireSessionLock" true;
          EvCall fn false; EvCall "unlockSession" ok]) ∨
  (∃ ok,
     r = Ok tt ∧
     t = [EvCall "LoadConfigAsMap" true; EvCall "ConfigFromObject" true]
         ++ maintenance_steps fn ++ [EvCall "unlockSession" ok]).

(** The context [Install] gives to a failed download of the request [a]. *)
Definition download_failure (a : parsedInstallFilterArg) : string :=
  "Unable to download the filter definition from the Internet." +:+ nl
  +:+ "Filter repository Url: " +:+ url a +:+ nl
  +:+ "Filter name: " +:+ name a +:+ nl
  +:+ "Filter version: " +:+ version a +:+ nl.

(** [n] downloads that succeeded. *)
Definition downloads (n : nat) : list event :=
  replicate n (EvCall "FilterDefinitionFromTheInternet" true).

(** What [Install] does under the lock for the parsed requests
    [parsedArgs], with the events it leaves: it refuses a filter that is
    installed, or a download fails, or the installation fails, or the
    definitions are stored under [keys] and the configuration file is
    written. *)
Definition install_body (ConfigFilePath : string) (force : bool)
    (parsedArgs : list parsedInstallFilterArg) (r : Res unit) (body : list event) : Prop :=
  (∃ a, force = false ∧ a ∈ parsedArgs ∧
        r = Err (WrappedError (Commands.already_installed (name a))) ∧ body = []) ∨
  (∃ n a cause,
     parsedArgs !! n = Some a ∧ r = Err (WrapError cause (download_failure a)) ∧
     body = downloads n ++ [EvCall "FilterDefinitionFromTheInternet" false]) ∨
  (∃ cause,
     r = Err (WrapError cause "Failed to install filters.") ∧
     body = downloads (length parsedArgs) ++ [EvCall "installFilters" false]) ∨
  (∃ fd keys okw,
     NoDup keys ∧ (∀ k, k ∈ keys ↔ k ∈ name <$> parsedArgs) ∧
     (okw = true ↔ r = Ok tt) ∧
     body = downloads (length parsedArgs) ++ [EvCall "installFilters" true]
            ++ (EvStore fd <$> keys) ++ [EvSys (SysWriteFile ConfigFilePath) okw]).

(** Whether a filter name is among the filter definitions. *)
Definition is_installed (config : Config) (filterName : string) : bool :=
  match FilterDefinitions config !! filterName with
  | Some _ => true
  | None => false
  end.

(** The warning of [Update] for a filter that is not installed. *)
Definition not_installed (filterName : string) : level * string :=
  (Warn, "Filter " +:+ q filterName
         +:+ " is not installed and therefore cannot be updated.").

(** What [ProfileFromObject] makes of an entry of ["filters"]: the runner
    built from the entry, which is an object. *)
Definition parses_to
    (FilterRunnerFromObjectAndDefinitions :
       gmap string json → gmap string FilterInstaller → Res FilterRunner)
    (filterDefinitions : gmap string FilterInstaller)
    (entry : json) (runner : FilterRunner) : Prop :=
  ∃ filter, entry = JObject filter ∧
            FilterRunnerFromObjectAndDefinitions filter filterDefinitions = Ok runner.

(** The lines a pass of [RunProfileImpl] over the runners [l] logs when
    none of them fails. *)
Definition run_lines (l : list FilterRunner) : list (level * string) :=
  flat_map
    (λ f, if IsDisabled f
          then [(Info, "Filter " +:+ q (GetId f) +:+ " is disabled, skipping.")]
          else (if negb (String.eqb (GetId f) "")
                then [(Info, "Running filter " +:+ GetId f)] else [])
               ++ [(Debug, "Executed in ")])
    l.

Definition could_not_load : string := "Could not load " +:+ q "config.json" +:+ ".".

(** ** Concrete projects *)

Module Examples.

(** A project with a resource pack directory, a regular file where the
    behavior pack should be, no data directory, and a workspace left over
    from an earlier run. *)
Definition project : gmap string node :=
  list_to_map
    [("packs/RP", Dir); ("packs/RP/manifest.json", File "{}");
     ("packs/BP", File "oops");
     (".regolith/tmp/RP/stale.json", File "old")].

Definition no_fault : syscall → option errno := λ _, None.


Definition machine (fault : syscall → option errno) : World :=
  mkWorld (mkSys project ∅ fault) [] [] None.

Definition config_with (rp bp dp : string) (profiles : gmap string Profile) : Config :=
  mkConfig (mkConfigFields "demo" "nobody" rp bp dp) ∅ profiles.

(** Runners: one whose check and run pass, one whose check fails, one whose
    run fails. *)
Definition passing (id : string) (disabled : bool) : FilterRunner :=
  mkFilterRunner id disabled None []
    (λ _ s, (Ok tt, s)) (λ _ s, (Ok tt, s)).

Definition unmet (id : string) (disabled : bool) : FilterRunner :=
  mkFilterRunner id disabled None []
    (λ _ s, (Err (Foreign "interpreter not found"), s)) (λ _ s, (Ok tt, s)).

Definition crashing (id : string) : FilterRunner :=
  mkFilterRunner id false None []
    (λ _ s, (Ok tt, s)) (λ _ s, (Err (Foreign "exit status 1"), s)).

Definition profile_of (l : list FilterRunner) : Profile :=
  mkProfile (mkFilterCollection l) (mkExportTarget "development" false).

(** The rest of the package: loading yields the given configuration and
    exporting succeeds. *)
Definition load : Sys → Res loc * Sys := λ s, (Ok 1, s).
Definition parse (c : Config) : loc → Sys → Res Config * Sys := λ _ s, (Ok c, s).
Definition export : Profile → string → string → Sys → Res unit * Sys :=
  λ _ _ _ s, (Ok tt, s).

(** A remote filter whose descriptor lists a local sub-filter and then a
    remote one. An entry with a ["url"] key resolves to a remote runner. *)
Definition parent : RemoteFilter :=
  mkRemoteFilter "name_ninja" ".regolith/cache/filters/name_ninja" ["--fast"].

Definition descriptor_text : string := "filters: [runWith python, url github.com/x/y]".

Definition descriptor : gmap string json :=
  {[ "filters" :=
       JArray [JObject {[ "runWith" := JString "python" ]};
               JObject {[ "url" := JString "github.com/x/y" ]}] ]}.

Definition unmarshal (text : string) : Res (gmap string json) :=
  if String.eqb text descriptor_text then Ok descriptor
  else Err (Foreign "invalid character").

Definition runner_from (id : string) (entry : gmap string json) : FilterRunner :=
  mkFilterRunner id false
    (match entry !! "url" with
     | Some _ => Some (mkRemoteFilter id (".regolith/cache/filters/" +:+ id) [])
     | None => None
     end)
    [] (λ _ s, (Ok tt, s)) (λ _ s, (Ok tt, s)).

Definition installer_from (id : string) (entry : gmap string json) : Res FilterInstaller :=
  Ok (mkFilterInstaller None (λ run_config, Ok (runner_from id run_config))).

Definition copy_arguments (runner : FilterRunner) (f : RemoteFilter) : FilterRunner :=
  mkFilterRunner (GetId runner) (IsDisabled runner) (as_RemoteFilter runner)
    (runner_Arguments runner ++ Arguments f) (runner_Check runner) (runner_Run runner).

Definition cache : gmap string node :=
  list_to_map
    [(".regolith/cache/filters/name_ninja", Dir);
     (".regolith/cache/filters/name_ninja/filter.json", File descriptor_text)].

Definition cache_machine : World := mkWorld (mkSys cache ∅ no_fault) [] [] None.

(** The helpers of the commands for the project: the configuration is the
    map at location 1 of the heap, its filter definitions the map at
    location 2; the session lock is taken, and its release fails. *)
Definition config_heap : gmap loc (gmap string value) :=
  {[ 1 := {[ "dataPath" := VString "packs/data"; "filterDefinitions" := VMap 2 ]};
     2 := {[ "lint" := VString "local" ]} ]}.

Definition project_machine : World :=
  mkWorld (mkSys project config_heap no_fault) [] [] None.

(** An install request [url==version] or [url]; the name of the filter is
    the last segment of the url. *)
Fixpoint split_request (acc request : string) : string * string :=
  match request with
  | EmptyString => (acc, "")
  | String c rest =>
      match c, rest with
      | "="%char, String "="%char requested => (acc, requested)
      | _, _ => split_request (acc +:+ String c EmptyString) rest
      end
  end.

Fixpoint last_segment (acc path : string) : string :=
  match path with
  | EmptyString => acc
  | String c rest =>
      if Ascii.eqb c "/" then last_segment "" rest
      else last_segment (acc +:+ String c EmptyString) rest
  end.

Definition parse_requests (requests : list string) : Res (list parsedInstallFilterArg) :=
  Ok (List.map
        (λ request,
           let '(u, requested) := split_request "" request in
           mkParsedArg u (last_segment "" u) requested)
        requests).

Definition data_path : loc → Sys → Res string * Sys :=
  λ l s, match map_at l s !! "dataPath" with
         | Some (VString path) => (Ok path, s)
         | _ => (Err (Foreign "dataPath is missing"), s)
         end.

Definition filter_definitions : loc → Sys → Res loc * Sys :=
  λ l s, match map_at l s !! "filterDefinitions" with
         | Some (VMap definitions) => (Ok definitions, s)
         | _ => (Err (Foreign "filterDefinitions is missing"), s)
         end.

Definition dot_regolith : bool → string → Sys → Res string * Sys :=
  λ _ _ s, (Ok ".regolith", s).

Definition release_error : error := Foreign "cannot remove the lock file".

Definition failing_unlock : Sys → Res unit * Sys := λ s, (Err release_error, s).

Definition acquire : string → Sys → Res (Sys → Res unit * Sys) * Sys :=
  λ _ s, (Ok failing_unlock, s).

(** Modelled from the spec: [FilterDefinitionFromTheInternet] is not among
    the sources. The specification has it resolve the specifier against the
    remote source: an omitted version resolves to the highest version tag,
    or to HEAD when the repository has no version tags; HEAD resolves to the
    latest commit and latest to the highest version tag; a version or commit
    hash that is given is pinned verbatim. Here every repository has the
    latest commit [0a1b2c3] and the version tags [tags]. *)
Definition from_the_internet (tags : list string) (u filter_name requested : string)
    : Sys → Res RemoteFilterDefinition * Sys :=
  λ s,
    let highest := match tags with tag :: _ => tag | [] => "0a1b2c3" end in
    let resolved :=
      if String.eqb requested "" then highest
      else if String.eqb requested "HEAD" then "0a1b2c3"
      else if String.eqb requested "latest" then highest
      else requested in
    (Ok (mkRemoteFilterDefinition u resolved filter_name), s).

Definition create_runner (d : RemoteFilterDefinition) (run_config : gmap string json)
    : Res FilterRunner :=
  Ok (passing (Name d) false).

Definition install_filters
    : gmap string FilterInstaller → bool → string → string → Sys → Res unit * Sys :=
  λ _ _ _ _ s, (Ok tt, s).

Definition update_filters : gmap string FilterInstaller → string → Sys → Res unit * Sys :=
  λ _ _ s, (Ok tt, s).

(** The marshalled configuration, as far as it matters here: the entries of
    the filter definitions with their versions. *)
Definition marshal (h : gmap loc (gmap string value)) (root : loc) : string :=
  match default ∅ (h !! root) !! "filterDefinitions" with
  | Some (VMap definitions) =>
      foldr (λ entry text,
               match entry.2 with
               | VFilterDefinition d => entry.1 +:+ "@" +:+ Version d +:+ ";" +:+ text
               | _ => entry.1 +:+ ";" +:+ text
               end) "" (map_to_list (default ∅ (h !! definitions)))
  | _ => ""
  end.

Definition Install : list string → bool → bool → M unit :=
  Commands.Install "config.json" "git is not installed" "the session is locked"
    (λ _, true) parse_requests load data_path filter_definitions dot_regolith
    acquire (from_the_internet ["1.2.0"; "1.1.0"]) create_runner install_filters marshal.

(** The configuration as [ConfigFromObject] yields it, with one installed
    filter and the profile [default]. *)
Definition lint_installer : FilterInstaller :=
  mkFilterInstaller None (λ _, Ok (passing "lint" false)).

Definition loaded_config : Config :=
  mkConfig (mkConfigFields "demo" "nobody" "packs/RP" "packs/BP" "packs/data")
    {[ "lint" := lint_installer ]}
    {[ "default" := profile_of [passing "lint" false] ]}.

Definition succeed {A} : A → Sys → Res unit * Sys := λ _ s, (Ok tt, s).

Definition InstallAll : bool → bool → M unit :=
  Commands.InstallAll "git is not installed" "the session is locked" (λ _, true)
    load (parse loaded_config) dot_regolith acquire install_filters.

Definition Update : list string → bool → M unit :=
  Commands.Update "git is not installed" "the session is locked" (λ _, true)
    load (parse loaded_config) dot_regolith acquire update_filters.

Definition UpdateAll : bool → M unit :=
  Commands.UpdateAll "git is not installed" "the session is locked" (λ _, true)
    load (parse loaded_config) dot_regolith acquire update_filters.

(** [run_result] is what every pipeline run of the command returns;
    [wake] is whether a wait is ended by a change of the watched files. *)
Definition runOrWatch (run_result : Res unit) (wake : bool)
    : nat → string → bool → bool → M Exit :=
  Commands.runOrWatch "/project" "the session is locked" (λ path, "mkdir " +:+ path)
    load (parse loaded_config) dot_regolith succeed acquire
    (λ _ _ _ _ _ s, (Ok tt, s)) (λ _ s, (run_result, s)) (λ _ s, s) (λ e, e)
    (λ _ s, if wake then Some s else None).

Definition Tool : string → list string → bool → M unit :=
  Commands.Tool "/project" "the session is locked" (λ path, "mkdir " +:+ path)
    (λ n, "create " +:+ n) (λ n, "check " +:+ n) (λ path, "setup " +:+ path)
    (λ n, "run " +:+ n) load (parse loaded_config) dot_regolith succeed acquire
    (λ _ _ s, (Ok tt, s)) (λ _ _ s, (Ok tt, s)).

End Examples.

(** ** Further concrete projects *)

Module Fixtures.

Definition local_descriptor_text : string := "filters: [runWith python, runWith nodejs]".
Definition local_descriptor : gmap string json :=
  {[ "filters" :=
       JArray [JObject {[ "runWith" := JString "python" ]};
               JObject {[ "runWith" := JString "nodejs" ]}] ]}.
Definition broken_descriptor_text : string := "filters: [runWith python, 7]".
Definition broken_descriptor : gmap string json :=
  {[ "filters" := JArray [JObject {[ "runWith" := JString "python" ]}; JNumber 7] ]}.
Definition unmarshal (text : string) : Res (gmap string json) :=
  if String.eqb text local_descriptor_text then Ok local_descriptor
  else if String.eqb text broken_descriptor_text then Ok broken_descriptor
  else Err (Foreign "invalid character").
(** A descriptor whose first entry is not an object and whose second is a
    remote filter. *)
Definition unparsed_then_remote_text : string := "filters: [7, url github.com/x/y]".
Definition unparsed_then_remote : gmap string json :=
  {[ "filters" := JArray [JNumber 7; JObject {[ "url" := JString "github.com/x/y" ]}] ]}.
Definition unmarshal_descriptor (text : string) : Res (gmap string json) :=
  if String.eqb text unparsed_then_remote_text then Ok unparsed_then_remote
  else unmarshal text.
Definition cache_with (text : string) : World :=
  mkWorld
    (mkSys (list_to_map
              [(".regolith/cache/filters/name_ninja", Dir);
               (".regolith/cache/filters/name_ninja/filter.json", File text)])
       ∅ Examples.no_fault) [] [] None.

(** The helpers of [Init] and [Clean]: the working directory is
    [/project], which is empty when the file tree is; the configuration is
    marshalled to its name and author, and unmarshalling keeps the text
    under one key. *)
Definition getwd : Sys → Res string := λ _, Ok "/project".

Definition is_dir_empty : string → Sys → Res bool * Sys :=
  λ _ s, (Ok (match map_to_list (fs s) with [] => true | _ => false end), s).

Definition user_config : Sys → Res UserConfig * Sys :=
  λ s, (Ok (mkUserConfig "nobody"), s).

Definition marshal_config : Config → string :=
  λ c, "name: " +:+ ConfigName c +:+ ", author: " +:+ Author c.

Definition unmarshal_into : string → gmap string json → gmap string json :=
  λ text m, <["text" := JString text]> m.

Definition marshal_map : gmap string json → string :=
  λ m, foldr (λ entry text,
                match entry.2 with
                | JString v => entry.1 +:+ ": " +:+ v +:+ "; " +:+ text
                | _ => entry.1 +:+ "; " +:+ text
                end) "" (map_to_list m).

Definition error_text : string → string → error → string :=
  λ format folder _, format +:+ " " +:+ folder.

Definition Init : bool → M unit :=
  Maintenance.Init "config.json" "/build" "cannot get the working directory"
    "cannot get the user configuration" getwd is_dir_empty user_config
    marshal_config marshal_map unmarshal_into error_text.

Definition empty_machine : World := mkWorld (mkSys ∅ ∅ Examples.no_fault) [] [] None.

(** A project with its cache directory, and a cache in the application
    data folder of the user. *)
Definition cached_project : gmap string node :=
  list_to_map
    [("packs/RP", Dir); ("packs/RP/manifest.json", File "{}");
     (".regolith", Dir); (".regolith/cache/venvs/v1", File "venv");
     ("/home/nobody/.cache/regolith/project-cache/f1", File "filter");
     ("/home/nobody/.cache/regolith/other/f2", File "filter")].

Definition cached_machine : World :=
  mkWorld (mkSys cached_project ∅ Examples.no_fault) [] [] None.

Definition app_data : bool → string → Sys → Res string * Sys :=
  λ _ _ s, (Ok "/home/nobody/.cache/regolith/project-cache", s).

Definition user_cache : Sys → Res string := λ _, Ok "/home/nobody/.cache".

Definition CleanUserCache : M unit :=
  Maintenance.CleanUserCache "cannot get the user cache directory" "regolith" user_cache.

(** The helpers of [ProfileFromObject]: a filter entry names an installed
    filter, an export entry its target. *)
Definition runner_of (filter : gmap string json)
    (definitions : gmap string FilterInstaller) : Res FilterRunner :=
  match filter !! "filter" with
  | Some (JString id) =>
      match definitions !! id with
      | Some installer => CreateFilterRunner installer filter
      | None => Err (Foreign "the filter is not installed")
      end
  | _ => Err (Foreign "the filter has no name")
  end.

Definition export_of (export : gmap string json) : Res ExportTarget :=
  match export !! "target" with
  | Some (JString target) => Ok (mkExportTarget target false)
  | _ => Err (Foreign "the export has no target")
  end.

Definition ordinal (i : nat) : string :=
  match i with
  | 0 => "1st"
  | 1 => "2nd"
  | 2 => "3rd"
  | _ => "next"
  end.

Definition lint_entry : json := JObject {[ "filter" := JString "lint" ]}.

Definition export_entry : gmap string json := {[ "target" := JString "development" ]}.

End Fixtures.

(** * Results *)

(** ** Computations step by step *)

Lemma bind_inv {A B} (m : M A) (k : A → M B) w r w' :
  bind m k w = (r, w') →
  (∃ e, m w = (Err e, w') ∧ r = Err e) ∨
  (∃ a w1, m w = (Ok a, w1) ∧ k a w1 = (r, w')).
Proof.
  unfold bind. destruct (m w) as [[a|e] w1]; intros H.
  - right. eauto.
  - left. inversion H; subst. eauto.
Qed.

Lemma orelse_inv {A} (m : M A) (f : error → error) w r w' :
  or_return m f w = (r, w') →
  (∃ a, m w = (Ok a, w') ∧ r = Ok a) ∨ (∃ e, m w = (Err e, w') ∧ r = Err (f e)).
Proof.
  unfold or_return. destruct (m w) as [[a|e] w1]; intros H; inversion H; subst; eauto.
Qed.

Lemma attempt_inv {A} (m : M A) w r w' :
  attempt m w = (r, w') → ∃ r0, m w = (r0, w') ∧ r = Ok r0.
Proof.
  unfold attempt. destruct (m w) as [r0 w1]; intros H; inversion H; subst; eauto.
Qed.

Lemma traced_inv {A} (ev : bool → event) (m : M A) w r w' :
  traced ev m w = (r, w') → ∃ w1, m w = (r, w1) ∧ w' = add_event (ev (is_ok r)) w1.
Proof.
  unfold traced. destruct (m w) as [r0 w1]; intros H; inversion H; subst; eauto.
Qed.

(** ** The file tree under the system calls *)

Lemma prefix_refl (s : string) : String.prefix s s = true.
Proof.
  induction s as [|c s IH]; [done|]. cbn.
  destruct (ascii_dec c c); [done | congruence].
Qed.

Lemma prefix_app_l (a b k : string) :
  String.prefix (a +:+ b) k = true → String.prefix a k = true.
Proof.
  revert k. induction a as [|c a IH]; intros k; [by destruct k|].
  destruct k as [|d k]; simpl; [done|].
  destruct (ascii_dec c d); [apply IH | done].
Qed.

Lemma under_prefix (p k : string) : os.under p k = true → String.prefix p k = true.
Proof.
  unfold os.under. intros [H|H]%orb_true_iff.
  - apply String.eqb_eq in H as ->. apply prefix_refl.
  - by apply prefix_app_l in H.
Qed.

Lemma prefix_trans_app (a b k : string) :
  String.prefix a k = false → String.prefix (a +:+ b) k = false.
Proof.
  intros H. destruct (String.prefix (a +:+ b) k) eqn:E; [|done].
  apply prefix_app_l in E. congruence.
Qed.

Lemma lookup_mkdirs (ds : list string) (f : gmap string node) (k : string) :
  os.mkdirs ds f !! k = if decide (k ∈ ds) then Some Dir else f !! k.
Proof.
  unfold os.mkdirs. induction ds as [|d ds IH]; cbn [foldr].
  - destruct (decide (k ∈ [])) as [H|H]; [by apply elem_of_nil in H | done].
  - destruct (decide (d = k)) as [->|Hne].
    + rewrite lookup_insert_eq.
      destruct (decide (k ∈ k :: ds)) as [H|H]; [done|].
      exfalso. apply H. left.
    + rewrite lookup_insert_ne by done. rewrite IH.
      destruct (decide (k ∈ ds)) as [H|H], (decide (k ∈ d :: ds)) as [H'|H']; try done.
      * exfalso. apply H'. by right.
      * exfalso. apply elem_of_cons in H' as [->|?]; done.
Qed.

Lemma lookup_copy_tree_frame (src dst : string) (f : gmap string node) (k : string) :
  (∀ rest, k ≠ dst +:+ rest) → os.copy_tree src dst f !! k = f !! k.
Proof.
  intros Hk. unfold os.copy_tree. cbn zeta.
  apply lookup_union_r. apply not_elem_of_list_to_map_1.
  intros ([k' n] & Hfst & Hin)%list_elem_of_fmap.
  apply list_elem_of_omap in Hin as ([k0 n0] & _ & Hsome). cbn in *.
  destruct (os.strip src k0) as [rest|]; [|done].
  inversion Hsome; subst. by eapply Hk.
Qed.

Lemma lookup_remove_all (path : string) (f : gmap string node) (k : string) :
  filter (λ kn : string * node, os.under path kn.1 = false) f !! k
  = if os.under path k then None else f !! k.
Proof.
  rewrite map_lookup_filter. destruct (f !! k) as [n|]; cbn.
  - destruct (os.under path k) eqn:E.
    + by rewrite option_guard_False by (cbn; congruence).
    + by rewrite option_guard_True.
  - by destruct (os.under path k).
Qed.

Lemma prefix_app_r (a b : string) : String.prefix a (a +:+ b) = true.
Proof.
  induction a as [|c a IH]; simpl.
  - change ("" +:+ b) with b. destruct b; reflexivity.
  - destruct (ascii_dec c c); [done | congruence].
Qed.

Lemma prefix_comparable (a b k : string) :
  String.prefix a k = true → String.prefix b k = true →
  String.prefix a b = true ∨ String.prefix b a = true.
Proof.
  revert a b. induction k as [|c k IH]; intros a b Ha Hb.
  - destruct a; [|done]. left. destruct b; reflexivity.
  - destruct a as [|x a]; [left; destruct b; reflexivity|].
    destruct b as [|y b]; [right; reflexivity|].
    simpl in *. destruct (ascii_dec x c) as [->|]; [|done].
    destruct (ascii_dec y c) as [->|]; [|done].
    destruct (ascii_dec c c); [|congruence]. by apply IH.
Qed.

Lemma prefix_cons (a b : ascii) (p s : string) :
  String.prefix (String a p) (String b s)
  = if ascii_dec a b then String.prefix p s else false.
Proof. reflexivity. Qed.

Lemma append_cons (a : ascii) (s t : string) : String a s +:+ t = String a (s +:+ t).
Proof. reflexivity. Qed.

Lemma append_assoc_cons (acc : string) (c : ascii) (s : string) :
  (acc +:+ String c EmptyString) +:+ s = acc +:+ String c s.
Proof. induction acc as [|a acc IH]; [done|]. by rewrite !append_cons, IH. Qed.

Lemma append_empty_r (s : string) : s +:+ "" = s.
Proof. induction s as [|a s IH]; [done|]. by rewrite append_cons, IH. Qed.

Lemma prefix_trans (a b c : string) :
  String.prefix a b = true → String.prefix b c = true → String.prefix a c = true.
Proof.
  revert b c. induction a as [|x a IH]; intros b c Hab Hbc; [by destruct c|].
  destruct b as [|y b]; [done|]. destruct c as [|z c]; [done|].
  rewrite prefix_cons in *.
  destruct (ascii_dec x y) as [->|]; [|done].
  destruct (ascii_dec y z) as [->|]; [|done]. by eapply IH.
Qed.

(** The directories [MkdirAll p] makes sure of are [p] and paths that [p]
    leads through. *)
Lemma dirs_from_prefix s :
  ∀ acc k, k ∈ os.dirs_from acc s → String.prefix k (acc +:+ s) = true.
Proof.
  induction s as [|c s IH]; intros acc k; cbn.
  - destruct (String.eqb acc ""); [by intros ?%elem_of_nil|].
    intros ->%list_elem_of_singleton. apply prefix_app_r.
  - destruct (Ascii.eqb_spec c "/") as [->|].
    + intros [Hk|Hk%IH]%elem_of_app.
      * destruct (String.eqb acc ""); [by apply elem_of_nil in Hk|].
        apply list_elem_of_singleton in Hk as ->. apply prefix_app_r.
      * by rewrite append_assoc_cons in Hk.
    + intros Hk%IH. by rewrite append_assoc_cons in Hk.
Qed.

Lemma dirs_of_outside (p k : string) : outside p → k ∈ os.dirs_of p → outside k.
Proof.
  unfold outside. intros Hp Hk%dirs_from_prefix. change ("" +:+ p) with p in Hk.
  destruct (String.prefix ".regolith" k) eqn:E; [|done].
  by rewrite (prefix_trans _ _ _ E Hk) in Hp.
Qed.

Lemma no_file_among (ds : list string) (f : gmap string node) :
  (∀ k, k ∈ ds → os.is_file_at f k = false) → existsb (os.is_file_at f) ds = false.
Proof.
  intros Hall. destruct (existsb _ _) eqn:Hex; [|done].
  apply existsb_exists in Hex as (k & Hin%list_elem_of_In & Hk).
  by rewrite Hall in Hk.
Qed.

Lemma step_trans w1 w2 w3 t1 t2 l1 l2 :
  step w1 w2 t1 l1 → step w2 w3 t2 l2 → step w1 w3 (t1 ++ t2) (l1 ++ l2).
Proof.
  intros [] []. split; try congruence.
  - rewrite step_trace1, step_trace0. by rewrite app_assoc.
  - rewrite step_log1, step_log0. by rewrite app_assoc.
Qed.

Lemma Logger_inv lv msg w r w' :
  Logger lv msg w = (r, w') →
  r = Ok tt ∧ fs (sys w') = fs (sys w) ∧ step w w' [] [(lv, msg)].
Proof.
  unfold Logger. intros H; inversion H; subst; clear H.
  repeat split; cbn; by rewrite ?app_nil_r.
Qed.

Lemma failing_inv {A} c op path (k : M A) w r w' :
  os.failing c op path k w = (r, w') →
  ∃ w1, w' = add_event (EvSys c (is_ok r)) w1 ∧
    ((∃ e, fault (sys w) c = Some e ∧ r = Err (PathError op path e) ∧ w1 = w) ∨
     (fault (sys w) c = None ∧ k w = (r, w1))).
Proof.
  unfold os.failing. intros (w1 & H & ->)%traced_inv. exists w1. split; [done|].
  destruct (fault (sys w) c) as [e|]; [left | right; done].
  inversion H; subst. eauto.
Qed.

Lemma Stat_inv path w r w' :
  os.Stat path w = (r, w') →
  w' = add_event (EvSys (SysStat path) (is_ok r)) w ∧
  match fault (sys w) (SysStat path) with
  | Some e => r = Err (PathError "stat" path e)
  | None =>
      match fs (sys w) !! path with
      | Some n => r = Ok n
      | None =>
          r = Err (PathError "stat" path
                     (if existsb (os.is_file_at (fs (sys w))) (os.dirs_of path)
                      then ENOTDIR else ENOENT))
      end
  end.
Proof.
  unfold os.Stat. intros (w1 & -> & [(e & -> & -> & ->)|[-> H]])%failing_inv; [done|].
  destruct (fs (sys w) !! path); [inversion H; by subst|].
  destruct (existsb _ _); inversion H; by subst.
Qed.

Lemma RemoveAll_inv path w r w' :
  os.RemoveAll path w = (r, w') →
  step w w' [EvSys (SysRemoveAll path) (is_ok r)] [] ∧
  (∀ k, os.under path k = false → fs (sys w') !! k = fs (sys w) !! k) ∧
  (∀ k, fs (sys w) !! k = None → fs (sys w') !! k = None) ∧
  (r = Ok tt → ∀ k, os.under path k = true → fs (sys w') !! k = None) ∧
  (fault (sys w) (SysRemoveAll path) = None → r = Ok tt).
Proof.
  unfold os.RemoveAll.
  intros (w1 & -> & [(e & He & -> & ->)|[Hf H]])%failing_inv.
  - repeat split; cbn; rewrite ?app_nil_r; try done. congruence.
  - inversion H; subst; clear H. repeat split; cbn; rewrite ?app_nil_r; try done.
    + intros k Hk. by rewrite lookup_remove_all, Hk.
    + intros k Hk. rewrite lookup_remove_all. by destruct (os.under path k).
    + intros _ k Hk. by rewrite lookup_remove_all, Hk.
Qed.

Lemma MkdirAll_inv path w r w' :
  os.MkdirAll path w = (r, w') →
  step w w' [EvSys (SysMkdirAll path) (is_ok r)] [] ∧
  (∀ k, k ∉ os.dirs_of path → fs (sys w') !! k = fs (sys w) !! k) ∧
  (∀ k, fs (sys w) !! k = Some Dir → fs (sys w') !! k = Some Dir) ∧
  (r = Ok tt → ∀ k, k ∈ os.dirs_of path → fs (sys w') !! k = Some Dir) ∧
  (fault (sys w) (SysMkdirAll path) = None →
   (∀ k, k ∈ os.dirs_of path → os.is_file_at (fs (sys w)) k = false) → r = Ok tt).
Proof.
  unfold os.MkdirAll.
  intros (w1 & -> & [(e & He & -> & ->)|[Hf H]])%failing_inv.
  - repeat split; cbn; rewrite ?app_nil_r; try done. congruence.
  - destruct (existsb _ _) eqn:Hex; inversion H; subst; clear H.
    + repeat split; cbn; rewrite ?app_nil_r; try done.
      intros _ Hall. apply existsb_exists in Hex as (k & Hin & Hk).
      apply list_elem_of_In in Hin. rewrite Hall in Hk; done.
    + repeat split; cbn; rewrite ?app_nil_r; try done.
      * intros k Hk. rewrite lookup_mkdirs. by destruct (decide (k ∈ os.dirs_of path)).
      * intros k Hk. rewrite lookup_mkdirs. by destruct (decide (k ∈ os.dirs_of path)).
      * intros _ k Hk. rewrite lookup_mkdirs. by destruct (decide (k ∈ os.dirs_of path)).
Qed.

Lemma Copy_inv src dst w r w' :
  os.Copy src dst w = (r, w') →
  step w w' [EvSys (SysCopy src dst) (is_ok r)] [] ∧
  (∀ k, k ∉ os.dirs_of dst → String.prefix dst k = false →
        fs (sys w') !! k = fs (sys w) !! k) ∧
  (∀ k, String.prefix dst k = false → fs (sys w) !! k = Some Dir →
        fs (sys w') !! k = Some Dir).
Proof.
  assert (Hpre : ∀ k, String.prefix dst k = false → ∀ rest, k ≠ dst +:+ rest).
  { intros k Hk rest ->. by rewrite prefix_app_r in Hk. }
  unfold os.Copy.
  intros (w1 & -> & [(e & He & -> & ->)|[Hf H]])%failing_inv.
  - repeat split; cbn; rewrite ?app_nil_r; done.
  - destruct (fs (sys w) !! src); inversion H; subst; clear H;
      repeat split; cbn; rewrite ?app_nil_r; try done.
    + intros k Hk Hp. rewrite lookup_copy_tree_frame by auto.
      rewrite lookup_mkdirs. by destruct (decide (k ∈ os.dirs_of dst)).
    + intros k Hp Hk. rewrite lookup_copy_tree_frame by auto.
      rewrite lookup_mkdirs. by destruct (decide (k ∈ os.dirs_of dst)).
Qed.

(** ** Staging *)


Lemma setup_file path s d c w :
  path ≠ "" → fault (sys w) (SysStat path) = None →
  fs (sys w) !! path = Some (File c) →
  Pipeline.setup_tmp_directory path s d w
  = (Err (WrappedError (d +:+ " path " +:+ q path +:+ " is not a directory")),
     add_event (EvSys (SysStat path) true) w).
Proof.
  intros Hp%String.eqb_neq Hf Hc.
  unfold Pipeline.setup_tmp_directory. rewrite Hp. cbn [negb].
  unfold bind, attempt, os.Stat, os.failing, traced. by rewrite Hf, Hc.
Qed.

Lemma setup_absent path s d w r w' :
  path ≠ "" → fault (sys w) (SysStat path) = None → missing (sys w) path →
  Pipeline.setup_tmp_directory path s d w = (r, w') →
  (Warn, d +:+ " " +:+ q path +:+ " does not exist") ∈ log w' ∧
  (r = Ok tt → ∀ k, k ∈ os.dirs_of (".regolith/tmp/" +:+ s) → fs (sys w') !! k = Some Dir) ∧
  (fault (sys w) (SysMkdirAll (".regolith/tmp/" +:+ s)) = None →
   (∀ k, k ∈ os.dirs_of (".regolith/tmp/" +:+ s) → os.is_file_at (fs (sys w)) k = false) →
   r = Ok tt).
Proof.
  intros Hp%String.eqb_neq Hf [Hc Habove%no_file_among].
  unfold Pipeline.setup_tmp_directory. rewrite Hp. cbn [negb].
  unfold bind at 1. unfold attempt, os.Stat, os.failing, traced.
  rewrite Hf, Hc, Habove.
  cbn [IsNotExist is_ok]. unfold bind, Logger. cbn [fst snd].
  intros [([] & Hm & ->)|(e & Hm & ->)]%orelse_inv.
  - apply MkdirAll_inv in Hm as (Hs & _ & _ & Hd & _). destruct Hs. cbn in *.
    split; [|split]; [| auto | done].
    rewrite step_log0, app_nil_r. apply elem_of_app. right. left.
  - apply MkdirAll_inv in Hm as (Hs & _ & _ & _ & Hok). destruct Hs. cbn in *.
    split; [|split]; [| done |].
    + rewrite step_log0, app_nil_r. apply elem_of_app. right. left.
    + intros H1 H2. by specialize (Hok H1 H2).
Qed.

Lemma Forall_stage_app (t1 t2 : list event) :
  Forall stage_event t1 → Forall stage_event t2 → Forall stage_event (t1 ++ t2).
Proof. intros. by apply Forall_app. Qed.

Ltac stage_events :=
  cbn [app]; repeat (apply List.Forall_cons; [reflexivity|]); apply List.Forall_nil.

(** The effect of the closure on everything outside its workspace
    subdirectory. *)
Lemma setup_frame path s d w r w' :
  Pipeline.setup_tmp_directory path s d w = (r, w') →
  ∃ t l, step w w' t l ∧ Forall stage_event t ∧
    (∀ k, k ∉ os.dirs_of (".regolith/tmp/" +:+ s) →
          String.prefix (".regolith/tmp/" +:+ s) k = false →
          fs (sys w') !! k = fs (sys w) !! k) ∧
    (∀ k, String.prefix (".regolith/tmp/" +:+ s) k = false →
          fs (sys w) !! k = Some Dir → fs (sys w') !! k = Some Dir).
Proof.
  unfold Pipeline.setup_tmp_directory.
  destruct (negb (path =? "")%string).
  - intros [(e & Ha & _)|(rs & w1 & Ha & Hk)]%bind_inv.
    { apply attempt_inv in Ha as (? & _ & ?). done. }
    apply attempt_inv in Ha as (r0 & (-> & _)%Stat_inv & [= ->]).
    set (w0 := add_event _ w) in Hk.
    assert (Hw0 : step w w0 [EvSys (SysStat path) (is_ok r0)] []).
    { subst w0. split; cbn; by rewrite ?app_nil_r. }
    destruct r0 as [stats|err].
    + destruct (is_dir stats).
      * apply orelse_inv in Hk as [(a & Hc & ->)|(e & Hc & ->)];
          apply Copy_inv in Hc as (Hs & Hfr & Hd);
          eexists _, _; (split; [exact (step_trans _ _ _ _ _ _ _ Hw0 Hs)|]);
          (split; [stage_events|]); split; auto.
      * inversion Hk; subst. eexists _, _. split; [exact Hw0|].
        split; [stage_events|]. split; auto.
    + destruct (IsNotExist err).
      * apply bind_inv in Hk as [(e & Hl & _)|([] & w2 & Hl & Hk)].
        { apply Logger_inv in Hl as (? & _). done. }
        apply Logger_inv in Hl as (_ & Hfs & Hl).
        pose proof (step_trans _ _ _ _ _ _ _ Hw0 Hl) as Hw2.
        apply orelse_inv in Hk as [(a & Hc & ->)|(e & Hc & ->)];
          apply MkdirAll_inv in Hc as (Hs & Hfr & Hd & _);
          eexists _, _; (split; [exact (step_trans _ _ _ _ _ _ _ Hw2 Hs)|]);
          (split; [stage_events|]); rewrite Hfs in Hfr, Hd; split; auto.
      * inversion Hk; subst. eexists _, _. split; [exact Hw0|].
        split; [stage_events|]. split; auto.
  - intros [(a & Hc & ->)|(e & Hc & ->)]%orelse_inv;
      apply MkdirAll_inv in Hc as (Hs & Hfr & Hd & _);
      eexists _, _; (split; [exact Hs|]); (split; [stage_events|]); split; auto.
Qed.

Lemma SetupTmpFiles_unfold config profile :
  Pipeline.SetupTmpFiles config profile =
  (Logger Debug "Cleaning .regolith/tmp" ;;
   os.RemoveAll ".regolith/tmp"
     orelse (λ err, WrapError err
       ("Unable to clean temporary directory: " +:+ q ".regolith/tmp" +:+ ".")) ;;
   os.MkdirAll ".regolith/tmp"
     orelse (λ err, WrapError err
       ("Unable to prepare temporary directory: " +:+ q "./regolith/tmp" +:+ ".")) ;;
   Logger Debug "Copying project files to .regolith/tmp" ;;
   stage_roles config [RP; BP; data] (Logger Debug "Setup done in " ;; ret tt)).
Proof. reflexivity. Qed.

Lemma role_eqb_eq a b : role_eqb a b = true ↔ a = b.
Proof. destruct a, b; cbn; split; congruence. Qed.

Lemma role_failure_inj a b : role_failure a = role_failure b → a = b.
Proof. destruct a, b; cbn; congruence. Qed.

Lemma stage_role_inv config ρ w r w' :
  stage_role config ρ w = (r, w') →
  ∃ r0, Pipeline.setup_tmp_directory (role_path config ρ) (short_name ρ)
          (descriptive_name ρ) w = (r0, w') ∧
        r = match r0 with
            | Ok a => Ok a
            | Err e => Err (WrapError e (role_failure ρ))
            end.
Proof.
  unfold stage_role. intros [(a & H & ->)|(e & H & ->)]%orelse_inv; eauto.
Qed.

(** Keys of one role's workspace subdirectory are out of reach of the step
    of another role, and so are the paths outside [.regolith] and the
    directories [.regolith] and [.regolith/tmp]. *)
Lemma dirs_of_workspace ρ :
  os.dirs_of (workspace_dir ρ) = [".regolith"; ".regolith/tmp"; workspace_dir ρ].
Proof. by destruct ρ. Qed.

Lemma slot_apart ρ ρ' k :
  ρ ≠ ρ' → String.prefix (workspace_dir ρ) k = true →
  (k ∉ os.dirs_of (workspace_dir ρ')) ∧ String.prefix (workspace_dir ρ') k = false.
Proof.
  intros Hne Hk. split.
  - rewrite dirs_of_workspace. intros Hin%list_elem_of_In.
    cbn in Hin. destruct Hin as [<-|[<-|[<-|[]]]]; destruct ρ, ρ'; done.
  - destruct (String.prefix (workspace_dir ρ') k) eqn:E; [|done].
    destruct (prefix_comparable _ _ _ Hk E) as [H|H]; destruct ρ, ρ'; done.
Qed.

Lemma outside_apart ρ' k :
  outside k →
  (k ∉ os.dirs_of (workspace_dir ρ')) ∧ String.prefix (workspace_dir ρ') k = false.
Proof.
  unfold outside. intros Hk. split.
  - rewrite dirs_of_workspace. intros Hin%list_elem_of_In.
    cbn in Hin. destruct Hin as [<-|[<-|[<-|[]]]]; done.
  - change (workspace_dir ρ') with (".regolith" +:+ ("/tmp/" +:+ short_name ρ')).
    by apply prefix_trans_app.
Qed.

Lemma stage_role_frame config ρ' w r w' :
  stage_role config ρ' w = (r, w') →
  ∃ t l, step w w' t l ∧ Forall stage_event t ∧
    (∀ k, (k ∉ os.dirs_of (workspace_dir ρ')) →
          String.prefix (workspace_dir ρ') k = false →
          fs (sys w') !! k = fs (sys w) !! k) ∧
    (∀ k, String.prefix (workspace_dir ρ') k = false →
          fs (sys w) !! k = Some Dir → fs (sys w') !! k = Some Dir).
Proof.
  intros (r0 & H & _)%stage_role_inv. by apply setup_frame in H.
Qed.

Lemma done_inv w r w' :
  (Logger Debug "Setup done in " ;; ret tt) w = (r, w') →
  r = Ok tt ∧ fs (sys w') = fs (sys w) ∧ step w w' [] [(Debug, "Setup done in ")].
Proof. intros H. inversion H; subst. repeat split; cbn; by rewrite ?app_nil_r. Qed.

Ltac stage_calls_head :=
  split; [stage_events | eexists _, _; reflexivity].

Lemma stage_calls_app ts t :
  stage_calls ts → Forall stage_event t → stage_calls (ts ++ t).
Proof.
  intros [Hall (ok & ts' & ->)] Ht. split; [by apply Forall_app|].
  by eexists _, _.
Qed.

(** [SetupTmpFiles] up to the three role steps: it has failed in cleaning
    or in preparing the workspace, or the workspace is an empty directory
    and the role steps decide the result. *)
Lemma SetupTmpFiles_inv config profile w r w' :
  Pipeline.SetupTmpFiles config profile w = (r, w') →
  (∃ e t l, (r = Err (WrapError e clean_failure) ∨ r = Err (WrapError e prepare_failure)) ∧
            step w w' t l ∧ stage_calls t) ∨
  (∃ w1 t l, step w w1 t l ∧ stage_calls t ∧
     (∀ k, String.prefix ".regolith/tmp/" k = true → fs (sys w1) !! k = None) ∧
     fs (sys w1) !! ".regolith" = Some Dir ∧
     fs (sys w1) !! ".regolith/tmp" = Some Dir ∧
     (∀ k, outside k → fs (sys w1) !! k = fs (sys w) !! k) ∧
     stage_roles config [RP; BP; data] (Logger Debug "Setup done in " ;; ret tt) w1
     = (r, w')).
Proof.
  rewrite SetupTmpFiles_unfold.
  intros [(e & Hl & _)|([] & w0 & Hl & H)]%bind_inv.
  { apply Logger_inv in Hl as (? & _). done. }
  apply Logger_inv in Hl as (_ & Hfs0 & Hs0).
  apply bind_inv in H as [(e & Hc & ->)|([] & wa & Hc & H)].
  { apply orelse_inv in Hc as [(? & _ & ?)|(e0 & Hc & [= ->])]; [done|].
    apply RemoveAll_inv in Hc as (Hs & _).
    left. eexists _, _, _. split; [by left|].
    split; [exact (step_trans _ _ _ _ _ _ _ Hs0 Hs) | stage_calls_head]. }
  apply orelse_inv in Hc as [([] & Hc & _)|(? & _ & ?)]; [|done].
  apply RemoveAll_inv in Hc as (Hsa & Hfra & _ & Hgone & _).
  specialize (Hgone eq_refl).
  pose proof (step_trans _ _ _ _ _ _ _ Hs0 Hsa) as Hwa.
  apply bind_inv in H as [(e & Hc & ->)|([] & wb & Hc & H)].
  { apply orelse_inv in Hc as [(? & _ & ?)|(e0 & Hc & [= ->])]; [done|].
    apply MkdirAll_inv in Hc as (Hs & _).
    left. eexists _, _, _. split; [by right|].
    split; [exact (step_trans _ _ _ _ _ _ _ Hwa Hs) | stage_calls_head]. }
  apply orelse_inv in Hc as [([] & Hc & _)|(? & _ & ?)]; [|done].
  apply MkdirAll_inv in Hc as (Hsb & Hfrb & _ & Hdirs & _).
  specialize (Hdirs eq_refl).
  pose proof (step_trans _ _ _ _ _ _ _ Hwa Hsb) as Hwb.
  apply bind_inv in H as [(e & Hl & _)|([] & w1 & Hl & H)].
  { apply Logger_inv in Hl as (? & _). done. }
  apply Logger_inv in Hl as (_ & Hfs1 & Hs1).
  right. exists w1. eexists _, _.
  split; [exact (step_trans _ _ _ _ _ _ _ Hwb Hs1)|].
  split; [stage_calls_head|].
  assert (Hnot : ∀ k, k ∈ os.dirs_of ".regolith/tmp" → k = ".regolith" ∨ k = ".regolith/tmp").
  { intros k Hin%list_elem_of_In. vm_compute in Hin.
    destruct Hin as [<-|[<-|[]]]; auto. }
  rewrite Hfs1. split; [|split; [|split; [|split; [|exact H]]]].
  - intros k Hk. rewrite Hfrb.
    + apply Hgone. apply orb_true_iff. right. exact Hk.
    + intros [->| ->]%Hnot; vm_compute in Hk; done.
  - apply Hdirs. apply list_elem_of_In. vm_compute. auto.
  - apply Hdirs. apply list_elem_of_In. vm_compute. auto.
  - intros k Hk. rewrite Hfrb.
    + rewrite Hfra, Hfs0; [done|].
      destruct (os.under ".regolith/tmp" k) eqn:E; [|done].
      apply under_prefix in E.
      change ".regolith/tmp" with (".regolith" +:+ "/tmp") in E.
      apply prefix_app_l in E. unfold outside in Hk. congruence.
    + intros [->| ->]%Hnot; vm_compute in Hk; done.
Qed.

Lemma stage_roles_trace config ρs k :
  (∀ w r w', k w = (r, w') → ∃ l, step w w' [] l) →
  ∀ w r w', stage_roles config ρs k w = (r, w') →
  ∃ t l, step w w' t l ∧ Forall stage_event t.
Proof.
  intros Hk. induction ρs as [|ρ' ρs IH]; intros w r w' H; cbn [stage_roles] in H.
  - apply Hk in H as (l & H). exists [], l. split; [done | constructor].
  - apply bind_inv in H as [(e & H & ->)|([] & w1 & H & Hrest)].
    + apply stage_role_frame in H as (t & l & Hs & Ht & _). eauto.
    + apply stage_role_frame in H as (t & l & Hs & Ht & _).
      apply IH in Hrest as (t2 & l2 & Hs2 & Ht2).
      eexists _, _. split; [exact (step_trans _ _ _ _ _ _ _ Hs Hs2)|].
      by apply Forall_stage_app.
Qed.

(** Staging issues system calls only, none of them the removal of the
    transient data directory. *)
Lemma SetupTmpFiles_trace config profile w r w' :
  Pipeline.SetupTmpFiles config profile w = (r, w') →
  ∃ t l, step w w' t l ∧ stage_calls t.
Proof.
  intros [(e & t & l & _ & Hs & Ht)|(w1 & t & l & Hs & Ht & _ & _ & _ & _ & H)]%SetupTmpFiles_inv.
  - eauto.
  - apply stage_roles_trace in H as (t2 & l2 & Hs2 & Ht2).
    + eexists _, _. split; [exact (step_trans _ _ _ _ _ _ _ Hs Hs2)|].
      by apply stage_calls_app.
    + intros w0 r0 w0' (_ & _ & H0)%done_inv. eauto.
Qed.


(** The role steps when the path of [ρ] is a regular file. *)
Lemma stage_roles_file (config : Config) ρ ρs k c :
  role_path config ρ ≠ "" → outside (role_path config ρ) →
  ∀ w r w',
    fault (sys w) (SysStat (role_path config ρ)) = None →
    fs (sys w) !! role_path config ρ = Some (File c) →
    ρ ∈ ρs →
    stage_roles config ρs k w = (r, w') →
    ∃ cause, r = Err cause.
Proof.
  intros Hp Hout. induction ρs as [|ρ' ρs IH]; intros w r w' Hf Hc Hin H;
    cbn [stage_roles] in H.
  - by apply elem_of_nil in Hin.
  - apply bind_inv in H as [(e' & H & ->)|([] & w1 & H & Hrest)]; [eauto|].
    destruct (role_eqb ρ' ρ) eqn:E.
    + apply role_eqb_eq in E as ->.
      apply stage_role_inv in H as (r0 & H & Hr).
      rewrite (setup_file _ _ _ c) in H by done. inversion H; subst. done.
    + apply elem_of_cons in Hin as [->|Hin].
      { by rewrite (proj2 (role_eqb_eq ρ' ρ')) in E. }
      apply stage_role_frame in H as (t & l & Hs & _ & Hfr & _).
      destruct (outside_apart ρ' _ Hout).
      eapply IH; [| |done|exact Hrest].
      * by rewrite (step_fault _ _ _ _ Hs).
      * by rewrite Hfr.
Qed.

(** Once the placeholder of [ρ] is in place, the steps of the other roles
    leave it as it is. *)
Lemma stage_roles_keep (config : Config) ρ ρs k entry :
  (∀ w r w', k w = (r, w') → r = Ok tt ∧ fs (sys w') = fs (sys w) ∧ ∃ l, step w w' [] l) →
  ∀ w r w',
    ρ ∉ ρs → entry ∈ log w →
    fs (sys w) !! workspace_dir ρ = Some Dir →
    (∀ k, String.prefix (workspace_dir ρ +:+ "/") k = true → fs (sys w) !! k = None) →
    stage_roles config ρs k w = (r, w') →
    (∀ cause, r ≠ Err (WrapError cause (role_failure ρ))) ∧
    (r = Ok tt →
       entry ∈ log w' ∧ fs (sys w') !! workspace_dir ρ = Some Dir ∧
       ∀ k, String.prefix (workspace_dir ρ +:+ "/") k = true → fs (sys w') !! k = None).
Proof.
  intros Hk. induction ρs as [|ρ' ρs IH]; intros w r w' Hnin Hlog Hdir Hempty H;
    cbn [stage_roles] in H.
  - apply Hk in H as (-> & Hfs & l & Hs). split; [done|]. intros _.
    rewrite Hfs, (step_log _ _ _ _ Hs). split; [|done].
    apply elem_of_app. by left.
  - apply not_elem_of_cons in Hnin as [Hne Hnin].
    apply bind_inv in H as [(e' & H & ->)|([] & w1 & H & Hrest)].
    + apply stage_role_inv in H as (r0 & H & Hr). split; [|done].
      intros cause Heq. destruct r0; [done|].
      inversion Hr; subst. inversion Heq; subst.
      by apply role_failure_inj in H2.
    + apply stage_role_frame in H as (t & l & Hs & _ & Hfr & Hd).
      apply IH in Hrest; [done | done | | |].
      * rewrite (step_log _ _ _ _ Hs). apply elem_of_app. by left.
      * apply Hd; [|done].
        by destruct (slot_apart ρ ρ' (workspace_dir ρ) Hne (prefix_refl _)).
      * intros k0 Hk0. pose proof Hk0 as Hk1. apply prefix_app_l in Hk1.
        destruct (slot_apart ρ ρ' k0 Hne Hk1). rewrite Hfr; auto.
Qed.

(** What is missing outside the cache stays missing while the file tree
    outside the cache stays as it is. *)
Lemma missing_frame (s s' : Sys) (p : string) :
  outside p → (∀ k, outside k → fs s' !! k = fs s !! k) → missing s p → missing s' p.
Proof.
  intros Hp Hfr [Hnone Habove]. split; [by rewrite Hfr|].
  intros k Hk. unfold os.is_file_at. rewrite Hfr by by eapply dirs_of_outside.
  by apply Habove.
Qed.

(** The role steps when the path of [ρ] does not exist. *)
Lemma stage_roles_absent (config : Config) ρ ρs k :
  (∀ w r w', k w = (r, w') → r = Ok tt ∧ fs (sys w') = fs (sys w) ∧ ∃ l, step w w' [] l) →
  role_path config ρ ≠ "" → outside (role_path config ρ) →
  ∀ w r w',
    NoDup ρs → ρ ∈ ρs →
    fault (sys w) (SysStat (role_path config ρ)) = None →
    missing (sys w) (role_path config ρ) →
    fs (sys w) !! ".regolith" = Some Dir →
    fs (sys w) !! ".regolith/tmp" = Some Dir →
    (∀ k, String.prefix (workspace_dir ρ) k = true → fs (sys w) !! k = None) →
    stage_roles config ρs k w = (r, w') →
    (fault (sys w) (SysMkdirAll (workspace_dir ρ)) = None →
     ∀ cause, r ≠ Err (WrapError cause (role_failure ρ))) ∧
    (r = Ok tt →
       (Warn, descriptive_name ρ +:+ " " +:+ q (role_path config ρ) +:+ " does not exist")
         ∈ log w' ∧
       fs (sys w') !! workspace_dir ρ = Some Dir ∧
       ∀ k, String.prefix (workspace_dir ρ +:+ "/") k = true → fs (sys w') !! k = None).
Proof.
  intros Hk Hp Hout.
  induction ρs as [|ρ' ρs IH]; intros w r w' Hnd Hin Hf Hnone Hd1 Hd2 Hfree H;
    cbn [stage_roles] in H.
  - by apply elem_of_nil in Hin.
  - apply NoDup_cons in Hnd as [Hnin Hnd].
    destruct (role_eqb ρ' ρ) eqn:E.
    + apply role_eqb_eq in E as ->.
      assert (Hfiles : ∀ k0, k0 ∈ os.dirs_of (".regolith/tmp/" +:+ short_name ρ) →
                os.is_file_at (fs (sys w)) k0 = false).
      { intros k0 Hk0. change (".regolith/tmp/" +:+ short_name ρ) with (workspace_dir ρ) in Hk0.
        rewrite dirs_of_workspace in Hk0. apply list_elem_of_In in Hk0.
        unfold os.is_file_at. cbn in Hk0. destruct Hk0 as [<-|[<-|[<-|[]]]].
        - by rewrite Hd1.
        - by rewrite Hd2.
        - by rewrite (Hfree _ (prefix_refl _)). }
      apply bind_inv in H as [(e' & H & ->)|([] & w1 & H & Hrest)].
      * apply stage_role_inv in H as (r0 & H & Hr).
        apply setup_absent in H as (_ & _ & Hok); [|done..].
        split; [|done]. intros Hm cause _.
        specialize (Hok Hm Hfiles). by subst.
      * apply stage_role_inv in H as (r0 & H & Hr).
        pose proof H as H'. apply setup_frame in H' as (t & l & Hs & _).
        pose proof H as H''. unfold Pipeline.setup_tmp_directory in H''.
        apply setup_absent in H as (Hw & Hdirs & _); [|done..].
        destruct r0 as [[]|]; [|done]. specialize (Hdirs eq_refl).
        assert (fs (sys w1) !! workspace_dir ρ = Some Dir) as Hdir.
        { apply Hdirs. change (".regolith/tmp/" +:+ short_name ρ) with (workspace_dir ρ).
          rewrite dirs_of_workspace. apply list_elem_of_In. cbn. auto. }
        assert (∀ k0, String.prefix (workspace_dir ρ +:+ "/") k0 = true →
                      fs (sys w1) !! k0 = None) as Hempty.
        { intros k0 Hk0.
          destruct (fs (sys w1) !! k0) as [n|] eqn:En; [|done]. exfalso.
          revert H''. rewrite (proj2 (String.eqb_neq _ _) Hp). cbn [negb].
          unfold bind at 1. unfold attempt, os.Stat, os.failing, traced.
          rewrite Hf, (proj1 Hnone), (no_file_among _ _ (proj2 Hnone)).
          cbn [IsNotExist is_ok]. unfold bind, Logger.
          intros [([] & Hm & _)|(? & _ & ?)]%orelse_inv; [|done].
          apply MkdirAll_inv in Hm as (_ & Hfr & _).
          rewrite Hfr in En.
          - cbn in En. rewrite Hfree in En; [done|]. by apply prefix_app_l in Hk0.
          - change (".regolith/tmp/" +:+ short_name ρ) with (workspace_dir ρ).
            rewrite dirs_of_workspace. intros Hin'%list_elem_of_In.
            cbn in Hin'. destruct Hin' as [<-|[<-|[<-|[]]]]; destruct ρ; done. }
        eapply stage_roles_keep in Hrest as (Hne & Hkeep); [|exact Hk|done|exact Hw|done..].
        split; [intros _; exact Hne | exact Hkeep].
    + apply elem_of_cons in Hin as [->|Hin].
      { by rewrite (proj2 (role_eqb_eq ρ' ρ')) in E. }
      assert (ρ ≠ ρ') as Hne.
      { intros ->. by rewrite (proj2 (role_eqb_eq ρ' ρ')) in E. }
      apply bind_inv in H as [(e' & H & ->)|([] & w1 & H & Hrest)].
      * apply stage_role_inv in H as (r0 & H & Hr). split; [|done].
        intros _ cause Heq. destruct r0; [done|].
        inversion Hr; subst. inversion Heq; subst.
        apply role_failure_inj in H2. congruence.
      * apply stage_role_frame in H as (t & l & Hs & _ & Hfr & Hd).
        destruct (outside_apart ρ' _ Hout).
        rewrite <- (step_fault _ _ _ _ Hs).
        apply IH; [done|done| | | | | |exact Hrest].
        -- by rewrite (step_fault _ _ _ _ Hs).
        -- apply (missing_frame (sys w)); [done| |done].
           intros k0 Hk0. destruct (outside_apart ρ' _ Hk0). by apply Hfr.
        -- apply Hd; [by destruct ρ'|done].
        -- apply Hd; [by destruct ρ'|done].
        -- intros k0 Hk0. destruct (slot_apart ρ ρ' k0 Hne Hk0). rewrite Hfr; auto.
Qed.

(** ** The Check and Run loops *)

Lemma grow_refl w : grow w w [] [].
Proof. split; by rewrite ?app_nil_r. Qed.

Lemma grow_trans w1 w2 w3 t1 t2 l1 l2 :
  grow w1 w2 t1 l1 → grow w2 w3 t2 l2 → grow w1 w3 (t1 ++ t2) (l1 ++ l2).
Proof.
  intros [] []. split; try congruence.
  - rewrite grow_trace1, grow_trace0. by rewrite app_assoc.
  - rewrite grow_log1, grow_log0. by rewrite app_assoc.
Qed.

Lemma step_grow w w' t l : step w w' t l → grow w w' t l.
Proof. intros []. by split. Qed.

Lemma on_sys_traced_inv {A} (ev : bool → event) (f : Sys → Res A * Sys) w r w' :
  traced ev (on_sys f) w = (r, w') →
  f (sys w) = (r, sys w') ∧ fs (sys w') = fs (f (sys w)).2 ∧
  grow w w' [ev (is_ok r)] [].
Proof.
  intros (w1 & H & ->)%traced_inv. unfold on_sys in H.
  destruct (f (sys w)) as [r0 s] eqn:E. inversion H; subst; clear H.
  repeat split; cbn; by rewrite ?app_nil_r.
Qed.

Lemma Logger_grow lv msg w r w' :
  Logger lv msg w = (r, w') → r = Ok tt ∧ sys w' = sys w ∧ grow w w' [] [(lv, msg)].
Proof.
  unfold Logger. intros H; inversion H; subst. repeat split; cbn; by rewrite ?app_nil_r.
Qed.

Lemma check_loop_inv (body_ctx : RunContext) l :
  ∀ i w r w',
    for_range i l (λ i f,
      invoke (EvCheck i (GetId f)) (runner_Check f body_ctx)
        orelse (λ err, WrapError err "Filter check failed.")) w = (r, w') →
    ∃ t, grow w w' t [] ∧ check_outcome i l r t.
Proof.
  induction l as [|f l IH]; intros i w r w' H; cbn [for_range] in H.
  - inversion H; subst. exists []. split; [apply grow_refl | constructor].
  - apply bind_inv in H as [(e & H & ->)|([] & w1 & H & Hrest)].
    + apply orelse_inv in H as [(? & _ & ?)|(e0 & H & [= ->])]; [done|].
      apply on_sys_traced_inv in H as (_ & _ & Hg).
      eexists. split; [exact Hg|].
      replace i with (i + length (@nil FilterRunner)) at 2 by (cbn; lia).
      by apply (check_failed i (f :: l) [] f l).
    + apply orelse_inv in H as [([] & H & _)|(? & _ & ?)]; [|done].
      apply on_sys_traced_inv in H as (_ & _ & Hg).
      apply IH in Hrest as (t & Hg2 & Hout).
      eexists. split; [exact (grow_trans _ _ _ _ _ _ _ Hg Hg2)|].
      inversion Hout; subst.
      * apply checked_all.
      * replace (S i + length pre) with (i + length (f :: pre)) by (cbn; lia).
        by apply (check_failed i (f :: pre ++ f0 :: post) (f :: pre) f0 post).
Qed.

Lemma check_loop_fails (body_ctx : RunContext) l f :
  f ∈ l → (∀ s, is_ok (runner_Check f body_ctx s).1 = false) →
  ∀ i w r w',
    for_range i l (λ i f,
      invoke (EvCheck i (GetId f)) (runner_Check f body_ctx)
        orelse (λ err, WrapError err "Filter check failed.")) w = (r, w') →
    is_ok r = false.
Proof.
  intros Hin Hf. induction l as [|f' l IH]; intros i w r w' H; cbn [for_range] in H.
  - by apply elem_of_nil in Hin.
  - apply bind_inv in H as [(e & H & ->)|([] & w1 & H & Hrest)]; [done|].
    apply elem_of_cons in Hin as [<-|Hin]; [|by eapply IH].
    apply orelse_inv in H as [([] & H & _)|(? & _ & ?)]; [|done].
    apply on_sys_traced_inv in H as (H & _).
    specialize (Hf (sys w)). by rewrite H in Hf.
Qed.

Lemma run_loop_inv (cwd profileName : string) (config : Config)
    (parentContext : option RunContext) l :
  ∀ i w r w',
    for_range i l (λ i filter,
      let path := cwd in
      if IsDisabled filter then
        Logger Info ("Filter " +:+ q (GetId filter) +:+ " is disabled, skipping.")
      else
        (if negb (String.eqb (GetId filter) "")
         then Logger Info ("Running filter " +:+ GetId filter)
         else ret tt) ;;
        r <- attempt (invoke (EvRun i (GetId filter))
               (runner_Run filter (mkRunContext path config parentContext profileName ""))) ;;
        Logger Debug "Executed in " ;;
        match r with
        | Err err => throw (WrapError err "Failed to run filter.")
        | Ok _ => ret tt
        end) w = (r, w') →
    ∃ t lg, grow w w' t lg ∧ run_outcome i l r t.
Proof.
  induction l as [|f l IH]; intros i w r w' H; cbn [for_range] in H.
  - inversion H; subst. exists [], []. split; [apply grow_refl | constructor].
  - apply bind_inv in H as [(e & H & ->)|([] & w1 & H & Hrest)].
    + cbn zeta in H. destruct (IsDisabled f) eqn:Hdis.
      { apply Logger_grow in H as (? & _). done. }
      apply bind_inv in H as [(e0 & H & _)|([] & w2 & Hl & H)].
      { destruct (negb _); [apply Logger_grow in H as (? & _)|]; done. }
      assert (∃ l0, grow w w2 [] l0) as (l0 & Hg0).
      { destruct (negb _); [apply Logger_grow in Hl as (_ & _ & ?); eauto|].
        inversion Hl; subst. eexists. apply grow_refl. }
      apply bind_inv in H as [(e0 & H & _)|(r0 & w3 & Ha & H)].
      { apply attempt_inv in H as (? & _ & ?). done. }
      apply attempt_inv in Ha as (r1 & Ha & [= ->]).
      apply on_sys_traced_inv in Ha as (_ & _ & Hg1).
      apply bind_inv in H as [(e0 & H & _)|([] & w4 & Hl2 & H)].
      { apply Logger_grow in H as (? & _). done. }
      apply Logger_grow in Hl2 as (_ & _ & Hg2).
      destruct r1 as [[]|err]; inversion H; subst.
      eexists _, _. split.
      * exact (grow_trans _ _ _ _ _ _ _ (grow_trans _ _ _ _ _ _ _ Hg0 Hg1) Hg2).
      * cbn [app].
        replace i with (i + length (@nil FilterRunner)) at 2 by (cbn; lia).
        by apply (run_failed i (f :: l) [] f l).
    + assert (∃ t1 l1, grow w w1 t1 l1 ∧
                t1 = if IsDisabled f then [] else [EvRun i (GetId f) true])
        as (t1 & l1 & Hg & Ht1).
      { cbn zeta in H. destruct (IsDisabled f) eqn:Hdis.
        { apply Logger_grow in H as (_ & _ & ?). eauto. }
        apply bind_inv in H as [(e0 & H & ?)|([] & w2 & Hl & H)]; [done|].
        assert (∃ l0, grow w w2 [] l0) as (l0 & Hg0).
        { destruct (negb _); [apply Logger_grow in Hl as (_ & _ & ?); eauto|].
          inversion Hl; subst. eexists. apply grow_refl. }
        apply bind_inv in H as [(e0 & H & ?)|(r0 & w3 & Ha & H)]; [done|].
        apply attempt_inv in Ha as (r1 & Ha & [= ->]).
        apply on_sys_traced_inv in Ha as (_ & _ & Hg1).
        apply bind_inv in H as [(e0 & H & ?)|([] & w4 & Hl2 & H)]; [done|].
        apply Logger_grow in Hl2 as (_ & _ & Hg2).
        destruct r1 as [[]|err]; inversion H; subst.
        eexists _, _. split; [|reflexivity].
        exact (grow_trans _ _ _ _ _ _ _ (grow_trans _ _ _ _ _ _ _ Hg0 Hg1) Hg2). }
      apply IH in Hrest as (t2 & l2 & Hg2 & Hout).
      eexists _, _. split; [exact (grow_trans _ _ _ _ _ _ _ Hg Hg2)|].
      subst t1. inversion Hout; subst.
      * apply ran_all.
      * replace (S i + length pre) with (i + length (f :: pre)) by (cbn; lia).
        rewrite app_assoc.
        by apply (run_failed i (f :: pre ++ f0 :: post) (f :: pre) f0 post).
Qed.

(** ** The pipeline as a whole *)

Ltac grow_from H :=
  let Ht := fresh in let Hl := fresh in let Hk := fresh in
  destruct H as [Ht Hl Hk];
  split;
  [ rewrite Ht; cbn [is_ok]; rewrite ?app_nil_r, <- ?app_assoc; reflexivity
  | exact Hl
  | exact Hk ].

Section RunProfile_facts.

Variable cwd : string.
Variable LoadConfigAsMap : Sys → Res loc * Sys.
Variable ConfigFromObject : loc → Sys → Res Config * Sys.
Variable ExportProject : Profile → string → string → Sys → Res unit * Sys.

Lemma RunProfile_loaded profileName w r w' cj s1 config s2 :
  LoadConfigAsMap (sys w) = (Ok cj, s1) →
  ConfigFromObject cj s1 = (Ok config, s2) →
  Pipeline.RunProfile cwd LoadConfigAsMap ConfigFromObject ExportProject profileName w
  = (r, w') →
  ∃ t lg,
    grow w w' ([EvCall "LoadConfigAsMap" true; EvCall "ConfigFromObject" true] ++ t) lg ∧
    pipeline_outcome (Filters (selected config profileName)) r t ∧
    (r = Ok tt → ∀ k, os.under ".regolith/tmp/data" k = true → fs (sys w') !! k = None).
Proof.
  intros HL HC. unfold Pipeline.RunProfile, call.
  intros [(e & H & _)|(cj' & w1 & H & Hrest)]%bind_inv.
  { apply orelse_inv in H as [(? & _ & ?)|(e0 & H & _)]; [done|].
    apply on_sys_traced_inv in H as (H & _). congruence. }
  apply orelse_inv in H as [(? & H & [= <-])|(? & _ & ?)]; [|done].
  apply on_sys_traced_inv in H as (H & _ & Hg1).
  rewrite HL in H. injection H as <- Hs1.
  apply bind_inv in Hrest as [(e & H & _)|(config' & w2 & H & Hrest)].
  { apply orelse_inv in H as [(? & _ & ?)|(e0 & H & _)]; [done|].
    apply on_sys_traced_inv in H as (H & _). congruence. }
  apply orelse_inv in H as [(? & H & [= <-])|(? & _ & ?)]; [|done].
  apply on_sys_traced_inv in H as (H & _ & Hg2).
  rewrite <- Hs1, HC in H. injection H as <- _.
  pose proof (grow_trans _ _ _ _ _ _ _ Hg1 Hg2) as Hg12.
  fold (selected config profileName) in Hrest.
  set (l := Filters (selected config profileName)) in *.
  apply bind_inv in Hrest as [(e & H & ->)|([] & w3 & H & Hrest)].
  { unfold Pipeline.CheckProfileImpl in H. apply check_loop_inv in H as (t & Hg & Hout).
    exists t. eexists. split; [grow_from (grow_trans _ _ _ _ _ _ _ Hg12 Hg)|].
    split; [|done]. by apply stopped_in_check. }
  unfold Pipeline.CheckProfileImpl in H. apply check_loop_inv in H as (tc & Hgc & Hout).
  inversion Hout as [Htc|]; subst tc. clear Hout.
  pose proof (grow_trans _ _ _ _ _ _ _ Hg12 Hgc) as Hg3. clear Hg12 Hgc Hg1 Hg2.
  apply bind_inv in Hrest as [(e & H & ->)|([] & w4 & H & Hrest)].
  { apply orelse_inv in H as [(? & _ & ?)|(e0 & H & [= ->])]; [done|].
    apply SetupTmpFiles_trace in H as (ts & ls & Hs%step_grow & Hts).
    exists (checks_ok 0 l ++ ts). eexists.
    split; [grow_from (grow_trans _ _ _ _ _ _ _ Hg3 Hs)|].
    split; [|done]. by apply stopped_in_stage. }
  apply orelse_inv in H as [([] & H & _)|(? & _ & ?)]; [|done].
  apply SetupTmpFiles_trace in H as (ts & ls & Hs%step_grow & Hts).
  pose proof (grow_trans _ _ _ _ _ _ _ Hg3 Hs) as Hg4. clear Hg3 Hs.
  apply bind_inv in Hrest as [(e & H & ->)|([] & w5 & H & Hrest)].
  { unfold Pipeline.RunProfileImpl in H. apply run_loop_inv in H as (t & lr & Hg & Hout).
    exists (checks_ok 0 l ++ ts ++ t). eexists.
    split; [grow_from (grow_trans _ _ _ _ _ _ _ Hg4 Hg)|].
    split; [|done]. by apply stopped_in_run. }
  unfold Pipeline.RunProfileImpl in H. apply run_loop_inv in H as (tr & lr & Hgr & Hout).
  inversion Hout as [Htr|]; subst tr. clear Hout.
  pose proof (grow_trans _ _ _ _ _ _ _ Hg4 Hgr) as Hg5. clear Hg4 Hgr.
  apply bind_inv in Hrest as [(e & H & _)|([] & w6 & H & Hrest)].
  { apply Logger_grow in H as (? & _). done. }
  apply Logger_grow in H as (_ & _ & Hl6).
  pose proof (grow_trans _ _ _ _ _ _ _ Hg5 Hl6) as Hg6. clear Hg5 Hl6.
  apply bind_inv in Hrest as [(e & H & ->)|([] & w7 & H & Hrest)].
  { apply orelse_inv in H as [(? & _ & ?)|(e0 & H & [= ->])]; [done|].
    apply on_sys_traced_inv in H as (_ & _ & Hg).
    exists (checks_ok 0 l ++ ts ++ runs_ok 0 l ++ [EvCall "ExportProject" false]). eexists.
    split; [grow_from (grow_trans _ _ _ _ _ _ _ Hg6 Hg)|].
    split; [|done]. by apply stopped_in_export. }
  apply orelse_inv in H as [([] & H & _)|(? & _ & ?)]; [|done].
  apply on_sys_traced_inv in H as (_ & _ & Hg).
  pose proof (grow_trans _ _ _ _ _ _ _ Hg6 Hg) as Hg7. clear Hg6 Hg.
  apply bind_inv in Hrest as [(e & H & _)|([] & w8 & H & Hrest)].
  { apply Logger_grow in H as (? & _). done. }
  apply Logger_grow in H as (_ & _ & Hl8).
  pose proof (grow_trans _ _ _ _ _ _ _ Hg7 Hl8) as Hg8. clear Hg7 Hl8.
  apply bind_inv in Hrest as [(e & H & ->)|([] & w9 & H & Hrest)].
  { apply orelse_inv in H as [(? & _ & ?)|(e0 & H & [= ->])]; [done|].
    apply RemoveAll_inv in H as (Hs%step_grow & _).
    exists (checks_ok 0 l ++ ts ++ runs_ok 0 l
            ++ [EvCall "ExportProject" true;
                EvSys (SysRemoveAll ".regolith/tmp/data") false]). eexists.
    split; [grow_from (grow_trans _ _ _ _ _ _ _ Hg8 Hs)|].
    split; [|done]. by apply stopped_in_cleanup. }
  apply orelse_inv in H as [([] & H & _)|(? & _ & ?)]; [|done].
  apply RemoveAll_inv in H as (Hs%step_grow & _ & _ & Hgone & _).
  inversion Hrest; subst.
  exists (checks_ok 0 l ++ ts ++ runs_ok 0 l
          ++ [EvCall "ExportProject" true;
              EvSys (SysRemoveAll ".regolith/tmp/data") true]). eexists.
  split; [grow_from (grow_trans _ _ _ _ _ _ _ Hg8 Hs)|].
  split; [|auto]. by apply completed.
Qed.

End RunProfile_facts.

(** ** Events of the phases *)

Lemma checks_ok_elem i l e :
  e ∈ checks_ok i l →
  ∃ k f, l !! k = Some f ∧ e = EvCheck (i + k) (GetId f) true.
Proof.
  revert i. induction l as [|f l IH]; intros i H; cbn in H.
  - by apply elem_of_nil in H.
  - apply elem_of_cons in H as [->|H].
    + exists 0, f. split; [done|]. by rewrite Nat.add_0_r.
    + apply IH in H as (k & f' & Hk & ->). exists (S k), f'. split; [done|].
      f_equal. lia.
Qed.

Lemma runs_ok_elem i l e :
  e ∈ runs_ok i l →
  ∃ k f, l !! k = Some f ∧ IsDisabled f = false ∧ e = EvRun (i + k) (GetId f) true.
Proof.
  revert i. induction l as [|f l IH]; intros i H; cbn in H.
  - by apply elem_of_nil in H.
  - apply elem_of_app in H as [H|H].
    + destruct (IsDisabled f) eqn:Hd; [by apply elem_of_nil in H|].
      apply list_elem_of_singleton in H as ->.
      exists 0, f. repeat split; [done|]. by rewrite Nat.add_0_r.
    + apply IH in H as (k & f' & Hk & Hd & ->). exists (S k), f'.
      repeat split; [done..|]. f_equal. lia.
Qed.

(** A list made of segments of one phase each, in increasing order, is in
    phase order. *)
Lemma segment_sorted p (l1 l2 : list event) :
  Forall (λ e, phase e = p) l1 →
  Forall (λ e, (p ≤ phase e)%nat) l2 →
  StronglySorted phase_order l2 →
  StronglySorted phase_order (l1 ++ l2).
Proof.
  intros H1 H2 Hs. apply StronglySorted_app_2; [| |done].
  - intros x1 x2 Hx1 Hx2. unfold phase_order.
    rewrite Forall_forall in H1, H2. rewrite (H1 _ Hx1). by apply H2.
  - induction H1 as [|x l Hx Hl IH]; constructor; [done|].
    apply Forall_forall. intros y Hy. unfold phase_order.
    rewrite Forall_forall in Hl. rewrite Hx, (Hl _ Hy). done.
Qed.

Lemma checks_ok_phase1 i l : Forall (λ e, phase e = 1) (checks_ok i l).
Proof. apply Forall_forall. intros e (k & f & _ & ->)%checks_ok_elem. done. Qed.

Lemma checks_ok_passed i l : Forall (λ e, failed e = false) (checks_ok i l).
Proof. apply Forall_forall. intros e (k & f & _ & ->)%checks_ok_elem. done. Qed.

Lemma runs_ok_phase3 i l : Forall (λ e, phase e = 3) (runs_ok i l).
Proof. apply Forall_forall. intros e (k & f & _ & _ & ->)%runs_ok_elem. done. Qed.

Lemma check_outcome_events i l r t :
  check_outcome i l r t →
  Forall (λ e, phase e = 1) t ∧
  (r = Ok tt → Forall (λ e, failed e = false) t).
Proof.
  intros [|pre f post e ->].
  - split; [apply checks_ok_phase1 | intros _; apply checks_ok_passed].
  - split; [|done]. apply Forall_app. split; [apply checks_ok_phase1|].
    by repeat constructor.
Qed.

Lemma run_outcome_events i l r t :
  run_outcome i l r t →
  Forall (λ e, phase e = 3) t ∧
  (∀ j id ok, EvRun j id ok ∈ t →
     ∃ k f, l !! k = Some f ∧ IsDisabled f = false ∧ j = i + k ∧ id = GetId f).
Proof.
  intros [|pre f post e -> Hd].
  - split; [apply runs_ok_phase3|].
    intros j id ok (k & f & Hk & Hd & Heq)%runs_ok_elem.
    injection Heq as -> -> ->. exists k, f. done.
  - split.
    + apply Forall_app. split; [apply runs_ok_phase3|]. by repeat constructor.
    + intros j id ok [H|H]%elem_of_app.
      * apply runs_ok_elem in H as (k & f' & Hk & Hd' & Heq).
        injection Heq as -> -> ->.
        exists k, f'. repeat split; [|done]. by apply lookup_app_l_Some.
      * apply list_elem_of_singleton in H. injection H as -> -> ->.
        exists (length pre), f. repeat split; [|done].
        by rewrite list_lookup_middle.
Qed.

Ltac mem_split H :=
  repeat first
    [ apply elem_of_app in H as [H|H]
    | apply elem_of_cons in H as [H|H] ].

Ltac mem_absurd H :=
  first
    [ by apply elem_of_nil in H
    | discriminate H
    | by apply checks_ok_elem in H as (? & ? & _ & ?)
    | by apply runs_ok_elem in H as (? & ? & _ & _ & ?)
    | match goal with
      | HF : Forall _ ?seg |- _ =>
          match type of H with
          | _ ∈ seg =>
              let HF' := fresh in
              pose proof HF as HF';
              rewrite Forall_forall in HF'; apply HF' in H; cbn in H; discriminate H
          end
      end ].

Lemma stage_calls_phase ts : stage_calls ts → Forall (λ e, phase e = 2) ts.
Proof. by intros []. Qed.

Lemma tail_sorted_1 ok :
  StronglySorted phase_order [EvCall "ExportProject" ok] ∧
  Forall (λ e, (3 ≤ phase e)%nat) [EvCall "ExportProject" ok].
Proof. split; repeat constructor. Qed.

Lemma tail_sorted_2 ok ok' :
  StronglySorted phase_order
    [EvCall "ExportProject" ok; EvSys (SysRemoveAll ".regolith/tmp/data") ok'] ∧
  Forall (λ e, (3 ≤ phase e)%nat)
    [EvCall "ExportProject" ok; EvSys (SysRemoveAll ".regolith/tmp/data") ok'].
Proof. split; repeat constructor; unfold phase_order; cbn; lia. Qed.

Ltac phase_ge H := eapply Forall_impl; [exact H|]; cbn; intros; lia.

(** The events of a run of the pipeline are in phase order. *)
Lemma pipeline_outcome_sorted l r t :
  pipeline_outcome l r t → StronglySorted phase_order t.
Proof.
  pose proof (checks_ok_phase1 0 l) as Hchk.
  pose proof (runs_ok_phase3 0 l) as Hrun.
  intros [r0 t0 Hc _|e ts Hts|r0 ts t0 Hts Hr _|e ts Hts|e ts Hts|ts Hts].
  - apply check_outcome_events in Hc as [Hc _].
    rewrite <- (app_nil_r t0). eapply segment_sorted; [exact Hc | | ]; constructor.
  - apply stage_calls_phase in Hts.
    eapply segment_sorted; [exact Hchk|phase_ge Hts|].
    rewrite <- (app_nil_r ts). eapply segment_sorted; [exact Hts| |]; constructor.
  - apply stage_calls_phase in Hts. apply run_outcome_events in Hr as [Hr _].
    eapply segment_sorted; [exact Hchk| |].
    + apply Forall_app. split; [phase_ge Hts|phase_ge Hr].
    + eapply segment_sorted; [exact Hts|phase_ge Hr|].
      rewrite <- (app_nil_r t0). eapply segment_sorted; [exact Hr| |]; constructor.
  - apply stage_calls_phase in Hts. destruct (tail_sorted_1 false) as [Hs Hf].
    eapply segment_sorted; [exact Hchk| |].
    + repeat (apply Forall_app; split); [phase_ge Hts|phase_ge Hrun|phase_ge Hf].
    + eapply segment_sorted; [exact Hts| |].
      * apply Forall_app; split; [phase_ge Hrun|phase_ge Hf].
      * eapply segment_sorted; [exact Hrun|exact Hf|exact Hs].
  - apply stage_calls_phase in Hts. destruct (tail_sorted_2 true false) as [Hs Hf].
    eapply segment_sorted; [exact Hchk| |].
    + repeat (apply Forall_app; split); [phase_ge Hts|phase_ge Hrun|phase_ge Hf].
    + eapply segment_sorted; [exact Hts| |].
      * apply Forall_app; split; [phase_ge Hrun|phase_ge Hf].
      * eapply segment_sorted; [exact Hrun|exact Hf|exact Hs].
  - apply stage_calls_phase in Hts. destruct (tail_sorted_2 true true) as [Hs Hf].
    eapply segment_sorted; [exact Hchk| |].
    + repeat (apply Forall_app; split); [phase_ge Hts|phase_ge Hrun|phase_ge Hf].
    + eapply segment_sorted; [exact Hts| |].
      * apply Forall_app; split; [phase_ge Hrun|phase_ge Hf].
      * eapply segment_sorted; [exact Hrun|exact Hf|exact Hs].
Qed.

Ltac outcome_cases H :=
  let Hts := fresh "Hts" in
  destruct H as [? ? Hc Hr0|? ts Hts|? ts ? Hts Hr Hr0|? ts Hts|? ts Hts|ts Hts];
  try (pose proof (stage_calls_phase _ Hts) as Hstage).

(** A failed check is the last event of the run. *)
Lemma pipeline_outcome_check_failed l r t i id :
  pipeline_outcome l r t → EvCheck i id false ∈ t →
  is_ok r = false ∧ Forall (λ e, phase e = 1) t.
Proof.
  intros H Hin. outcome_cases H.
  - split; [done|]. by apply check_outcome_events in Hc as [Hc _].
  - mem_split Hin; mem_absurd Hin.
  - apply run_outcome_events in Hr as [Hr _]. mem_split Hin; mem_absurd Hin.
  - mem_split Hin; mem_absurd Hin.
  - mem_split Hin; mem_absurd Hin.
  - mem_split Hin; mem_absurd Hin.
Qed.

(** After a failed run of a filter nothing is exported. *)
Lemma pipeline_outcome_run_failed l r t i id :
  pipeline_outcome l r t → EvRun i id false ∈ t →
  is_ok r = false ∧ Forall (λ e, (phase e ≤ 3)%nat) t.
Proof.
  pose proof (checks_ok_phase1 0 l) as Hchk.
  intros H Hin. outcome_cases H.
  - apply check_outcome_events in Hc as [Hc _]. mem_split Hin; mem_absurd Hin.
  - mem_split Hin; mem_absurd Hin.
  - split; [done|]. apply run_outcome_events in Hr as [Hr _].
    repeat (apply Forall_app; split); [phase_ge Hchk|phase_ge Hstage|phase_ge Hr].
  - mem_split Hin; mem_absurd Hin.
  - mem_split Hin; mem_absurd Hin.
  - mem_split Hin; mem_absurd Hin.
Qed.

(** Staging, running and exporting begin only when every runner of the
    collection has passed its check. *)
Lemma pipeline_outcome_after_check l r t e :
  pipeline_outcome l r t → e ∈ t → (2 ≤ phase e)%nat →
  ∃ t', t = checks_ok 0 l ++ t'.
Proof.
  intros H Hin Hp. outcome_cases H; eauto.
  apply check_outcome_events in Hc as [Hc _].
  rewrite Forall_forall in Hc. apply Hc in Hin. lia.
Qed.

(** Exporting begins only when the workspace is staged and every runner
    that is not disabled has run. *)
Lemma pipeline_outcome_after_run l r t e :
  pipeline_outcome l r t → e ∈ t → (4 ≤ phase e)%nat →
  ∃ ts t', stage_calls ts ∧ t = checks_ok 0 l ++ ts ++ runs_ok 0 l ++ t'.
Proof.
  pose proof (checks_ok_phase1 0 l) as Hchk.
  pose proof (runs_ok_phase3 0 l) as Hrun.
  intros H Hin Hp. outcome_cases H; eauto.
  - apply check_outcome_events in Hc as [Hc _].
    rewrite Forall_forall in Hc. apply Hc in Hin. lia.
  - exfalso. rewrite Forall_forall in Hchk, Hstage.
    mem_split Hin; [apply Hchk in Hin|apply Hstage in Hin]; lia.
  - exfalso. apply run_outcome_events in Hr as [Hr _].
    rewrite Forall_forall in Hchk, Hstage, Hr.
    mem_split Hin; [apply Hchk in Hin|apply Hstage in Hin|apply Hr in Hin]; lia.
Qed.

(** A successful export is followed by the removal of the transient data
    directory, and a run that returns no error has exported. *)
Lemma pipeline_outcome_export l r t :
  pipeline_outcome l r t →
  (EvCall "ExportProject" true ∈ t →
   ∃ ok, EvSys (SysRemoveAll ".regolith/tmp/data") ok ∈ t ∧ (ok = true ↔ r = Ok tt)) ∧
  (r = Ok tt → EvCall "ExportProject" true ∈ t).
Proof.
  intros H. outcome_cases H.
  - split; [|by intros ->].
    intros Hin. apply check_outcome_events in Hc as [Hc _]. mem_absurd Hin.
  - split; [|done]. intros Hin. mem_split Hin; mem_absurd Hin.
  - split; [|by intros ->]. intros Hin.
    apply run_outcome_events in Hr as [Hr _]. mem_split Hin; mem_absurd Hin.
  - split; [|done]. intros Hin. mem_split Hin; mem_absurd Hin.
  - split; [|done]. intros _. exists false. split; [|done].
    rewrite !elem_of_app. right. right. right. right. left.
  - split.
    + intros _. exists true. split; [|done].
      rewrite !elem_of_app. right. right. right. right. left.
    + intros _. rewrite !elem_of_app. right. right. right. left.
Qed.

(** Every filter that was run is a runner of the collection that is not
    disabled. *)
Lemma pipeline_outcome_runs l r t i id ok :
  pipeline_outcome l r t → EvRun i id ok ∈ t →
  ∃ f, l !! i = Some f ∧ IsDisabled f = false ∧ id = GetId f.
Proof.
  assert (Hruns : EvRun i id ok ∈ runs_ok 0 l →
                  ∃ f, l !! i = Some f ∧ IsDisabled f = false ∧ id = GetId f).
  { intros (k & f & Hk & Hd & Heq)%runs_ok_elem. injection Heq as -> -> ->. eauto. }
  intros H Hin. outcome_cases H.
  - apply check_outcome_events in Hc as [Hc _]. mem_absurd Hin.
  - mem_split Hin; mem_absurd Hin.
  - apply run_outcome_events in Hr as [_ Hr].
    mem_split Hin; try mem_absurd Hin.
    apply Hr in Hin as (k & f & ? & ? & -> & ->). eauto.
  - mem_split Hin; try mem_absurd Hin. auto.
  - mem_split Hin; try mem_absurd Hin. auto.
  - mem_split Hin; try mem_absurd Hin. auto.
Qed.

(** When the Stage phase fails no filter has run and nothing is exported. *)
Lemma pipeline_outcome_stage_failed l t cause :
  pipeline_outcome l (Err (WrapError cause "Unable to setup profile.")) t →
  Forall (λ e, (phase e ≤ 2)%nat) t.
Proof.
  pose proof (checks_ok_phase1 0 l) as Hchk.
  intros H. inversion H as [r0 t0 Hc Hr0|e ts Hts|r0 ts t0 Hts Hr Hr0|e ts Hts|e ts Hts|ts Hts];
    subst.
  - inversion Hc.
  - apply stage_calls_phase in Hts. apply Forall_app; split; [phase_ge Hchk|phase_ge Hts].
  - inversion Hr.
Qed.

Lemma roles_NoDup : NoDup [RP; BP; data].
Proof.
  repeat constructor; intros H%list_elem_of_In; cbn in H; intuition discriminate.
Qed.

Lemma role_in_roles ρ : ρ ∈ [RP; BP; data].
Proof. apply list_elem_of_In. destruct ρ; cbn; auto. Qed.

(** ** Staging that nothing hinders *)

(** The step of a role that nothing hinders returns nil. *)
Lemma stage_role_unhindered (config : Config) ρ w r w' :
  (∀ c, fault (sys w) c = None) →
  stageable config (sys w) ρ →
  (∀ k, k ∈ os.dirs_of (workspace_dir ρ) → os.is_file_at (fs (sys w)) k = false) →
  stage_role config ρ w = (r, w') → r = Ok tt.
Proof.
  intros Hfault Hst Hslot (r0 & H & ->)%stage_role_inv.
  assert (r0 = Ok tt) as ->; [|done].
  destruct (String.eqb_spec (role_path config ρ) "") as [Hp|Hp].
  - unfold Pipeline.setup_tmp_directory in H. rewrite Hp in H. cbn in H.
    apply orelse_inv in H as [([] & _ & ->)|(e & H & _)]; [done|].
    apply MkdirAll_inv in H as (_ & _ & _ & _ & Hok).
    by specialize (Hok (Hfault _) Hslot).
  - destruct Hst as [?|(_ & [Hmiss|Hdir])]; [done| |].
    + apply setup_absent in H as (_ & _ & Hok); auto.
    + unfold Pipeline.setup_tmp_directory in H.
      rewrite (proj2 (String.eqb_neq _ _) Hp) in H. cbn [negb] in H.
      unfold bind at 1 in H. unfold attempt, os.Stat, os.failing, traced in H.
      rewrite Hfault, Hdir in H. cbn [is_ok is_dir] in H.
      apply orelse_inv in H as [([] & _ & ->)|(e & H & _)]; [done|].
      unfold os.Copy, os.failing, traced in H. cbn [sys add_event set_sys] in H.
      rewrite Hfault in H. cbn in H. by rewrite Hdir in H.
Qed.

(** The steps of roles that nothing hinders return nil. *)
Lemma stage_roles_unhindered (config : Config) ρs k :
  (∀ w r w', k w = (r, w') → r = Ok tt) →
  ∀ w r w',
    NoDup ρs →
    (∀ c, fault (sys w) c = None) →
    (∀ ρ, ρ ∈ ρs → stageable config (sys w) ρ) →
    fs (sys w) !! ".regolith" = Some Dir →
    fs (sys w) !! ".regolith/tmp" = Some Dir →
    (∀ ρ, ρ ∈ ρs → fs (sys w) !! workspace_dir ρ = None) →
    stage_roles config ρs k w = (r, w') → r = Ok tt.
Proof.
  intros Hk. induction ρs as [|ρ ρs IH]; intros w r w' Hnd Hfault Hst Hd1 Hd2 Hfree H;
    cbn [stage_roles] in H; [by eapply Hk|].
  apply NoDup_cons in Hnd as [Hnin Hnd].
  assert (Hslot : ∀ k0, k0 ∈ os.dirs_of (workspace_dir ρ) →
                        os.is_file_at (fs (sys w)) k0 = false).
  { intros k0 Hk0. rewrite dirs_of_workspace in Hk0. apply list_elem_of_In in Hk0.
    unfold os.is_file_at. cbn in Hk0. destruct Hk0 as [<-|[<-|[<-|[]]]].
    - by rewrite Hd1.
    - by rewrite Hd2.
    - rewrite (Hfree ρ); [done|left]. }
  apply bind_inv in H as [(e & H & ->)|([] & w1 & H & Hrest)].
  { apply stage_role_unhindered in H; [done|done| |done]. apply Hst. left. }
  apply stage_role_frame in H as (t & l & Hs & _ & Hfr & Hd).
  eapply IH; [done| | | | | |exact Hrest].
  - intros c. by rewrite (step_fault _ _ _ _ Hs).
  - intros ρ' Hin. destruct (Hst ρ') as [?|(Hout & Hcase)]; [by right|by left|].
    right. split; [done|].
    assert (Hsame : ∀ k0, outside k0 → fs (sys w1) !! k0 = fs (sys w) !! k0).
    { intros k0 Hk0. destruct (outside_apart ρ _ Hk0). by apply Hfr. }
    destruct Hcase as [Hmiss|Hdir].
    + left. by apply (missing_frame (sys w)).
    + right. by rewrite Hsame.
  - apply Hd; [by destruct ρ|done].
  - apply Hd; [by destruct ρ|done].
  - intros ρ' Hin.
    assert (ρ' ≠ ρ) as Hne by (intros ->; done).
    destruct (slot_apart ρ' ρ (workspace_dir ρ') Hne (prefix_refl _)).
    rewrite Hfr by done. apply Hfree. by right.
Qed.

(** [SetupTmpFiles] returns nil when no system call is refused, [.regolith]
    is not a regular file and nothing hinders the staging of a role. *)
Lemma SetupTmpFiles_unhindered (config : Config) (profile : Profile) w r w' :
  (∀ c, fault (sys w) c = None) →
  os.is_file_at (fs (sys w)) ".regolith" = false →
  (∀ ρ, stageable config (sys w) ρ) →
  Pipeline.SetupTmpFiles config profile w = (r, w') → r = Ok tt.
Proof.
  intros Hfault Hcache Hst. rewrite SetupTmpFiles_unfold.
  intros [(e & Hl & _)|([] & w0 & Hl & H)]%bind_inv.
  { apply Logger_inv in Hl as (? & _). done. }
  apply Logger_inv in Hl as (_ & Hfs0 & Hs0).
  assert (Hfault0 : ∀ c, fault (sys w0) c = None).
  { intros c. by rewrite (step_fault _ _ _ _ Hs0). }
  apply bind_inv in H as [(e & Hc & ->)|([] & wa & Hc & H)].
  { apply orelse_inv in Hc as [(? & _ & ?)|(e0 & Hc & _)]; [done|].
    apply RemoveAll_inv in Hc as (_ & _ & _ & _ & Hok). by specialize (Hok (Hfault0 _)). }
  apply orelse_inv in Hc as [([] & Hc & _)|(? & _ & ?)]; [|done].
  apply RemoveAll_inv in Hc as (Hsa & Hfra & _ & Hgone & _).
  specialize (Hgone eq_refl).
  assert (Hfaulta : ∀ c, fault (sys wa) c = None).
  { intros c. by rewrite (step_fault _ _ _ _ Hsa). }
  assert (Hnot : ∀ k, k ∈ os.dirs_of ".regolith/tmp" → k = ".regolith" ∨ k = ".regolith/tmp").
  { intros k Hin%list_elem_of_In. vm_compute in Hin.
    destruct Hin as [<-|[<-|[]]]; auto. }
  apply bind_inv in H as [(e & Hc & ->)|([] & wb & Hc & H)].
  { apply orelse_inv in Hc as [(? & _ & ?)|(e0 & Hc & _)]; [done|].
    apply MkdirAll_inv in Hc as (_ & _ & _ & _ & Hok).
    specialize (Hok (Hfaulta _)). enough (Err e0 = Ok tt) by done. apply Hok.
    intros k [->| ->]%Hnot; unfold os.is_file_at.
    - rewrite Hfra by done. rewrite Hfs0. exact Hcache.
    - by rewrite Hgone. }
  apply orelse_inv in Hc as [([] & Hc & _)|(? & _ & ?)]; [|done].
  apply MkdirAll_inv in Hc as (Hsb & Hfrb & _ & Hdirs & _).
  specialize (Hdirs eq_refl).
  apply bind_inv in H as [(e & Hl & _)|([] & w1 & Hl & H)].
  { apply Logger_inv in Hl as (? & _). done. }
  apply Logger_inv in Hl as (_ & Hfs1 & Hs1).
  assert (Hsame : ∀ k, k ≠ ".regolith" → os.under ".regolith/tmp" k = false →
                       fs (sys w1) !! k = fs (sys w) !! k).
  { intros k Hk1 Hk2. rewrite Hfs1, Hfrb, Hfra, Hfs0; [done|done|].
    intros [->| ->]%Hnot; [done|]. by vm_compute in Hk2. }
  assert (Houtside : ∀ k, outside k → fs (sys w1) !! k = fs (sys w) !! k).
  { intros k Hk. apply Hsame.
    - intros ->. by vm_compute in Hk.
    - destruct (os.under ".regolith/tmp" k) eqn:E; [|done].
      apply under_prefix in E.
      change ".regolith/tmp" with (".regolith" +:+ "/tmp") in E.
      apply prefix_app_l in E. unfold outside in Hk. congruence. }
  eapply (stage_roles_unhindered config [RP; BP; data]); [| | | | | | |exact H].
  - intros w2 r2 w2' (? & _)%done_inv. done.
  - apply roles_NoDup.
  - intros c.
    by rewrite (step_fault _ _ _ _ Hs1), (step_fault _ _ _ _ Hsb).
  - intros ρ _. destruct (Hst ρ) as [?|(Hout & Hcase)]; [by left|].
    right. split; [done|]. destruct Hcase as [Hmiss|Hdir].
    + left. by apply (missing_frame (sys w)).
    + right. by rewrite Houtside.
  - rewrite Hfs1. apply Hdirs. apply list_elem_of_In. vm_compute. auto.
  - rewrite Hfs1. apply Hdirs. apply list_elem_of_In. vm_compute. auto.
  - intros ρ _. rewrite Hfs1, Hfrb.
    + apply Hgone. by destruct ρ.
    + intros [H0|H0]%Hnot; destruct ρ; done.
Qed.

(** * The claims about the pipeline *)

Section Pipeline_claims.

Variable cwd : string.
Variable LoadConfigAsMap : Sys → Res loc * Sys.
Variable ConfigFromObject : loc → Sys → Res Config * Sys.
Variable ExportProject : Profile → string → string → Sys → Res unit * Sys.

Local Abbreviation RunProfile :=
  (Pipeline.RunProfile cwd LoadConfigAsMap ConfigFromObject ExportProject).

(** The run of [RunProfile] whose Check phase has ended in [w]. *)
Lemma RunProfile_checked profileName v w cj s1 config s2 :
  LoadConfigAsMap (sys v) = (Ok cj, s1) →
  ConfigFromObject cj s1 = (Ok config, s2) →
  Pipeline.CheckProfileImpl (selected config profileName) profileName config None
    (loaded s1 s2 v) = (Ok tt, w) →
  ∀ e w',
    Pipeline.SetupTmpFiles config (selected config profileName) w = (Err e, w') →
    RunProfile profileName v = (Err (WrapError e "Unable to setup profile."), w').
Proof.
  intros HL HC Hcheck e w' Hsetup.
  unfold Pipeline.RunProfile.
  unfold bind at 1. unfold or_return at 1. unfold call at 1. unfold traced at 1.
  unfold on_sys at 1. rewrite HL. cbn [is_ok].
  unfold bind at 1. unfold or_return at 1. unfold call at 1. unfold traced at 1.
  unfold on_sys at 1. cbn [sys add_event set_sys]. rewrite HC. cbn [is_ok].
  fold (selected config profileName).
  unfold bind at 1. change (add_event _ (set_sys s2 _)) with (loaded s1 s2 v).
  rewrite Hcheck.
  unfold bind at 1. unfold or_return at 1. by rewrite Hsetup.
Qed.



(** C4. In a run of [RunProfile] whose Check phase has passed, staging a
    configured source path outside the cache that does not exist logs a
    warning and, when staging returns nil, has left an empty directory for
    the role in the workspace; the missing path is no reason for staging to
    fail as long as that directory can be made. Staging does return nil,
    with the warning logged and the empty directory in place, when no
    system call is refused, [.regolith] is not a regular file and each of
    the three paths is not configured, missing, or a directory outside the
    cache. Staging a path that is a regular file fails, and the run returns
    that error with no filter run and nothing exported. *)
Theorem staging_of_missing_and_file_paths (config : Config) (profileName : string)
    (ρ : role) (v w : World) cj s1 s2 r w' :
  LoadConfigAsMap (sys v) = (Ok cj, s1) →
  ConfigFromObject cj s1 = (Ok config, s2) →
  Pipeline.CheckProfileImpl (selected config profileName) profileName config None
    (loaded s1 s2 v) = (Ok tt, w) →
  role_path config ρ ≠ "" →
  outside (role_path config ρ) →
  fault (sys w) (SysStat (role_path config ρ)) = None →
  Pipeline.SetupTmpFiles config (selected config profileName) w = (r, w') →
  (missing (sys w) (role_path config ρ) →
     (fault (sys w) (SysMkdirAll (workspace_dir ρ)) = None →
      ∀ cause, r ≠ Err (WrapError cause (role_failure ρ))) ∧
     (r = Ok tt →
        (Warn, descriptive_name ρ +:+ " " +:+ q (role_path config ρ) +:+ " does not exist")
          ∈ log w' ∧
        fs (sys w') !! workspace_dir ρ = Some Dir ∧
        ∀ k, String.prefix (workspace_dir ρ +:+ "/") k = true → fs (sys w') !! k = None) ∧
     ((∀ c, fault (sys w) c = None) →
      os.is_file_at (fs (sys w)) ".regolith" = false →
      (∀ ρ', stageable config (sys w) ρ') →
      r = Ok tt ∧
      (Warn, descriptive_name ρ +:+ " " +:+ q (role_path config ρ) +:+ " does not exist")
        ∈ log w' ∧
      fs (sys w') !! workspace_dir ρ = Some Dir ∧
      ∀ k, String.prefix (workspace_dir ρ +:+ "/") k = true → fs (sys w') !! k = None)) ∧
  (∀ c, fs (sys w) !! role_path config ρ = Some (File c) →
     ∃ cause t lg,
       r = Err cause ∧
       RunProfile profileName v = (Err (WrapError cause "Unable to setup profile."), w') ∧
       grow v w' ([EvCall "LoadConfigAsMap" true; EvCall "ConfigFromObject" true] ++ t) lg ∧
       Forall (λ e, (phase e ≤ 2)%nat) t).
Proof.
  intros HL HC Hcheck Hp Hout Hf Hsetup. split.
  - intros Hnone.
    assert (Hgeneral :
      (fault (sys w) (SysMkdirAll (workspace_dir ρ)) = None →
       ∀ cause, r ≠ Err (WrapError cause (role_failure ρ))) ∧
      (r = Ok tt →
         (Warn, descriptive_name ρ +:+ " " +:+ q (role_path config ρ) +:+ " does not exist")
           ∈ log w' ∧
         fs (sys w') !! workspace_dir ρ = Some Dir ∧
         ∀ k, String.prefix (workspace_dir ρ +:+ "/") k = true → fs (sys w') !! k = None)).
    { pose proof Hsetup as
        [(e0 & t & l & Hr & _)|(w1 & t & l & Hs & _ & Hfree & Hd1 & Hd2 & Hfr & H)]%SetupTmpFiles_inv.
      { split.
        - intros _ cause Heq. destruct Hr as [-> | ->]; destruct ρ; done.
        - intros ->. by destruct Hr. }
      eapply (stage_roles_absent config ρ) in H; try done.
      + by rewrite (step_fault _ _ _ _ Hs) in H.
      + intros w0 r0 w0' (? & ? & ?)%done_inv. eauto.
      + apply roles_NoDup.
      + apply role_in_roles.
      + by rewrite (step_fault _ _ _ _ Hs).
      + by apply (missing_frame (sys w)).
      + intros k Hk. apply Hfree.
        change (workspace_dir ρ) with (".regolith/tmp/" +:+ short_name ρ) in Hk.
        by apply prefix_app_l in Hk. }
    destruct Hgeneral as [Hcause Hplace]. split; [exact Hcause|]. split; [exact Hplace|].
    intros Hfault Hcache Hst.
    assert (r = Ok tt) as Hr by by eapply SetupTmpFiles_unhindered.
    split; [exact Hr | exact (Hplace Hr)].
  - intros c Hc.
    assert (∃ cause, r = Err cause) as [cause ->].
    { pose proof Hsetup as
        [(e0 & t & l & Hr & _)|(w1 & t & l & Hs & _ & _ & _ & _ & Hfr & H)]%SetupTmpFiles_inv.
      { destruct Hr as [-> | ->]; eauto. }
      eapply (stage_roles_file config ρ) in H; [done|done|done| | |].
      - by rewrite (step_fault _ _ _ _ Hs).
      - rewrite Hfr; [exact Hc|done].
      - apply role_in_roles. }
    pose proof (RunProfile_checked _ _ _ _ _ _ _ HL HC Hcheck _ _ Hsetup) as Hrun.
    pose proof Hrun as Hrun'.
    eapply RunProfile_loaded in Hrun' as (t & lg & Hg & Hout' & _); [|exact HL|exact HC].
    exists cause, t, lg. split; [done|]. split; [done|]. split; [exact Hg|].
    by eapply pipeline_outcome_stage_failed.
Qed.

Lemma loaded_grow s1 s2 v :
  grow v (loaded s1 s2 v)
    [EvCall "LoadConfigAsMap" true; EvCall "ConfigFromObject" true] [].
Proof. split; cbn; by rewrite <- ?app_assoc, ?app_nil_r. Qed.

(** The run of [RunProfile] whose Check phase fails. *)
Lemma RunProfile_check_failed profileName v cj s1 config s2 e w :
  LoadConfigAsMap (sys v) = (Ok cj, s1) →
  ConfigFromObject cj s1 = (Ok config, s2) →
  Pipeline.CheckProfileImpl (selected config profileName) profileName config None
    (loaded s1 s2 v) = (Err e, w) →
  RunProfile profileName v = (Err e, w).
Proof.
  intros HL HC Hcheck.
  unfold Pipeline.RunProfile.
  unfold bind at 1. unfold or_return at 1. unfold call at 1. unfold traced at 1.
  unfold on_sys at 1. rewrite HL. cbn [is_ok].
  unfold bind at 1. unfold or_return at 1. unfold call at 1. unfold traced at 1.
  unfold on_sys at 1. cbn [sys add_event set_sys]. rewrite HC. cbn [is_ok].
  fold (selected config profileName).
  unfold bind at 1. change (add_event _ (set_sys s2 _)) with (loaded s1 s2 v).
  by rewrite Hcheck.
Qed.

(** C3. Once the configuration is loaded, the events of a run of
    [RunProfile] are in the order Check, Stage, Run, Export, removal of the
    transient data directory. An event of the Stage phase or later occurs
    only after every runner of the collection has passed its check, and an
    event of the Export phase or later only after the workspace is staged
    and every enabled runner has run. A failed check leaves nothing but
    checks in the trace, a failed run nothing of the Export phase. A
    successful export is followed by the removal of [.regolith/tmp/data],
    and when the run returns nil that directory is gone. *)
Theorem pipeline_phases_in_order profileName w r w' cj s1 config s2 :
  LoadConfigAsMap (sys w) = (Ok cj, s1) →
  ConfigFromObject cj s1 = (Ok config, s2) →
  RunProfile profileName w = (r, w') →
  ∃ t lg,
    grow w w' ([EvCall "LoadConfigAsMap" true; EvCall "ConfigFromObject" true] ++ t) lg ∧
    StronglySorted phase_order t ∧
    (∀ e, e ∈ t → (2 ≤ phase e)%nat →
       ∃ t', t = checks_ok 0 (Filters (selected config profileName)) ++ t') ∧
    (∀ e, e ∈ t → (4 ≤ phase e)%nat →
       ∃ ts t', stage_calls ts ∧
         t = checks_ok 0 (Filters (selected config profileName)) ++ ts
             ++ runs_ok 0 (Filters (selected config profileName)) ++ t') ∧
    (∀ i id, EvCheck i id false ∈ t →
       is_ok r = false ∧ Forall (λ e, phase e = 1) t) ∧
    (∀ i id, EvRun i id false ∈ t →
       is_ok r = false ∧ Forall (λ e, (phase e ≤ 3)%nat) t) ∧
    (EvCall "ExportProject" true ∈ t →
       ∃ ok, EvSys (SysRemoveAll ".regolith/tmp/data") ok ∈ t ∧ (ok = true ↔ r = Ok tt)) ∧
    (r = Ok tt →
       EvCall "ExportProject" true ∈ t ∧
       ∀ k, os.under ".regolith/tmp/data" k = true → fs (sys w') !! k = None).
Proof.
  intros HL HC H.
  eapply RunProfile_loaded in H as (t & lg & Hg & Hout & Hgone); [|exact HL|exact HC].
  exists t, lg. split; [exact Hg|].
  split; [by eapply pipeline_outcome_sorted|].
  split; [intros e; by eapply pipeline_outcome_after_check|].
  split; [intros e; by eapply pipeline_outcome_after_run|].
  split; [intros i id; by eapply pipeline_outcome_check_failed|].
  split; [intros i id; by eapply pipeline_outcome_run_failed|].
  destruct (pipeline_outcome_export _ _ _ Hout) as [Hexp Hok].
  split; [exact Hexp|]. intros Hr. split; [by apply Hok | by apply Hgone].
Qed.

(** C2. The Check loop invokes Check on the runners of the collection in
    order, whatever their disabled flag, and stops at the first that fails;
    the Run loop never invokes Run on a disabled runner. So a disabled
    runner whose check fails makes [CheckProfileImpl] fail, and a run of
    [RunProfile] on its profile returns an error with nothing but checks in
    its trace: no staging, no filter run, no export. *)
Theorem disabled_runners_are_checked (profile : Profile) (profileName : string)
    (config : Config) (parentContext : option RunContext) :
  (∀ w r w',
     Pipeline.CheckProfileImpl profile profileName config parentContext w = (r, w') →
     ∃ t, grow w w' t [] ∧ check_outcome 0 (Filters profile) r t) ∧
  (∀ w r w',
     Pipeline.RunProfileImpl cwd profile profileName config parentContext w = (r, w') →
     ∃ t lg, grow w w' t lg ∧ run_outcome 0 (Filters profile) r t ∧
       ∀ i f ok, Filters profile !! i = Some f → IsDisabled f = true →
                 EvRun i (GetId f) ok ∉ t) ∧
  (∀ f, f ∈ Filters profile → IsDisabled f = true →
     (∀ ctx s, is_ok (runner_Check f ctx s).1 = false) →
     (∀ w r w',
        Pipeline.CheckProfileImpl profile profileName config parentContext w = (r, w') →
        is_ok r = false) ∧
     (∀ w r w' cj s1 s2,
        LoadConfigAsMap (sys w) = (Ok cj, s1) →
        ConfigFromObject cj s1 = (Ok config, s2) →
        selected config profileName = profile →
        RunProfile profileName w = (r, w') →
        is_ok r = false ∧
        ∃ t, grow w w'
               ([EvCall "LoadConfigAsMap" true; EvCall "ConfigFromObject" true] ++ t) [] ∧
             Forall (λ e, phase e = 1) t)).
Proof.
  split; [|split].
  - intros w r w' H. unfold Pipeline.CheckProfileImpl in H. by apply check_loop_inv in H.
  - intros w r w' H. unfold Pipeline.RunProfileImpl in H.
    apply run_loop_inv in H as (t & lg & Hg & Hout).
    exists t, lg. split; [done|]. split; [done|].
    intros i f ok Hi Hd Hin.
    apply run_outcome_events in Hout as [_ Hruns].
    apply Hruns in Hin as (k & f' & Hk & Hd' & -> & _).
    cbn in Hi. rewrite Hi in Hk. injection Hk as <-. congruence.
  - intros f Hin Hd Hfail. split.
    + intros w r w' H. unfold Pipeline.CheckProfileImpl in H.
      eapply check_loop_fails in H; [done|exact Hin|]. intros s. apply Hfail.
    + intros w r w' cj s1 s2 HL HC Hsel H.
      destruct (Pipeline.CheckProfileImpl (selected config profileName) profileName
                  config None (loaded s1 s2 w)) as [rc wc] eqn:Hcheck.
      pose proof Hcheck as Hcheck'. unfold Pipeline.CheckProfileImpl in Hcheck'.
      pose proof Hcheck' as Hfails.
      eapply check_loop_fails in Hfails; [| rewrite Hsel; exact Hin | intros s; apply Hfail].
      destruct rc as [|e]; [done|].
      rewrite (RunProfile_check_failed _ _ _ _ _ _ _ _ HL HC Hcheck) in H.
      injection H as <- <-. split; [done|].
      apply check_loop_inv in Hcheck' as (t & Hg & Hout).
      exists t. split.
      * pose proof (grow_trans _ _ _ _ _ _ _ (loaded_grow s1 s2 w) Hg) as Hg'.
        exact Hg'.
      * by apply check_outcome_events in Hout as [? _].
Qed.

End Pipeline_claims.

(** * The claim about sub-filters *)

Section Subfilter_claims.

Variable json_Unmarshal : string → Res (gmap string json).
Variable FilterInstallerFromObject : string → gmap string json → Res FilterInstaller.
Variable CopyArguments : FilterRunner → RemoteFilter → FilterRunner.

Local Abbreviation subfilters :=
  (Pipeline.subfilters FilterInstallerFromObject CopyArguments).
Local Abbreviation SubfilterCollection :=
  (Pipeline.SubfilterCollection json_Unmarshal FilterInstallerFromObject CopyArguments).
Local Abbreviation resolves := (resolves_to FilterInstallerFromObject).

(** The loop passes over an entry that resolves to a runner that is not a
    remote filter. *)
Lemma subfilters_local f path i entry rest acc runner :
  resolves f i entry runner → as_RemoteFilter runner = None →
  subfilters f path i (entry :: rest) acc
  = subfilters f path (S i) rest (acc ++ [CopyArguments runner f]).
Proof.
  intros (filter & installer & -> & Hi & Hr) Hloc. cbn [Pipeline.subfilters].
  cbn zeta. by rewrite Hi, Hr, Hloc.
Qed.

(** The loop stops at an entry that resolves to a remote filter. *)
Lemma subfilters_remote f path i entry rest acc runner rf :
  resolves f i entry runner → as_RemoteFilter runner = Some rf →
  subfilters f path i (entry :: rest) acc = Err (remote_in_subfilters f i).
Proof.
  intros (filter & installer & -> & Hi & Hr) Hrem. cbn [Pipeline.subfilters].
  cbn zeta. by rewrite Hi, Hr, Hrem.
Qed.

Lemma subfilters_fail_or_continue f path i entry rest acc :
  (∃ e, subfilters f path i (entry :: rest) acc = Err e) ∨
  (∃ acc', subfilters f path i (entry :: rest) acc = subfilters f path (S i) rest acc').
Proof.
  cbn [Pipeline.subfilters]. cbn zeta.
  destruct entry; eauto.
  destruct (FilterInstallerFromObject _ _); eauto.
  destruct (CreateFilterRunner _ _); eauto.
  destruct (as_RemoteFilter _); eauto.
Qed.

Lemma subfilters_with_remote f path filters :
  ∀ i0 acc k entry runner rf,
    filters !! k = Some entry →
    resolves f (i0 + k) entry runner → as_RemoteFilter runner = Some rf →
    (∃ e, subfilters f path i0 filters acc = Err e) ∧
    ((∀ j entry', j < k → filters !! j = Some entry' →
        ∃ runner', resolves f (i0 + j) entry' runner' ∧ as_RemoteFilter runner' = None) →
     subfilters f path i0 filters acc = Err (remote_in_subfilters f (i0 + k))).
Proof.
  induction filters as [|first rest IH]; intros i0 acc k entry runner rf Hk Hres Hrem;
    [done|].
  destruct k as [|k]; cbn in Hk.
  - injection Hk as ->. rewrite Nat.add_0_r in *.
    rewrite (subfilters_remote _ _ _ _ _ _ _ _ Hres Hrem). eauto.
  - replace (i0 + S k) with (S i0 + k) in * by lia. split.
    + destruct (subfilters_fail_or_continue f path i0 first rest acc)
        as [He|[acc' ->]]; [done|].
      by destruct (IH (S i0) acc' k entry runner rf Hk Hres Hrem).
    + intros Hbefore.
      destruct (Hbefore 0 first) as (runner0 & Hres0 & Hloc0); [lia|done|].
      rewrite Nat.add_0_r in Hres0.
      rewrite (subfilters_local _ _ _ _ _ _ _ Hres0 Hloc0).
      apply (IH (S i0) _ k entry runner rf Hk Hres Hrem).
      intros j entry' Hj Hj'. replace (S i0 + j) with (i0 + S j) by lia.
      apply (Hbefore (S j)); [lia|done].
Qed.

(** C1. For a remote filter whose descriptor file is read and lists
    sub-filters, an entry that resolves to a remote filter makes
    [SubfilterCollection] fail, with no collection returned. When the loop
    reaches that entry, every entry before it having resolved to a runner
    that is not remote, the error is the one that names the id of the parent
    filter and the index of the entry. *)
Theorem remote_subfilter_is_rejected (f : RemoteFilter) (w : World)
    (file : string) (descriptor : gmap string json) (filters : list json)
    (i : nat) (entry : json) (runner : FilterRunner) (rf : RemoteFilter) :
  fault (sys w) (SysReadFile (Pipeline.filepath_Join (GetDownloadPath f) "filter.json")) = None →
  fs (sys w) !! Pipeline.filepath_Join (GetDownloadPath f) "filter.json" = Some (File file) →
  json_Unmarshal file = Ok descriptor →
  descriptor !! "filters" = Some (JArray filters) →
  filters !! i = Some entry →
  resolves f i entry runner →
  as_RemoteFilter runner = Some rf →
  (∃ e, (SubfilterCollection f w).1 = Err e) ∧
  ((∀ j entry', j < i → filters !! j = Some entry' →
      ∃ runner', resolves f j entry' runner' ∧ as_RemoteFilter runner' = None) →
   (SubfilterCollection f w).1 = Err (remote_in_subfilters f i)).
Proof.
  intros Hf Hfile Hjson Hfilters Hi Hres Hrem.
  set (path := Pipeline.filepath_Join (GetDownloadPath f) "filter.json") in *.
  assert (Hrun : ∀ res, subfilters f path 0 filters [] = Err res →
                 (SubfilterCollection f w).1 = Err res).
  { intros res Hsub. unfold Pipeline.SubfilterCollection. fold path.
    unfold bind at 1. unfold or_return at 1.
    unfold os.ReadFile, os.failing, traced. rewrite Hf, Hfile. cbn [is_ok].
    unfold bind at 1. unfold or_return at 1. rewrite Hjson. cbn [lift_res ret].
    rewrite Hfilters. unfold bind. by rewrite Hsub. }
  destruct (subfilters_with_remote f path filters 0 [] i entry runner rf Hi Hres Hrem)
    as [[e He] Hfirst].
  split; [eauto|]. intros Hbefore. apply Hrun. by apply Hfirst.
Qed.

End Subfilter_claims.

(** The descriptor of [Examples.parent] has a remote sub-filter at index 1
    behind a local one. *)
Lemma remote_subfilter_is_rejected_witness :
  (Pipeline.SubfilterCollection Examples.unmarshal Examples.installer_from
     Examples.copy_arguments Examples.parent Examples.cache_machine).1
  = Err (WrappedError
      ("remote filters are not allowed in subfilters. Remote filter "
       +:+ q "name_ninja" +:+ " subfilter 1")).
Proof.
  set (entry := JObject {[ "url" := JString "github.com/x/y" ]}).
  set (id := "name_ninja:subfilter1").
  set (runner := Examples.runner_from id (<["filter" := JString id]> {[ "url" := JString "github.com/x/y" ]})).
  refine (proj2 (remote_subfilter_is_rejected Examples.unmarshal Examples.installer_from
    Examples.copy_arguments Examples.parent Examples.cache_machine
    Examples.descriptor_text Examples.descriptor
    [JObject {[ "runWith" := JString "python" ]}; entry] 1 entry runner
    (mkRemoteFilter id (".regolith/cache/filters/" +:+ id) [])
    _ _ _ _ _ _ _) _).
  - reflexivity.
  - vm_compute. reflexivity.
  - reflexivity.
  - vm_compute. reflexivity.
  - reflexivity.
  - eexists _, _. split; [reflexivity|]. split; reflexivity.
  - vm_compute. reflexivity.
  - intros j entry' Hj Hlook. destruct j as [|[|j]]; [|lia|lia].
    cbn in Hlook. injection Hlook as <-.
    eexists. split.
    + eexists _, _. split; [reflexivity|]. split; reflexivity.
    + vm_compute. reflexivity.
Defined.

(** C1 as it is worded, for any entry that resolves to a remote filter,
    fails where an entry before the remote one stops the loop. The
    descriptor here lists a number and then a remote filter: the entry at
    index 1 resolves to a remote filter, and [SubfilterCollection] fails
    with the error of the entry at index 0, which is not the error that
    names the parent filter and the index of the remote entry. *)
Lemma remote_subfilter_behind_unparsed_entry :
  let entry := JObject {[ "url" := JString "github.com/x/y" ]} in
  let run :=
    Pipeline.SubfilterCollection Fixtures.unmarshal_descriptor Examples.installer_from
      Examples.copy_arguments Examples.parent
      (Fixtures.cache_with Fixtures.unparsed_then_remote_text) in
  Fixtures.unparsed_then_remote !! "filters" = Some (JArray [JNumber 7; entry]) ∧
  (∃ runner rf,
     resolves_to Examples.installer_from Examples.parent 1 entry runner ∧
     as_RemoteFilter runner = Some rf) ∧
  run.1 = Err (WrappedError
            ("Could not parse filter 0 of "
             +:+ q ".regolith/cache/filters/name_ninja/filter.json" +:+ ".")) ∧
  run.1 ≠ Err (remote_in_subfilters Examples.parent 1).
Proof.
  intros entry run.
  assert (Hrun : run.1 = Err (WrappedError
            ("Could not parse filter 0 of "
             +:+ q ".regolith/cache/filters/name_ninja/filter.json" +:+ ".")))
    by (vm_compute; reflexivity).
  split; [vm_compute; reflexivity|]. split; [|split; [exact Hrun|]].
  - eexists _, _. split.
    + eexists _, _. split; [reflexivity|]. split; reflexivity.
    + vm_compute. reflexivity.
  - rewrite Hrun. vm_compute. discriminate.
Qed.

(** * The claims about the commands *)

Section Command_claims.

Variable cwd : string.
Variable ConfigFilePath : string.
Variable gitNotInstalledWarning aquireSessionLockError : string.
Variable osMkdirError : string → string.
Variable hasGit : Sys → bool.
Variable parseInstallFilterArgs : list string → Res (list parsedInstallFilterArg).
Variable LoadConfigAsMap : Sys → Res loc * Sys.
Variable ConfigFromObject : loc → Sys → Res Config * Sys.
Variable dataPathFromConfigMap : loc → Sys → Res string * Sys.
Variable filterDefinitionsFromConfigMap : loc → Sys → Res loc * Sys.
Variable GetDotRegolith : bool → string → Sys → Res string * Sys.
Variable CreateDirectoryIfNotExists : string → Sys → Res unit * Sys.
Variable aquireSessionLock : string → Sys → Res (Sys → Res unit * Sys) * Sys.
Variable FilterDefinitionFromTheInternet :
  string → string → string → Sys → Res RemoteFilterDefinition * Sys.
Variable RemoteFilterDefinition_CreateFilterRunner :
  RemoteFilterDefinition → gmap string json → Res FilterRunner.
Variable installFilters :
  gmap string FilterInstaller → bool → string → string → Sys → Res unit * Sys.
Variable json_MarshalIndent : gmap loc (gmap string value) → loc → string.
Variable CheckProfileImpl :
  Profile → string → Config → option RunContext → string → Sys → Res unit * Sys.
Variable RunProfile : RunContext → Sys → Res unit * Sys.
Variable StartWatchingSourceFiles : RunContext → Sys → Sys.
Variable PassError : error → error.
Variable AwaitInterruption : RunContext → Sys → option Sys.

Local Abbreviation watch_loop :=
  (Commands.watch_loop RunProfile PassError AwaitInterruption).
Local Abbreviation runOrWatch :=
  (Commands.runOrWatch cwd aquireSessionLockError osMkdirError LoadConfigAsMap
     ConfigFromObject GetDotRegolith CreateDirectoryIfNotExists aquireSessionLock
     CheckProfileImpl RunProfile StartWatchingSourceFiles PassError AwaitInterruption).
Local Abbreviation Install :=
  (Commands.Install ConfigFilePath gitNotInstalledWarning aquireSessionLockError hasGit
     parseInstallFilterArgs LoadConfigAsMap dataPathFromConfigMap
     filterDefinitionsFromConfigMap GetDotRegolith aquireSessionLock
     FilterDefinitionFromTheInternet RemoteFilterDefinition_CreateFilterRunner
     installFilters json_MarshalIndent).

Lemma call_inv {A} fn (f : Sys → Res A * Sys) w r w' :
  call fn f w = (r, w') →
  f (sys w) = (r, sys w') ∧ grow w w' [EvCall fn (is_ok r)] [].
Proof. unfold call. intros (H & _ & Hg)%on_sys_traced_inv. done. Qed.



Ltac run_call H :=
  unfold bind at 1; unfold or_return at 1; unfold call at 1; unfold traced at 1;
  unfold on_sys at 1; cbn [sys log trace sessionLockErr add_event set_sys];
  rewrite H; cbn [is_ok fst snd].

(** [runOrWatch] rejects a profile name that is not a key of the profile
    mapping before it does anything but load the configuration. *)
Lemma runOrWatch_unknown_profile fuel profileName debug watch w cj s1 config s2 :
  LoadConfigAsMap (sys w) = (Ok cj, s1) →
  ConfigFromObject cj s1 = (Ok config, s2) →
  Profiles config !! (if String.eqb profileName "" then "default" else profileName)
    = None →
  runOrWatch fuel profileName debug watch w
  = (Err (WrappedError
       ("Profile "
        +:+ q (if String.eqb profileName "" then "default" else profileName)
        +:+ " does not exist in the configuration.")),
     loaded s1 s2 w).
Proof.
  intros HL HC Hnone. unfold Commands.runOrWatch, Commands.InitLogging.
  unfold bind at 1. unfold ret at 1. cbn zeta.
  run_call HL. run_call HC. by rewrite Hnone.
Qed.

(** The loop of [Install] that looks for requested names among the filter
    definitions returns at the first name that is a key, and changes
    nothing. *)
Lemma force_check_loop fd parsedArgs :
  ∀ i w,
    for_range i parsedArgs (λ _ parsedArg,
      entry <- map_lookup fd (name parsedArg) ;;
      match entry with
      | Some _ => throw (WrappedError (Commands.already_installed (name parsedArg)))
      | None => ret tt
      end) w
    = (match first_installed (map_at fd (sys w)) parsedArgs with
       | Some a => Err (WrappedError (Commands.already_installed (name a)))
       | None => Ok tt
       end, w).
Proof.
  induction parsedArgs as [|a rest IH]; intros i w; [done|].
  cbn [for_range]. unfold bind at 1. unfold bind at 1. unfold map_lookup at 1.
  unfold first_installed. cbn [List.find].
  destruct (map_at fd (sys w) !! name a); [done|].
  cbn [ret]. apply IH.
Qed.

Lemma first_installed_Some m parsedArgs a :
  a ∈ parsedArgs → is_Some (m !! name a) →
  ∃ a', first_installed m parsedArgs = Some a' ∧ a' ∈ parsedArgs ∧ is_Some (m !! name a').
Proof.
  intros Hin Ha. unfold first_installed.
  destruct (List.find _ parsedArgs) as [a'|] eqn:E.
  - apply find_some in E as [Hin' Hm]. exists a'. split; [done|].
    split; [by apply list_elem_of_In|]. by destruct (m !! name a').
  - apply list_elem_of_In in Hin. eapply find_none in E; [|exact Hin].
    destruct Ha as [x Hx]. by rewrite Hx in E.
Qed.

(** C5. An [Install] without the force flag that has parsed its arguments,
    loaded the configuration and taken the session lock, and finds one of
    the requested names among the filter definitions, returns the "already
    on the filter definitions list" error for the first such name, which
    tells the user to add --force. It has then made no call to download or
    install anything, stored nothing in the filter definitions and written
    no file: after the lock was taken it only released it. *)
Theorem install_refuses_installed_filter (filters : list string) (debug : bool)
    (w : World) parsedArgs config sa dataPath sb fd sc dot sd unlock se a :
  parseInstallFilterArgs filters = Ok parsedArgs →
  LoadConfigAsMap (sys w) = (Ok config, sa) →
  dataPathFromConfigMap config sa = (Ok dataPath, sb) →
  filterDefinitionsFromConfigMap config sb = (Ok fd, sc) →
  GetDotRegolith false "." sc = (Ok dot, sd) →
  aquireSessionLock dot sd = (Ok unlock, se) →
  a ∈ parsedArgs →
  is_Some (map_at fd se !! name a) →
  ∃ a', a' ∈ parsedArgs ∧ is_Some (map_at fd se !! name a') ∧
    (Install filters false debug w).1
      = Err (WrappedError (Commands.already_installed (name a'))) ∧
    sys (Install filters false debug w).2 = (unlock se).2 ∧
    trace (Install filters false debug w).2
      = trace w ++
        [EvCall "LoadConfigAsMap" true; EvCall "dataPathFromConfigMap" true;
         EvCall "filterDefinitionsFromConfigMap" true; EvCall "GetDotRegolith" true;
         EvCall "aquireSessionLock" true;
         EvCall "unlockSession" (is_ok (unlock se).1)].
Proof.
  intros Hparse HL Hdata Hfd Hdot Hlock Hin Ha.
  destruct (first_installed_Some _ _ _ Hin Ha) as (a' & Hfirst & Hin' & Ha').
  exists a'. split; [done|]. split; [done|].
  assert (∃ lg,
    (if negb (hasGit (sys w)) then Logger Warn gitNotInstalledWarning else ret tt)
      (mkWorld (sys w) (log w ++ [(Info, "Installing filters...")]) (trace w)
         (sessionLockErr w))
    = (Ok tt, mkWorld (sys w) lg (trace w) (sessionLockErr w))) as [lg Hgit].
  { destruct (negb (hasGit (sys w))); eexists; reflexivity. }
  assert (Install filters false debug w
          = (Err (WrappedError (Commands.already_installed (name a'))),
             mkWorld (unlock se).2 lg
               (trace w ++
                [EvCall "LoadConfigAsMap" true; EvCall "dataPathFromConfigMap" true;
                 EvCall "filterDefinitionsFromConfigMap" true;
                 EvCall "GetDotRegolith" true; EvCall "aquireSessionLock" true;
                 EvCall "unlockSession" (is_ok (unlock se).1)])
               (error_of (unlock se).1))) as ->; [|done].
  unfold Commands.Install, Commands.InitLogging, Commands.has_git.
  unfold bind at 1. unfold ret at 1.
  unfold bind at 1. unfold Logger at 1.
  unfold bind at 1.
  unfold bind at 1. cbn [sys]. rewrite Hgit. clear Hgit.
  unfold bind at 1. unfold or_return at 1. rewrite Hparse. cbn [lift_res ret].
  run_call HL. run_call Hdata. run_call Hfd. run_call Hdot.
  unfold bind at 1. unfold Commands.lock_session.
  unfold bind at 1. unfold attempt at 1. unfold call at 1. unfold traced at 1.
  unfold on_sys at 1. cbn [sys log trace sessionLockErr add_event set_sys].
  rewrite Hlock. cbn [is_ok].
  unfold bind at 1. unfold set_sessionLockErr at 1. cbn [error_of ret].
  unfold go_defer. cbn [negb].
  unfold bind at 1. rewrite force_check_loop.
  cbn [sys log trace sessionLockErr add_event set_sys]. rewrite Hfirst.
  unfold Commands.unlock_closure, Commands.always.
  unfold bind, attempt, call, traced, on_sys, set_sessionLockErr.
  cbn [sys log trace sessionLockErr add_event set_sys].
  destruct (unlock se) as [ru su]. cbn. by rewrite <- !app_assoc.
Qed.

Local Abbreviation download := (Commands.download FilterDefinitionFromTheInternet).

(** The opening of the install and update commands: logging, and a warning
    when git is missing. *)
Lemma prologue_inv {A} debug msg (k : M A) w r w' :
  (Commands.InitLogging debug ;;
   Logger Info msg ;;
   git <- Commands.has_git hasGit ;;
   (if negb git then Logger Warn gitNotInstalledWarning else ret tt) ;;
   k) w = (r, w') →
  ∃ w0, sys w0 = sys w ∧ trace w0 = trace w ∧ sessionLockErr w0 = sessionLockErr w ∧
        (∃ lg, log w0 = log w ++ lg) ∧ k w0 = (r, w').
Proof.
  unfold Commands.InitLogging, Commands.has_git.
  intros [(? & ? & ?)|([] & w0 & [= <-] & H)]%bind_inv; [done|].
  apply bind_inv in H as [(? & ? & ?)|([] & w1 & [= <-] & H)]; [done|].
  apply bind_inv in H as [(? & ? & ?)|(git & w2 & [= <- <-] & H)]; [done|].
  apply bind_inv in H as [(? & Hl & ?)|([] & w3 & Hl & H)].
  { destruct (negb _); [apply Logger_grow in Hl as (? & _)|]; done. }
  exists w3. destruct (negb (hasGit _)).
  - apply Logger_grow in Hl as (_ & Hs & [Ht Hlg Hk]). cbn in *.
    rewrite app_nil_r in Ht. repeat split; try done.
    eexists. rewrite Hlg, <- app_assoc. reflexivity.
  - injection Hl as <-. cbn. repeat split; try done. by eexists.
Qed.

Lemma download_step a rest acc w r w' :
  download (a :: rest) acc w = (r, w') →
  (∃ e, r = Err e) ∨
  (∃ d0 w1,
     FilterDefinitionFromTheInternet (url a) (name a) (version a) (sys w) = (Ok d0, sys w1) ∧
     download rest (<[name a := stored_definition a d0]> acc) w1 = (r, w')).
Proof.
  cbn [Commands.download].
  intros [(e & H & ->)|(d0 & w1 & H & Hrest)]%bind_inv; [eauto|].
  apply orelse_inv in H as [(? & H & [= <-])|(? & _ & ?)]; [|done].
  apply call_inv in H as (H & _). right. exists d0, w1. split; [done|].
  exact Hrest.
Qed.

Lemma download_other parsedArgs :
  ∀ acc w m w' k,
    download parsedArgs acc w = (Ok m, w') →
    k ∉ name <$> parsedArgs → m !! k = acc !! k.
Proof.
  induction parsedArgs as [|a rest IH]; intros acc w m w' k H Hk.
  - by inversion H.
  - apply download_step in H as [(e & ?)|(d0 & w1 & _ & H)]; [done|].
    cbn in Hk. apply not_elem_of_cons in Hk as [Hne Hk].
    rewrite (IH _ _ _ _ _ H Hk). by rewrite lookup_insert_ne.
Qed.

(** The definition the download loop leaves for the last request of a
    name. *)
Lemma download_last pre a post :
  ∀ acc w m w',
    download (pre ++ a :: post) acc w = (Ok m, w') →
    name a ∉ name <$> post →
    ∃ d0 s0 s0',
      FilterDefinitionFromTheInternet (url a) (name a) (version a) s0 = (Ok d0, s0') ∧
      m !! name a = Some (stored_definition a d0).
Proof.
  induction pre as [|b pre IH]; intros acc w m w' H Hlast; cbn [app] in H.
  - apply download_step in H as [(e & ?)|(d0 & w1 & Hd & H)]; [done|].
    exists d0, (sys w), (sys w1). split; [done|].
    rewrite (download_other _ _ _ _ _ _ H Hlast). by rewrite lookup_insert_eq.
  - apply download_step in H as [(e & ?)|(d0 & w1 & _ & H)]; [done|].
    by eapply IH.
Qed.

(** The loop of [Install] that adds the filters to the filter definitions
    of the configuration. *)
Lemma store_loop fd (entries : list (string * RemoteFilterDefinition)) :
  ∀ i w r w',
    for_range i entries (λ _ entry,
      map_store fd entry.1 (VFilterDefinition entry.2)) w = (r, w') →
    r = Ok tt ∧ fs (sys w') = fs (sys w) ∧ fault (sys w') = fault (sys w) ∧
    sessionLockErr w' = sessionLockErr w ∧
    (∀ k, k ∉ entries.*1 → map_at fd (sys w') !! k = map_at fd (sys w) !! k) ∧
    (NoDup entries.*1 →
     ∀ k d, (k, d) ∈ entries → map_at fd (sys w') !! k = Some (VFilterDefinition d)).
Proof.
  induction entries as [|[k0 d0] rest IH]; intros i w r w' H; cbn [for_range] in H.
  - inversion H; subst. repeat split; try done. intros _ k d Hin.
    by apply elem_of_nil in Hin.
  - apply bind_inv in H as [(e & H & _)|([] & w1 & H & Hrest)]; [done|].
    inversion H; subst w1. clear H. cbn [fst snd] in *.
    apply IH in Hrest as (-> & Hfs & Hfault & Hlock & Hframe & Hall).
    assert (Hstored : ∀ k,
      map_at fd (sys (add_event (EvStore fd k0)
        (set_heap (<[fd := <[k0 := VFilterDefinition d0]> (map_at fd (sys w))]>
                     (heap (sys w))) w))) !! k
      = <[k0 := VFilterDefinition d0]> (map_at fd (sys w)) !! k).
    { intros k. unfold map_at at 1. cbn. by rewrite lookup_insert_eq. }
    repeat split; try done.
    + intros k Hk. cbn in Hk. apply not_elem_of_cons in Hk as [Hne Hk].
      rewrite (Hframe _ Hk), Hstored. by rewrite lookup_insert_ne.
    + intros Hnd k d Hin. cbn in Hnd. apply NoDup_cons in Hnd as [Hk0 Hnd].
      apply elem_of_cons in Hin as [[= -> ->]|Hin].
      * rewrite (Hframe _ Hk0), Hstored. by rewrite lookup_insert_eq.
      * by apply Hall.
Qed.

Lemma WriteFile_inv path data w w' :
  os.WriteFile path data w = (Ok tt, w') →
  fs (sys w') !! path = Some (File data) ∧ heap (sys w') = heap (sys w).
Proof.
  unfold os.WriteFile.
  intros (wx & -> & [(? & _ & ? & _)|[_ Hwrite]])%failing_inv; [done|].
  destruct (fs (sys w) !! path) as [[|?]|]; inversion Hwrite; subst wx;
    cbn; by rewrite lookup_insert_eq.
Qed.

Lemma go_defer_inv {A} (returns : A → bool) d (body : M A) w r w' :
  go_defer returns d body w = (r, w') →
  ∃ w1, body w = (r, w1) ∧
    (w' = (d w1).2 ∨ (∃ a, r = Ok a ∧ returns a = false ∧ w' = w1)).
Proof.
  unfold go_defer. destruct (body w) as [[a|e] w1].
  - destruct (returns a) eqn:E; intros [= <- <-]; eauto 10.
  - intros [= <- <-]. eauto.
Qed.

(** The deferred release of the session lock leaves of the system what
    [unlockSession] leaves of it. *)
Lemma unlock_closure_sys (unlockSession : Sys → Res unit * Sys) w :
  sys (Commands.unlock_closure unlockSession w).2 = (unlockSession (sys w)).2.
Proof.
  unfold Commands.unlock_closure, bind, attempt, call, traced, on_sys.
  by destruct (unlockSession (sys w)) as [[[]|e] s].
Qed.

Lemma lock_session_inv dot w unlock w' :
  Commands.lock_session aquireSessionLockError aquireSessionLock dot w = (Ok unlock, w') →
  aquireSessionLock dot (sys w) = (Ok unlock, sys w').
Proof.
  unfold Commands.lock_session, bind, attempt, call, traced, on_sys.
  destruct (aquireSessionLock dot (sys w)) as [[u|e] s]; cbn; [|done].
  by intros [= <- <-].
Qed.

(** C8. When [Install] returns nil it has loaded the configuration, taken
    the session lock and written the configuration file, and it ends in the
    state that the release of the lock leaves of the state [s] it had
    reached. In [s] the configuration file holds the marshalled
    configuration, in which the filter definitions have an entry for each
    requested name (the last request of a name is the one that counts). For
    a request whose version is the keyword HEAD or latest that entry has the
    keyword as its version, whatever the download resolved it to; for any
    other request the entry is the definition that
    [FilterDefinitionFromTheInternet] returned, so that a version that was
    given is kept as it was given when that function pins the definition
    to it. *)
Theorem install_keeps_version_keywords (filters : list string) (force debug : bool)
    (w w' : World) parsedArgs pre a post :
  parseInstallFilterArgs filters = Ok parsedArgs →
  parsedArgs = pre ++ a :: post →
  name a ∉ name <$> post →
  Install filters force debug w = (Ok tt, w') →
  ∃ config sa dataPath sb fd sc dot sd unlock se s,
    LoadConfigAsMap (sys w) = (Ok config, sa) ∧
    dataPathFromConfigMap config sa = (Ok dataPath, sb) ∧
    filterDefinitionsFromConfigMap config sb = (Ok fd, sc) ∧
    GetDotRegolith false "." sc = (Ok dot, sd) ∧
    aquireSessionLock dot sd = (Ok unlock, se) ∧
    sys w' = (unlock s).2 ∧
    fs s !! ConfigFilePath = Some (File (json_MarshalIndent (heap s) config)) ∧
    (is_keyword (version a) = true →
     persisted_version (map_at fd s) (name a) = Some (version a)) ∧
    (is_keyword (version a) = false →
     ∃ d0 s0 s0',
       FilterDefinitionFromTheInternet (url a) (name a) (version a) s0 = (Ok d0, s0') ∧
       map_at fd s !! name a = Some (VFilterDefinition d0)) ∧
    (pins_given_version FilterDefinitionFromTheInternet → version a ≠ "" →
     persisted_version (map_at fd s) (name a) = Some (version a)).
Proof.
  intros Hparse -> Hlast H.
  unfold Commands.Install in H.
  apply prologue_inv in H as (w3 & Hsys & _ & _ & _ & H).
  apply bind_inv in H as [(? & _ & ?)|(args & w4 & Hargs & H)]; [done|].
  apply orelse_inv in Hargs as [(? & Hargs & [= <-])|(? & _ & ?)]; [|done].
  rewrite Hparse in Hargs. injection Hargs as <- <-.
  apply bind_inv in H as [(? & _ & ?)|(config & w5 & HL & H)]; [done|].
  apply orelse_inv in HL as [(? & HL & [= <-])|(? & _ & ?)]; [|done].
  apply call_inv in HL as (HL & _). rewrite Hsys in HL.
  apply bind_inv in H as [(? & _ & ?)|(dataPath & w6 & Hdata & H)]; [done|].
  apply orelse_inv in Hdata as [(? & Hdata & [= <-])|(? & _ & ?)]; [|done].
  apply call_inv in Hdata as (Hdata & _).
  apply bind_inv in H as [(? & _ & ?)|(fd & w7 & Hfd & H)]; [done|].
  apply orelse_inv in Hfd as [(? & Hfd & [= <-])|(? & _ & ?)]; [|done].
  apply call_inv in Hfd as (Hfd & _).
  apply bind_inv in H as [(? & _ & ?)|(dot & w8 & Hdot & H)]; [done|].
  apply orelse_inv in Hdot as [(? & Hdot & [= <-])|(? & _ & ?)]; [|done].
  apply call_inv in Hdot as (Hdot & _).
  apply bind_inv in H as [(? & _ & ?)|(unlock & w9 & Hlock & H)]; [done|].
  apply lock_session_inv in Hlock.
  apply go_defer_inv in H as (wb & H & [->|(? & _ & ? & _)]); [|done].
  apply bind_inv in H as [(? & _ & ?)|([] & w10 & _ & H)]; [done|].
  apply bind_inv in H as [(? & _ & ?)|(m & w11 & Hdl & H)]; [done|].
  apply bind_inv in H as [(? & _ & ?)|([] & w12 & _ & H)]; [done|].
  apply bind_inv in H as [(? & _ & ?)|([] & w13 & Hstore & H)]; [done|].
  apply bind_inv in H as [(? & _ & ?)|(jsonBytes & w14 & Hjson & H)]; [done|].
  injection Hjson as <- <-.
  apply bind_inv in H as [(? & _ & ?)|([] & w15 & Hwrite & H)]; [done|].
  apply orelse_inv in Hwrite as [([] & Hwrite & _)|(? & _ & ?)]; [|done].
  apply WriteFile_inv in Hwrite as (Hfile & Hheap).
  apply bind_inv in H as [(? & _ & ?)|([] & w16 & Hlog & H)]; [done|].
  apply Logger_grow in Hlog as (_ & Hsys16 & _).
  assert (sys wb = sys w15) as Hend.
  { unfold Commands.return_sessionLockErr, bind, get_sessionLockErr in H.
    destruct (sessionLockErr w16); inversion H; by subst. }
  apply store_loop in Hstore as (_ & _ & _ & _ & _ & Hstored).
  specialize (Hstored (NoDup_fst_map_to_list m)).
  apply download_last in Hdl as (d0 & s0 & s0' & Hd0 & Hm); [|done].
  apply elem_of_map_to_list in Hm. apply Hstored in Hm.
  assert (Hentry : map_at fd (sys w15) !! name a
                   = Some (VFilterDefinition (stored_definition a d0))).
  { unfold map_at in *. by rewrite Hheap. }
  exists config, (sys w5), dataPath, (sys w6), fd, (sys w7), dot, (sys w8), unlock,
    (sys w9), (sys w15).
  split; [done|]. split; [done|]. split; [done|]. split; [done|]. split; [done|].
  split; [by rewrite unlock_closure_sys, Hend|]. split; [by rewrite Hheap|].
  unfold persisted_version. rewrite Hentry. unfold stored_definition.
  destruct (is_keyword (version a)) eqn:Hkw; cbn [Version].
  - split; [done|]. split; [done|]. done.
  - split; [done|]. split; [intros _; eauto|].
    intros Hpin Hne. f_equal. by eapply Hpin.
Qed.

End Command_claims.


(** * The run pipeline and a profile name that is not a key *)

Section Unknown_profile_claims.

Variable cwd : string.
Variable LoadConfigAsMap : Sys → Res loc * Sys.
Variable ConfigFromObject : loc → Sys → Res Config * Sys.
Variable ExportProject : Profile → string → string → Sys → Res unit * Sys.

Local Abbreviation RunProfile :=
  (Pipeline.RunProfile cwd LoadConfigAsMap ConfigFromObject ExportProject).

(** C7. [RunProfile] does not reject a profile name that is not a key of
    the profile mapping: the lookup yields the zero profile, whose Check
    phase has nothing to check, and the run goes on to the Stage phase,
    whose first step cleans the workspace. The run fails only if staging,
    exporting or the final removal fails, with the error of that step, which
    does not name the profile; otherwise it exports and returns nil.
    ([runOrWatch] does reject such a name, see
    [runOrWatch_unknown_profile].) *)
Theorem unknown_profile_is_staged profileName w r w' cj s1 config s2 :
  LoadConfigAsMap (sys w) = (Ok cj, s1) →
  ConfigFromObject cj s1 = (Ok config, s2) →
  Profiles config !! profileName = None →
  RunProfile profileName w = (r, w') →
  ∃ ok t lg,
    grow w w'
      ([EvCall "LoadConfigAsMap" true; EvCall "ConfigFromObject" true;
        EvSys (SysRemoveAll ".regolith/tmp") ok] ++ t) lg ∧
    phase (EvSys (SysRemoveAll ".regolith/tmp") ok) = 2 ∧
    (r = Ok tt ∨
     ∃ cause,
       r = Err (WrapError cause "Unable to setup profile.") ∨
       r = Err (WrapError cause "Exporting project failed.") ∨
       r = Err (WrapError cause "Unable to clean .regolith/tmp/data directory.")) ∧
    (r = Ok tt → EvCall "ExportProject" true ∈ t).
Proof.
  intros HL HC Hnone Hrun.
  destruct (RunProfile_loaded cwd LoadConfigAsMap ConfigFromObject ExportProject
              profileName w r w' cj s1 config s2 HL HC Hrun) as (t & lg & Hg & Hout & _).
  unfold selected in Hout. rewrite Hnone in Hout. cbn in Hout.
  inversion Hout as [r0 t0 Hc Hr|e ts Hs|r0 ts t0 Hs Hr Hf|e ts Hs|e ts Hs|ts Hs]; subst.
  - inversion Hc as [|pre f post e Hl]; subst; [discriminate|].
    destruct pre; discriminate.
  - destruct Hs as (_ & ok & ts' & ->). exists ok, ts', lg.
    split; [exact Hg|]. split; [reflexivity|]. split; [|discriminate].
    right. exists e. by left.
  - inversion Hr as [|pre f post e Hl]; subst; [discriminate|].
    destruct pre; discriminate.
  - destruct Hs as (_ & ok & ts' & ->).
    exists ok, (ts' ++ [EvCall "ExportProject" false]), lg.
    split; [exact Hg|]. split; [reflexivity|]. split; [|discriminate].
    right. exists e. right. by left.
  - destruct Hs as (_ & ok & ts' & ->).
    exists ok, (ts' ++ [EvCall "ExportProject" true;
                        EvSys (SysRemoveAll ".regolith/tmp/data") false]), lg.
    split; [exact Hg|]. split; [reflexivity|]. split; [|discriminate].
    right. exists e. right. by right.
  - destruct Hs as (_ & ok & ts' & ->).
    exists ok, (ts' ++ [EvCall "ExportProject" true;
                        EvSys (SysRemoveAll ".regolith/tmp/data") true]), lg.
    split; [exact Hg|]. split; [reflexivity|]. split; [by left|].
    intros _. apply elem_of_app. right. by left.
Qed.

End Unknown_profile_claims.

(** * Runs of the concrete projects *)

(** A run of C7: the project has the profile [default] only, and the
    profile [release] is asked for. *)
Lemma unknown_profile_is_staged_witness :
  let profiles : gmap string Profile :=
    {[ "default" := Examples.profile_of [Examples.unmet "texture_list" false] ]} in
  let config := Examples.config_with "packs/RP" "" "" profiles in
  let v := Examples.machine Examples.no_fault in
  let run := Pipeline.RunProfile "/project" Examples.load (Examples.parse config)
               Examples.export "release" v in
  (Examples.load (sys v) = (Ok 1, sys v) ∧
   Examples.parse config 1 (sys v) = (Ok config, sys v) ∧
   Profiles config !! "release" = None ∧
   run = (run.1, run.2)) ∧
  run.1 = Ok tt ∧
  fs (sys run.2) !! ".regolith/tmp/RP/manifest.json" = Some (File "{}") ∧
  ∃ ok t lg,
    grow v run.2
      ([EvCall "LoadConfigAsMap" true; EvCall "ConfigFromObject" true;
        EvSys (SysRemoveAll ".regolith/tmp") ok] ++ t) lg ∧
    EvCall "ExportProject" true ∈ t.
Proof.
  intros profiles config v run.
  assert (H1 : Examples.load (sys v) = (Ok 1, sys v)) by reflexivity.
  assert (H2 : Examples.parse config 1 (sys v) = (Ok config, sys v)) by reflexivity.
  assert (H3 : Profiles config !! "release" = None) by (vm_compute; reflexivity).
  assert (H4 : run = (run.1, run.2)) by apply surjective_pairing.
  assert (Hr : run.1 = Ok tt) by (vm_compute; reflexivity).
  assert (Hfs : fs (sys run.2) !! ".regolith/tmp/RP/manifest.json" = Some (File "{}"))
    by (vm_compute; reflexivity).
  split; [exact (conj H1 (conj H2 (conj H3 H4)))|]. split; [exact Hr|].
  split; [exact Hfs|].
  destruct (unknown_profile_is_staged "/project" Examples.load (Examples.parse config)
              Examples.export "release" v run.1 run.2 1 (sys v) config (sys v)
              H1 H2 H3 H4) as (ok & t & lg & Hg & _ & _ & Hok).
  exists ok, t, lg. split; [exact Hg|]. exact (Hok Hr).
Defined.

(** C6. The release error of the session lock is not reported by a command
    that otherwise completes: with a lock whose release fails, each of
    [Install], [InstallAll], [Update], [UpdateAll], [runOrWatch] and [Tool]
    returns nil. The deferred closure does call [unlockSession] and assigns
    its error to [sessionLockErr], but only after the operand of
    [return sessionLockErr] was evaluated, and the result of the function is
    not a named one. *)
Theorem release_error_is_dropped :
  let w := Examples.project_machine in
  let dropped {A} (a : A) (run : Res A * World) : Prop :=
    run.1 = Ok a ∧
    sessionLockErr run.2 = Some Examples.release_error ∧
    last (trace run.2) = Some (EvCall "unlockSession" false) in
  dropped tt (Examples.Install ["github.com/x/shade==HEAD"] false false w) ∧
  dropped tt (Examples.InstallAll false false w) ∧
  dropped tt (Examples.Update ["lint"] false w) ∧
  dropped tt (Examples.UpdateAll false w) ∧
  dropped Returned (Examples.runOrWatch (Ok tt) true 1 "default" false false w) ∧
  dropped tt (Examples.Tool "lint" [] false w).
Proof.
  intros w dropped. unfold dropped.
  repeat match goal with |- _ ∧ _ => split end; vm_compute; reflexivity.
Qed.

(** A run of C5: [lint] is among the filter definitions of the project. *)
Lemma install_refuses_installed_filter_witness :
  let w := Examples.project_machine in
  let run := Examples.Install ["github.com/x/shade==1.0.0"; "github.com/x/lint"] false false w in
  run.1 = Err (WrappedError (Commands.already_installed "lint")) ∧
  sys run.2 = sys w.
Proof.
  intros w run.
  pose (shade := mkParsedArg "github.com/x/shade" "shade" "1.0.0").
  pose (lint := mkParsedArg "github.com/x/lint" "lint" "").
  assert (H1 : Examples.parse_requests ["github.com/x/shade==1.0.0"; "github.com/x/lint"]
               = Ok [shade; lint]) by (vm_compute; reflexivity).
  assert (H2 : Examples.load (sys w) = (Ok 1, sys w)) by reflexivity.
  assert (H3 : Examples.data_path 1 (sys w) = (Ok "packs/data", sys w))
    by (vm_compute; reflexivity).
  assert (H4 : Examples.filter_definitions 1 (sys w) = (Ok 2, sys w))
    by (vm_compute; reflexivity).
  assert (H5 : Examples.dot_regolith false "." (sys w) = (Ok ".regolith", sys w))
    by reflexivity.
  assert (H6 : Examples.acquire ".regolith" (sys w) = (Ok Examples.failing_unlock, sys w))
    by reflexivity.
  assert (H7 : lint ∈ [shade; lint]) by (apply list_elem_of_In; right; left; reflexivity).
  assert (H8 : is_Some (map_at 2 (sys w) !! name lint))
    by (exists (VString "local"); vm_compute; reflexivity).
  destruct (install_refuses_installed_filter "config.json" "git is not installed"
              "the session is locked" (λ _, true) Examples.parse_requests Examples.load
              Examples.data_path Examples.filter_definitions Examples.dot_regolith
              Examples.acquire (Examples.from_the_internet ["1.2.0"; "1.1.0"])
              Examples.create_runner Examples.install_filters Examples.marshal
              ["github.com/x/shade==1.0.0"; "github.com/x/lint"] false w
              [shade; lint] 1 (sys w) "packs/data" (sys w) 2 (sys w) ".regolith" (sys w)
              Examples.failing_unlock (sys w) lint H1 H2 H3 H4 H5 H6 H7 H8)
    as (a' & Hin & Hsome & Hr & Hs & _).
  split; [|exact Hs].
  apply list_elem_of_In in Hin. destruct Hin as [<-|[<-|[]]].
  - destruct Hsome as [x Hx]. vm_compute in Hx. discriminate.
  - exact Hr.
Defined.

(** The modelled [FilterDefinitionFromTheInternet] pins a version or commit
    hash that is given. *)
Lemma from_the_internet_pins tags :
  pins_given_version (Examples.from_the_internet tags).
Proof.
  intros u n version s d s' Hne Hkw. unfold Examples.from_the_internet.
  unfold is_keyword in Hkw. apply orb_false_iff in Hkw as [Hhead Hlatest].
  destruct (String.eqb_spec version "") as [|_]; [done|].
  rewrite Hhead, Hlatest. by intros [= <- _].
Qed.

(** A run of C8: four filters are requested, with the keyword HEAD, a
    version, no version and the keyword latest. The release of the lock
    fails and leaves the system as it is, so the run ends in the state in
    which the configuration was written. *)
Lemma install_keeps_version_keywords_witness :
  let w := Examples.project_machine in
  let requests :=
    ["github.com/x/shade==HEAD"; "github.com/x/blur==1.0.3"; "github.com/x/glow";
     "github.com/x/fog==latest"] in
  let run := Examples.Install requests false false w in
  run.1 = Ok tt ∧
  fs (sys run.2) !! "config.json" = Some (File (Examples.marshal (heap (sys run.2)) 1)) ∧
  persisted_version (map_at 2 (sys run.2)) "shade" = Some "HEAD" ∧
  persisted_version (map_at 2 (sys run.2)) "blur" = Some "1.0.3".
Proof.
  intros w requests run.
  pose (shade := mkParsedArg "github.com/x/shade" "shade" "HEAD").
  pose (blur := mkParsedArg "github.com/x/blur" "blur" "1.0.3").
  pose (glow := mkParsedArg "github.com/x/glow" "glow" "").
  pose (fog := mkParsedArg "github.com/x/fog" "fog" "latest").
  assert (H1 : Examples.parse_requests requests = Ok [shade; blur; glow; fog])
    by (vm_compute; reflexivity).
  assert (Hr : run.1 = Ok tt) by (vm_compute; reflexivity).
  assert (H4 : Examples.Install requests false false w = (Ok tt, run.2)).
  { rewrite <- Hr. apply surjective_pairing. }
  split; [exact Hr|].
  assert (Hchain : ∀ config sa dataPath sb fd sc dot sd unlock se s,
    Examples.load (sys w) = (Ok config, sa) →
    Examples.data_path config sa = (Ok dataPath, sb) →
    Examples.filter_definitions config sb = (Ok fd, sc) →
    Examples.dot_regolith false "." sc = (Ok dot, sd) →
    Examples.acquire dot sd = (Ok unlock, se) →
    sys run.2 = (unlock s).2 →
    config = 1 ∧ fd = 2 ∧ s = sys run.2).
  { intros config sa dataPath sb fd sc dot sd unlock se s HL Hdata Hfd Hdot Hlock Hend.
    injection HL as <- <-. vm_compute in Hdata. injection Hdata as _ <-.
    vm_compute in Hfd. injection Hfd as <- _.
    injection Hlock as <- _.
    split; [reflexivity|]. split; [reflexivity|]. symmetry. exact Hend. }
  assert (H2 : [shade; blur; glow; fog] = [] ++ shade :: [blur; glow; fog])
    by reflexivity.
  assert (H3 : name shade ∉ name <$> [blur; glow; fog]).
  { intros Hin. apply list_elem_of_In in Hin. vm_compute in Hin.
    destruct Hin as [?|[?|[?|[]]]]; discriminate. }
  destruct (install_keeps_version_keywords "config.json" "git is not installed"
              "the session is locked" (λ _, true) Examples.parse_requests Examples.load
              Examples.data_path Examples.filter_definitions Examples.dot_regolith
              Examples.acquire (Examples.from_the_internet ["1.2.0"; "1.1.0"])
              Examples.create_runner Examples.install_filters Examples.marshal
              requests false false w run.2 [shade; blur; glow; fog] [] shade
              [blur; glow; fog] H1 H2 H3 H4)
    as (config & sa & dataPath & sb & fd & sc & dot & sd & unlock & se & s
        & HL & Hdata & Hfd & Hdot & Hlock & Hend & Hfile & Hkeyword & _).
  destruct (Hchain _ _ _ _ _ _ _ _ _ _ _ HL Hdata Hfd Hdot Hlock Hend) as (-> & -> & Hs).
  rewrite <- Hs. split; [exact Hfile|]. split; [exact (Hkeyword eq_refl)|].
  assert (G2 : [shade; blur; glow; fog] = [shade] ++ blur :: [glow; fog])
    by reflexivity.
  assert (G3 : name blur ∉ name <$> [glow; fog]).
  { intros Hin. apply list_elem_of_In in Hin. vm_compute in Hin.
    destruct Hin as [?|[?|[]]]; discriminate. }
  destruct (install_keeps_version_keywords "config.json" "git is not installed"
              "the session is locked" (λ _, true) Examples.parse_requests Examples.load
              Examples.data_path Examples.filter_definitions Examples.dot_regolith
              Examples.acquire (Examples.from_the_internet ["1.2.0"; "1.1.0"])
              Examples.create_runner Examples.install_filters Examples.marshal
              requests false false w run.2 [shade; blur; glow; fog] [shade] blur
              [glow; fog] H1 G2 G3 H4)
    as (config & sa' & dataPath' & sb' & fd & sc' & dot' & sd' & unlock' & se' & s'
        & HL' & Hdata' & Hfd' & Hdot' & Hlock' & Hend' & _ & _ & _ & Hpinned).
  destruct (Hchain _ _ _ _ _ _ _ _ _ _ _ HL' Hdata' Hfd' Hdot' Hlock' Hend')
    as (-> & -> & Hs').
  rewrite Hs, <- Hs'.
  apply (Hpinned (from_the_internet_pins ["1.2.0"; "1.1.0"])). discriminate.
Defined.

(** Runs of C4: the behavior pack path of the project is a regular file;
    with that path left out of the configuration, staging returns nil and
    the data path, which does not exist, has its warning and its empty
    directory. *)
Lemma staging_of_missing_and_file_paths_witness :
  let profiles : gmap string Profile :=
    {[ "default" := Examples.profile_of [Examples.passing "texture_list" false] ]} in
  let v := Examples.machine Examples.no_fault in
  let config := Examples.config_with "packs/RP" "packs/BP" "packs/data" profiles in
  let checked :=
    Pipeline.CheckProfileImpl (selected config "default") "default" config None
      (loaded (sys v) (sys v) v) in
  let staged := Pipeline.SetupTmpFiles config (selected config "default") checked.2 in
  let config' := Examples.config_with "packs/RP" "" "packs/data" profiles in
  let checked' :=
    Pipeline.CheckProfileImpl (selected config' "default") "default" config' None
      (loaded (sys v) (sys v) v) in
  let staged' := Pipeline.SetupTmpFiles config' (selected config' "default") checked'.2 in
  (Examples.load (sys v) = (Ok 1, sys v) ∧
   Examples.parse config 1 (sys v) = (Ok config, sys v) ∧
   checked = (Ok tt, checked.2) ∧
   role_path config BP ≠ "" ∧
   outside (role_path config BP) ∧
   fault (sys checked.2) (SysStat (role_path config BP)) = None ∧
   staged = (staged.1, staged.2)) ∧
  is_ok staged.1 = false ∧
  is_ok (Pipeline.RunProfile "/project" Examples.load (Examples.parse config)
           Examples.export "default" v).1 = false ∧
  (missing (sys checked'.2) "packs/data" ∧
   (∀ c, fault (sys checked'.2) c = None) ∧
   (∀ ρ, stageable config' (sys checked'.2) ρ)) ∧
  staged'.1 = Ok tt ∧
  (Warn, "data folder " +:+ q "packs/data" +:+ " does not exist") ∈ log staged'.2 ∧
  fs (sys staged'.2) !! ".regolith/tmp/data" = Some Dir ∧
  ∀ k, String.prefix ".regolith/tmp/data/" k = true → fs (sys staged'.2) !! k = None.
Proof.
  intros profiles v config checked staged config' checked' staged'.
  assert (H1 : Examples.load (sys v) = (Ok 1, sys v)) by reflexivity.
  assert (H2 : Examples.parse config 1 (sys v) = (Ok config, sys v)) by reflexivity.
  assert (H3 : checked = (Ok tt, checked.2)) by (vm_compute; reflexivity).
  assert (H4 : role_path config BP ≠ "") by (vm_compute; discriminate).
  assert (H5 : outside (role_path config BP)) by (vm_compute; reflexivity).
  assert (H6 : fault (sys checked.2) (SysStat (role_path config BP)) = None)
    by (vm_compute; reflexivity).
  assert (H7 : staged = (staged.1, staged.2)) by apply surjective_pairing.
  assert (H8 : fs (sys checked.2) !! role_path config BP = Some (File "oops"))
    by (vm_compute; reflexivity).
  split; [exact (conj H1 (conj H2 (conj H3 (conj H4 (conj H5 (conj H6 H7))))))|].
  destruct (staging_of_missing_and_file_paths "/project" Examples.load
              (Examples.parse config) Examples.export config "default" BP v checked.2
              1 (sys v) (sys v) staged.1 staged.2 H1 H2 H3 H4 H5 H6 H7) as [_ Hfile].
  destruct (Hfile "oops" H8) as (cause & t & lg & Hr & Hrun & _).
  split; [rewrite Hr; reflexivity|]. split; [rewrite Hrun; reflexivity|].
  assert (G2 : Examples.parse config' 1 (sys v) = (Ok config', sys v)) by reflexivity.
  assert (G3 : checked' = (Ok tt, checked'.2)) by (vm_compute; reflexivity).
  assert (G4 : role_path config' data ≠ "") by (vm_compute; discriminate).
  assert (G5 : outside (role_path config' data)) by (vm_compute; reflexivity).
  assert (G6 : ∀ c, fault (sys checked'.2) c = None) by (intros c; reflexivity).
  assert (G7 : staged' = (staged'.1, staged'.2)) by apply surjective_pairing.
  assert (G8 : missing (sys checked'.2) "packs/data").
  { split; [vm_compute; reflexivity|].
    intros k Hk%list_elem_of_In. vm_compute in Hk.
    destruct Hk as [<-|[<-|[]]]; vm_compute; reflexivity. }
  assert (G9 : os.is_file_at (fs (sys checked'.2)) ".regolith" = false)
    by (vm_compute; reflexivity).
  assert (G10 : ∀ ρ, stageable config' (sys checked'.2) ρ).
  { intros [ | | ].
    - right. split; [vm_compute; reflexivity|]. right. vm_compute. reflexivity.
    - left. reflexivity.
    - right. split; [exact G5|]. left. exact G8. }
  split; [exact (conj G8 (conj G6 G10))|].
  destruct (staging_of_missing_and_file_paths "/project" Examples.load
              (Examples.parse config') Examples.export config' "default" data v checked'.2
              1 (sys v) (sys v) staged'.1 staged'.2 H1 G2 G3 G4 G5 (G6 _) G7)
    as [Habsent _].
  destruct (Habsent G8) as (_ & _ & Hplain).
  exact (Hplain G6 G9 G10).
Defined.

(** A run of C3: a profile of an enabled and a disabled runner, on a
    project without a data directory. *)
Lemma pipeline_phases_in_order_witness :
  let profiles : gmap string Profile :=
    {[ "default" := Examples.profile_of
         [Examples.passing "texture_list" false; Examples.passing "lint" true] ]} in
  let config := Examples.config_with "packs/RP" "" "" profiles in
  let v := Examples.machine Examples.no_fault in
  let run := Pipeline.RunProfile "/project" Examples.load (Examples.parse config)
               Examples.export "default" v in
  (Examples.load (sys v) = (Ok 1, sys v) ∧
   Examples.parse config 1 (sys v) = (Ok config, sys v) ∧
   run = (run.1, run.2)) ∧
  run.1 = Ok tt ∧
  ∃ t lg,
    grow v run.2
      ([EvCall "LoadConfigAsMap" true; EvCall "ConfigFromObject" true] ++ t) lg ∧
    StronglySorted phase_order t ∧
    EvCall "ExportProject" true ∈ t.
Proof.
  intros profiles config v run.
  assert (H1 : Examples.load (sys v) = (Ok 1, sys v)) by reflexivity.
  assert (H2 : Examples.parse config 1 (sys v) = (Ok config, sys v)) by reflexivity.
  assert (H3 : run = (run.1, run.2)) by apply surjective_pairing.
  assert (Hr : run.1 = Ok tt) by (vm_compute; reflexivity).
  split; [exact (conj H1 (conj H2 H3))|]. split; [exact Hr|].
  destruct (pipeline_phases_in_order "/project" Examples.load (Examples.parse config)
              Examples.export "default" v run.1 run.2 1 (sys v) config (sys v) H1 H2 H3)
    as (t & lg & Hg & Hsorted & _ & _ & _ & _ & _ & Hok).
  exists t, lg. split; [exact Hg|]. split; [exact Hsorted|]. exact (proj1 (Hok Hr)).
Defined.

(** A run of C2: the disabled runner of the profile has an unmet
    prerequisite. *)
Lemma disabled_runners_are_checked_witness :
  let lint := Examples.unmet "lint" true in
  let profile := Examples.profile_of [Examples.passing "texture_list" false; lint] in
  let config := Examples.config_with "packs/RP" "" "" {[ "default" := profile ]} in
  let v := Examples.machine Examples.no_fault in
  let run := Pipeline.RunProfile "/project" Examples.load (Examples.parse config)
               Examples.export "default" v in
  is_ok run.1 = false ∧
  trace run.2 =
    [EvCall "LoadConfigAsMap" true; EvCall "ConfigFromObject" true;
     EvCheck 0 "texture_list" true; EvCheck 1 "lint" false].
Proof.
  intros lint profile config v run.
  destruct (disabled_runners_are_checked "/project" Examples.load (Examples.parse config)
              Examples.export profile "default" config None) as (_ & _ & H).
  assert (Hin : lint ∈ Filters profile).
  { apply list_elem_of_In. right. left. reflexivity. }
  assert (Hd : IsDisabled lint = true) by reflexivity.
  assert (Hfail : ∀ ctx s, is_ok (runner_Check lint ctx s).1 = false)
    by (intros; reflexivity).
  destruct (H lint Hin Hd Hfail) as [_ Hrun].
  assert (H1 : Examples.load (sys v) = (Ok 1, sys v)) by reflexivity.
  assert (H2 : Examples.parse config 1 (sys v) = (Ok config, sys v)) by reflexivity.
  assert (H3 : selected config "default" = profile) by (vm_compute; reflexivity).
  assert (H4 : run = (run.1, run.2)) by apply surjective_pairing.
  destruct (Hrun v run.1 run.2 1 (sys v) (sys v) H1 H2 H3 H4) as [Hr _].
  split; [exact Hr|]. vm_compute. reflexivity.
Defined.

(** * Further results *)

(** ** Sub-filters of a remote filter *)

Section Subfilter_results.

Variable json_Unmarshal : string → Res (gmap string json).
Variable FilterInstallerFromObject : string → gmap string json → Res FilterInstaller.
Variable CopyArguments : FilterRunner → RemoteFilter → FilterRunner.

Local Abbreviation subfilters :=
  (Pipeline.subfilters FilterInstallerFromObject CopyArguments).
Local Abbreviation SubfilterCollection :=
  (Pipeline.SubfilterCollection json_Unmarshal FilterInstallerFromObject CopyArguments).
Local Abbreviation resolves := (resolves_to FilterInstallerFromObject).

Lemma subfilters_all_local f path filters :
  ∀ i acc,
    (∀ j entry, filters !! j = Some entry →
       ∃ runner, resolves f (i + j) entry runner ∧ as_RemoteFilter runner = None) →
    ∃ runners,
      subfilters f path i filters acc = Ok (acc ++ runners) ∧
      length runners = length filters ∧
      ∀ j entry, filters !! j = Some entry →
        ∃ runner, resolves f (i + j) entry runner ∧
                  runners !! j = Some (CopyArguments runner f).
Proof.
  induction filters as [|first rest IH]; intros i acc Hall.
  - exists []. rewrite app_nil_r. by split.
  - destruct (Hall 0 first eq_refl) as (runner0 & Hres0 & Hloc0).
    rewrite Nat.add_0_r in Hres0.
    rewrite (subfilters_local FilterInstallerFromObject CopyArguments
               _ _ _ _ _ _ _ Hres0 Hloc0).
    destruct (IH (S i) (acc ++ [CopyArguments runner0 f])) as (runners & -> & Hlen & Hnth).
    { intros j entry Hj. replace (S i + j) with (i + S j) by lia. by apply (Hall (S j)). }
    exists (CopyArguments runner0 f :: runners). split; [by rewrite <- app_assoc|].
    split; [cbn; by rewrite Hlen|].
    intros [|j] entry Hj; cbn in Hj.
    + injection Hj as <-. exists runner0. by rewrite Nat.add_0_r.
    + replace (i + S j) with (S i + j) by lia. by apply Hnth.
Qed.

(** When every entry of the descriptor resolves to a runner that is not a
    remote filter, [SubfilterCollection] returns a collection with one
    runner for each entry, in the order of the entries: the runner the
    entry resolves to, with the arguments of the parent copied into it. It
    has done nothing but read the descriptor. *)
Theorem subfilter_collection_of_local_entries (f : RemoteFilter) (w : World)
    (file : string) (descriptor : gmap string json) (filters : list json) :
  fault (sys w) (SysReadFile (Pipeline.filepath_Join (GetDownloadPath f) "filter.json")) = None →
  fs (sys w) !! Pipeline.filepath_Join (GetDownloadPath f) "filter.json" = Some (File file) →
  json_Unmarshal file = Ok descriptor →
  descriptor !! "filters" = Some (JArray filters) →
  (∀ j entry, filters !! j = Some entry →
     ∃ runner, resolves f j entry runner ∧ as_RemoteFilter runner = None) →
  ∃ collection,
    SubfilterCollection f w
    = (Ok collection,
       add_event
         (EvSys (SysReadFile (Pipeline.filepath_Join (GetDownloadPath f) "filter.json")) true)
         w) ∧
    length (Filters collection) = length filters ∧
    ∀ j entry, filters !! j = Some entry →
      ∃ runner, resolves f j entry runner ∧
                Filters collection !! j = Some (CopyArguments runner f).
Proof.
  intros Hf Hfile Hjson Hfilters Hall.
  set (path := Pipeline.filepath_Join (GetDownloadPath f) "filter.json") in *.
  destruct (subfilters_all_local f path filters 0 [] Hall) as (runners & Hsub & Hlen & Hnth).
  exists (mkFilterCollection runners). split; [|by split].
  unfold Pipeline.SubfilterCollection. fold path.
  unfold bind at 1. unfold or_return at 1.
  unfold os.ReadFile, os.failing, traced. rewrite Hf, Hfile. cbn [is_ok].
  unfold bind at 1. unfold or_return at 1. rewrite Hjson. cbn [lift_res ret].
  rewrite Hfilters. unfold bind. by rewrite Hsub.
Qed.

Lemma subfilters_unresolved f path filters :
  ∀ i0 acc k entry,
    filters !! k = Some entry →
    (∀ runner, ¬ resolves f (i0 + k) entry runner) →
    (∀ j entry', j < k → filters !! j = Some entry' →
        ∃ runner', resolves f (i0 + j) entry' runner' ∧ as_RemoteFilter runner' = None) →
    ∃ e, subfilters f path i0 filters acc = Err e ∧
      (e = WrappedError
             ("Could not parse filter " +:+ v (i0 + k) +:+ " of " +:+ q path +:+ ".") ∨
       ∃ cause, e = WrapError cause
             ("Could not parse filter " +:+ v (i0 + k) +:+ " of " +:+ q path +:+ ".")).
Proof.
  induction filters as [|first rest IH]; intros i0 acc k entry Hk Hno Hbefore; [done|].
  destruct k as [|k]; cbn in Hk.
  - injection Hk as ->. rewrite Nat.add_0_r in *.
    cbn [Pipeline.subfilters]. cbn zeta.
    destruct entry as [| | | | |filter]; try (eexists; split; [reflexivity|by left]).
    destruct (FilterInstallerFromObject _ filter) as [installer|cause] eqn:Hi;
      [|eexists; split; [reflexivity|right; by eexists]].
    destruct (CreateFilterRunner installer _) as [runner|cause] eqn:Hr;
      [|eexists; split; [reflexivity|right; by eexists]].
    destruct (Hno runner). by exists filter, installer.
  - destruct (Hbefore 0 first) as (runner0 & Hres0 & Hloc0); [lia|done|].
    rewrite Nat.add_0_r in Hres0.
    rewrite (subfilters_local FilterInstallerFromObject CopyArguments
               _ _ _ _ _ _ _ Hres0 Hloc0).
    replace (i0 + S k) with (S i0 + k) in * by lia.
    apply (IH (S i0) _ k entry Hk Hno).
    intros j entry' Hj Hj'. replace (S i0 + j) with (i0 + S j) by lia.
    apply (Hbefore (S j)); [lia|done].
Qed.

(** An entry of the descriptor that does not resolve to a runner (it is
    not an object, or the installer or the runner cannot be made of it),
    when every entry before it resolves to a runner that is not a remote
    filter, makes [SubfilterCollection] fail with the error that names the
    index of the entry and the path of the descriptor. *)
Theorem unparsable_subfilter_is_reported (f : RemoteFilter) (w : World)
    (file : string) (descriptor : gmap string json) (filters : list json)
    (i : nat) (entry : json) :
  fault (sys w) (SysReadFile (Pipeline.filepath_Join (GetDownloadPath f) "filter.json")) = None →
  fs (sys w) !! Pipeline.filepath_Join (GetDownloadPath f) "filter.json" = Some (File file) →
  json_Unmarshal file = Ok descriptor →
  descriptor !! "filters" = Some (JArray filters) →
  filters !! i = Some entry →
  (∀ runner, ¬ resolves f i entry runner) →
  (∀ j entry', j < i → filters !! j = Some entry' →
     ∃ runner', resolves f j entry' runner' ∧ as_RemoteFilter runner' = None) →
  ∃ e, (SubfilterCollection f w).1 = Err e ∧
    (e = WrappedError
           ("Could not parse filter " +:+ v i +:+ " of "
            +:+ q (Pipeline.filepath_Join (GetDownloadPath f) "filter.json") +:+ ".") ∨
     ∃ cause, e = WrapError cause
           ("Could not parse filter " +:+ v i +:+ " of "
            +:+ q (Pipeline.filepath_Join (GetDownloadPath f) "filter.json") +:+ ".")).
Proof.
  intros Hf Hfile Hjson Hfilters Hi Hno Hbefore.
  set (path := Pipeline.filepath_Join (GetDownloadPath f) "filter.json") in *.
  destruct (subfilters_unresolved f path filters 0 [] i entry Hi Hno Hbefore)
    as (e & Hsub & He).
  exists e. split; [|exact He].
  unfold Pipeline.SubfilterCollection. fold path.
  unfold bind at 1. unfold or_return at 1.
  unfold os.ReadFile, os.failing, traced. rewrite Hf, Hfile. cbn [is_ok].
  unfold bind at 1. unfold or_return at 1. rewrite Hjson. cbn [lift_res ret].
  rewrite Hfilters. unfold bind. by rewrite Hsub.
Qed.

Lemma subfilters_length f path filters :
  ∀ i acc res,
    subfilters f path i filters acc = Ok res →
    length res = length acc + length filters.
Proof.
  induction filters as [|first rest IH]; intros i acc res.
  - intros [= <-]. cbn. lia.
  - cbn [Pipeline.subfilters]. cbn zeta.
    destruct first; try done.
    destruct (FilterInstallerFromObject _ _); [|done].
    destruct (CreateFilterRunner _ _); [|done].
    destruct (as_RemoteFilter _); [done|].
    intros H%IH. rewrite H, length_app. cbn. lia.
Qed.

(** [SubfilterCollection] only reads: whatever it returns, it has issued
    the one read of the descriptor and left the file tree, the heap and the
    log as they were. When the read fails, so does the function, with the
    error of the read as cause; a descriptor that is not JSON, or that
    has no array under ["filters"], is an error too. *)
Theorem subfilter_collection_only_reads (f : RemoteFilter) (w : World) r w' :
  SubfilterCollection f w = (r, w') →
  ∃ ok,
    w' = add_event
           (EvSys (SysReadFile (Pipeline.filepath_Join (GetDownloadPath f) "filter.json")) ok)
           w ∧
    (ok = false →
     ∃ cause, r = Err (WrapError cause
       ("Couldn't read "
        +:+ q (Pipeline.filepath_Join (GetDownloadPath f) "filter.json") +:+ "."))) ∧
    (∀ collection, r = Ok collection →
       ∃ file descriptor filters,
         fs (sys w) !! Pipeline.filepath_Join (GetDownloadPath f) "filter.json"
           = Some (File file) ∧
         json_Unmarshal file = Ok descriptor ∧
         descriptor !! "filters" = Some (JArray filters) ∧
         length (Filters collection) = length filters).
Proof.
  set (path := Pipeline.filepath_Join (GetDownloadPath f) "filter.json") in *.
  unfold Pipeline.SubfilterCollection. fold path.
  intros [(e & H & ->)|(file & w1 & H & Hrest)]%bind_inv.
  - apply orelse_inv in H as [(? & _ & ?)|(cause & H & [= ->])]; [done|].
    apply failing_inv in H as (w0 & -> & [(e0 & _ & _ & ->)|(_ & H)]).
    + exists false. split; [done|]. split; [eauto|done].
    + exists false. split.
      * destruct (fs (sys w) !! path) as [[|c]|]; by injection H as _ <-.
      * split; [eauto|done].
  - apply orelse_inv in H as [(? & H & [= <-])|(? & _ & ?)]; [|done].
    apply failing_inv in H as (w0 & -> & [(e0 & _ & ? & _)|(_ & H)]); [done|].
    destruct (fs (sys w) !! path) as [[|c]|] eqn:Hfile; try done.
    injection H as -> <-. cbn [is_ok].
    exists true. split.
    + apply bind_inv in Hrest as [(e & H & _)|(d & w2 & H & Hrest)].
      * apply orelse_inv in H as [(? & _ & ?)|(cause & H & _)]; [done|].
        destruct (json_Unmarshal file); by injection H as _ <-.
      * apply orelse_inv in H as [(? & H & [= <-])|(? & _ & ?)]; [|done].
        destruct (json_Unmarshal file); [|done]. injection H as _ <-.
        destruct (d !! "filters") as [[| | | |filters|]|]; try by injection Hrest as _ <-.
        apply bind_inv in Hrest as [(e & H & _)|(res & w3 & H & Hrest)].
        -- destruct (subfilters f path 0 filters []); by injection H as _ <-.
        -- destruct (subfilters f path 0 filters []); [|done]. injection H as _ <-.
           by injection Hrest as _ <-.
    + split; [done|]. intros collection ->.
      apply bind_inv in Hrest as [(e & _ & ?)|(d & w2 & H & Hrest)]; [done|].
      apply orelse_inv in H as [(? & H & [= <-])|(? & _ & ?)]; [|done].
      destruct (json_Unmarshal file) as [d'|] eqn:Hjson; [|done]. injection H as -> _.
      destruct (d !! "filters") as [[| | | |filters|]|] eqn:Hfilters; try done.
      apply bind_inv in Hrest as [(e & _ & ?)|(res & w3 & H & Hrest)]; [done|].
      destruct (subfilters f path 0 filters []) as [res'|] eqn:Hsub; [|done].
      injection H as -> _. injection Hrest as <- _.
      exists file, d, filters. repeat split; try done.
      by apply subfilters_length in Hsub.
Qed.

End Subfilter_results.

Lemma subfilter_collection_of_local_entries_witness :
  ∃ collection,
    (Pipeline.SubfilterCollection Fixtures.unmarshal Examples.installer_from
       Examples.copy_arguments Examples.parent
       (Fixtures.cache_with Fixtures.local_descriptor_text)).1 = Ok collection ∧
    GetId <$> Filters collection = ["name_ninja:subfilter0"; "name_ninja:subfilter1"] ∧
    runner_Arguments <$> Filters collection = [["--fast"]; ["--fast"]].
Proof.
  set (w := Fixtures.cache_with Fixtures.local_descriptor_text).
  set (first := {[ "runWith" := JString "python" ]} : gmap string json).
  set (second := {[ "runWith" := JString "nodejs" ]} : gmap string json).
  destruct (subfilter_collection_of_local_entries Fixtures.unmarshal Examples.installer_from
              Examples.copy_arguments Examples.parent w Fixtures.local_descriptor_text
              Fixtures.local_descriptor [JObject first; JObject second])
    as (collection & Hrun & Hlen & Hnth).
  - reflexivity.
  - vm_compute. reflexivity.
  - vm_compute. reflexivity.
  - vm_compute. reflexivity.
  - intros [|[|j]] entry Hj; cbn in Hj; [| |done]; injection Hj as <-.
    + exists (Examples.runner_from "name_ninja:subfilter0"
                (<["filter" := JString "name_ninja:subfilter0"]> first)).
      split; [|vm_compute; reflexivity].
      exists first, (mkFilterInstaller None
                       (λ c, Ok (Examples.runner_from "name_ninja:subfilter0" c))).
      repeat split.
    + exists (Examples.runner_from "name_ninja:subfilter1"
                (<["filter" := JString "name_ninja:subfilter1"]> second)).
      split; [|vm_compute; reflexivity].
      exists second, (mkFilterInstaller None
                       (λ c, Ok (Examples.runner_from "name_ninja:subfilter1" c))).
      repeat split.
  - exists collection. rewrite Hrun. split; [reflexivity|].
    injection Hrun as Hc. rewrite <- Hc. split; vm_compute; reflexivity.
Defined.

Lemma unparsable_subfilter_is_reported_witness :
  (Pipeline.SubfilterCollection Fixtures.unmarshal Examples.installer_from
     Examples.copy_arguments Examples.parent
     (Fixtures.cache_with Fixtures.broken_descriptor_text)).1
  = Err (WrappedError
      ("Could not parse filter 1 of "
       +:+ q ".regolith/cache/filters/name_ninja/filter.json" +:+ ".")).
Proof.
  set (w := Fixtures.cache_with Fixtures.broken_descriptor_text).
  set (first := {[ "runWith" := JString "python" ]} : gmap string json).
  destruct (unparsable_subfilter_is_reported Fixtures.unmarshal Examples.installer_from
              Examples.copy_arguments Examples.parent w Fixtures.broken_descriptor_text
              Fixtures.broken_descriptor [JObject first; JNumber 7] 1 (JNumber 7))
    as (e & Hrun & [->|[cause ->]]).
  - reflexivity.
  - vm_compute. reflexivity.
  - vm_compute. reflexivity.
  - vm_compute. reflexivity.
  - reflexivity.
  - intros runner (filter & _ & Hentry & _). discriminate Hentry.
  - intros [|j] entry Hj Hentry; [|lia]. injection Hentry as <-.
    exists (Examples.runner_from "name_ninja:subfilter0"
              (<["filter" := JString "name_ninja:subfilter0"]> first)).
    split; [|vm_compute; reflexivity].
    exists first, (mkFilterInstaller None
                     (λ c, Ok (Examples.runner_from "name_ninja:subfilter0" c))).
    repeat split.
  - exact Hrun.
  - exfalso. revert Hrun. vm_compute. discriminate.
Defined.

Lemma subfilter_collection_only_reads_witness :
  let w := Fixtures.cache_with "not json" in
  let run := Pipeline.SubfilterCollection Fixtures.unmarshal Examples.installer_from
               Examples.copy_arguments Examples.parent w in
  is_ok run.1 = false ∧
  ∃ ok, run.2
        = add_event
            (EvSys (SysReadFile ".regolith/cache/filters/name_ninja/filter.json") ok) w.
Proof.
  intros w run.
  destruct (subfilter_collection_only_reads Fixtures.unmarshal Examples.installer_from
              Examples.copy_arguments Examples.parent w run.1 run.2
              (surjective_pairing run)) as (ok & Hw & _).
  split; [vm_compute; reflexivity|]. exists ok. exact Hw.
Defined.

(** ** Staging: what is copied and what is left alone *)

Lemma strip_app src rest : below rest = true → os.strip src (src +:+ rest) = Some rest.
Proof.
  intros Hb. induction src as [|a src IH].
  - change ("" +:+ rest) with rest. destruct rest as [|c rest]; [done|].
    cbn in *. by rewrite Hb.
  - rewrite append_cons. cbn. by rewrite Ascii.eqb_refl.
Qed.

Lemma strip_Some src k rest : os.strip src k = Some rest → k = src +:+ rest.
Proof.
  revert k. induction src as [|a src IH]; intros [|b k]; cbn; try done.
  - by intros [= <-].
  - destruct (Ascii.eqb b "/"); [|done]. by intros [= <-].
  - destruct (Ascii.eqb_spec a b) as [->|]; [|done].
    intros H%IH. rewrite append_cons. by rewrite H.
Qed.

Lemma append_inj_r (a b c : string) : a +:+ b = a +:+ c → b = c.
Proof.
  induction a as [|x a IH]; [done|]. rewrite !append_cons. intros [= H]. by apply IH.
Qed.

(** What [copy_tree] leaves at a path at or below the destination. *)
Lemma lookup_copy_tree_moved (src dst rest : string) (f : gmap string node) :
  below rest = true →
  os.copy_tree src dst f !! (dst +:+ rest)
  = match f !! (src +:+ rest) with
    | Some n => Some n
    | None => f !! (dst +:+ rest)
    end.
Proof.
  intros Hb. unfold os.copy_tree. cbn zeta.
  set (moved := omap _ (map_to_list f)).
  assert (Hmoved : ∀ n, (dst +:+ rest, n) ∈ moved ↔ f !! (src +:+ rest) = Some n).
  { intros n. unfold moved. rewrite list_elem_of_omap. split.
    - intros ([k0 n0] & Hin & Hsome). cbn in Hsome.
      destruct (os.strip src k0) as [rest0|] eqn:Hs; [|done].
      injection Hsome as Hk <-. apply append_inj_r in Hk as ->.
      apply strip_Some in Hs as ->. by apply elem_of_map_to_list.
    - intros Hn. exists (src +:+ rest, n). split; [by apply elem_of_map_to_list|].
      cbn. by rewrite strip_app. }
  destruct (f !! (src +:+ rest)) as [n|] eqn:Hn.
  - apply lookup_union_Some_l.
    destruct (list_to_map moved !! (dst +:+ rest)) as [n'|] eqn:Hl.
    + apply elem_of_list_to_map_2 in Hl. apply Hmoved in Hl. congruence.
    + apply not_elem_of_list_to_map_2 in Hl. destruct Hl.
      apply list_elem_of_fmap. exists (dst +:+ rest, n). split; [done|].
      by apply Hmoved.
  - apply lookup_union_r.
    destruct (list_to_map moved !! (dst +:+ rest)) as [n'|] eqn:Hl; [|done].
    apply elem_of_list_to_map_2 in Hl. apply Hmoved in Hl. congruence.
Qed.

Lemma Copy_Ok src dst w w' :
  os.Copy src dst w = (Ok tt, w') →
  fs (sys w') = os.copy_tree src dst (os.mkdirs (os.dirs_of dst) (fs (sys w))).
Proof.
  unfold os.Copy.
  intros (w1 & -> & [(e & _ & ? & _)|[_ H]])%failing_inv; [done|].
  destruct (fs (sys w) !! src); [|done]. by injection H as <-.
Qed.

(** A path that does not begin with [p], a name without separators, does
    not begin with it when it is extended below either. *)
Lemma prefix_app_below p :
  no_separator p = true →
  ∀ src rest, String.prefix p src = false → below rest = true →
  String.prefix p (src +:+ rest) = false.
Proof.
  induction p as [|a p IH]; intros Hp src rest Hs Hb.
  - by destruct src.
  - cbn in Hp. apply andb_true_iff in Hp as [Ha Hp]. apply negb_true_iff in Ha.
    destruct src as [|b src].
    + change ("" +:+ rest) with rest. destruct rest as [|c rest]; [done|].
      cbn in Hb. apply Ascii.eqb_eq in Hb as ->. cbn.
      destruct (ascii_dec a "/") as [->|]; [|done]. by rewrite Ascii.eqb_refl in Ha.
    + rewrite append_cons. cbn in *. destruct (ascii_dec a b); [|done]. by apply IH.
Qed.

Lemma outside_below src rest : outside src → below rest = true → outside (src +:+ rest).
Proof. intros Ho Hb. by apply (prefix_app_below ".regolith"). Qed.

(** The role steps leave alone every path that is not in the slot of one of
    their roles. *)
Lemma stage_roles_frame (config : Config) ρs k :
  (∀ w r w', k w = (r, w') → fs (sys w') = fs (sys w) ∧ ∃ l, step w w' [] l) →
  ∀ w r w',
    stage_roles config ρs k w = (r, w') →
    (∃ t l, step w w' t l) ∧
    ∀ key,
      (∀ ρ', ρ' ∈ ρs → (key ∉ os.dirs_of (workspace_dir ρ')) ∧
                        String.prefix (workspace_dir ρ') key = false) →
      fs (sys w') !! key = fs (sys w) !! key.
Proof.
  intros Hk. induction ρs as [|ρ' ρs IH]; intros w r w' H; cbn [stage_roles] in H.
  - apply Hk in H as (Hfs & l & Hs). split; [eauto|]. intros key _. by rewrite Hfs.
  - apply bind_inv in H as [(e' & H & ->)|([] & w1 & H & Hrest)].
    + apply stage_role_frame in H as (t & l & Hs & _ & Hfr & _). split; [eauto|].
      intros key Hkey. destruct (Hkey ρ'); [left|]. by apply Hfr.
    + apply stage_role_frame in H as (t & l & Hs & _ & Hfr & _).
      apply IH in Hrest as ((t' & l' & Hs') & Hfr'). split.
      * eexists _, _. exact (step_trans _ _ _ _ _ _ _ Hs Hs').
      * intros key Hkey. rewrite Hfr'.
        -- destruct (Hkey ρ'); [left|]. by apply Hfr.
        -- intros ρ'' Hin. apply Hkey. by right.
Qed.

Lemma done_keeps w r w' :
  (Logger Debug "Setup done in " ;; ret tt) w = (r, w') →
  fs (sys w') = fs (sys w) ∧ ∃ l, step w w' [] l.
Proof. intros (_ & Hfs & Hs)%done_inv. eauto. Qed.

(** [SetupTmpFiles] writes nothing outside the cache directory: whatever
    it returns, every path that does not begin with [.regolith] holds what
    it held before, and the heap is untouched. *)
Theorem staging_keeps_the_sources (config : Config) (profile : Profile) w r w' :
  Pipeline.SetupTmpFiles config profile w = (r, w') →
  (∀ k, outside k → fs (sys w') !! k = fs (sys w) !! k) ∧
  heap (sys w') = heap (sys w).
Proof.
  assert (Hout : ∀ k, outside k → os.under ".regolith/tmp" k = false).
  { intros k Hk. destruct (os.under ".regolith/tmp" k) eqn:E; [|done].
    apply under_prefix in E. change ".regolith/tmp" with (".regolith" +:+ "/tmp") in E.
    apply prefix_app_l in E. unfold outside in Hk. congruence. }
  assert (Hnot : ∀ k, outside k → k ∉ os.dirs_of ".regolith/tmp").
  { intros k Hk Hin%list_elem_of_In. vm_compute in Hin.
    destruct Hin as [<-|[<-|[]]]; vm_compute in Hk; done. }
  rewrite SetupTmpFiles_unfold.
  intros [(e & Hl & _)|([] & w0 & Hl & H)]%bind_inv.
  { apply Logger_inv in Hl as (? & _). done. }
  apply Logger_inv in Hl as (_ & Hfs0 & Hs0).
  apply bind_inv in H as [(e & Hc & ->)|([] & wa & Hc & H)].
  { apply orelse_inv in Hc as [(? & _ & ?)|(e0 & Hc & _)]; [done|].
    apply RemoveAll_inv in Hc as (Hs & Hfr & _). split.
    - intros k Hk. rewrite Hfr, Hfs0; auto.
    - by rewrite (step_heap _ _ _ _ Hs), (step_heap _ _ _ _ Hs0). }
  apply orelse_inv in Hc as [([] & Hc & _)|(? & _ & ?)]; [|done].
  apply RemoveAll_inv in Hc as (Hsa & Hfra & _).
  apply bind_inv in H as [(e & Hc & ->)|([] & wb & Hc & H)].
  { apply orelse_inv in Hc as [(? & _ & ?)|(e0 & Hc & _)]; [done|].
    apply MkdirAll_inv in Hc as (Hs & Hfr & _). split.
    - intros k Hk. rewrite Hfr, Hfra, Hfs0; auto.
    - by rewrite (step_heap _ _ _ _ Hs), (step_heap _ _ _ _ Hsa),
        (step_heap _ _ _ _ Hs0). }
  apply orelse_inv in Hc as [([] & Hc & _)|(? & _ & ?)]; [|done].
  apply MkdirAll_inv in Hc as (Hsb & Hfrb & _).
  apply bind_inv in H as [(e & Hl & _)|([] & w1 & Hl & H)].
  { apply Logger_inv in Hl as (? & _). done. }
  apply Logger_inv in Hl as (_ & Hfs1 & Hs1).
  apply (stage_roles_frame config _ _ done_keeps) in H as ((t & l & Hs) & Hfr). split.
  - intros k Hk. rewrite Hfr, Hfs1, Hfrb, Hfra, Hfs0; auto.
    intros ρ' _. by apply outside_apart.
  - by rewrite (step_heap _ _ _ _ Hs), (step_heap _ _ _ _ Hs1), (step_heap _ _ _ _ Hsb),
      (step_heap _ _ _ _ Hsa), (step_heap _ _ _ _ Hs0).
Qed.

(** A successful run of the role steps, split at the step of [ρ]: the steps
    before it leave alone the paths outside the cache and the slot of [ρ],
    and the steps after it leave the slot alone. *)
Lemma stage_roles_through (config : Config) ρ ρs k :
  (∀ w r w', k w = (r, w') → fs (sys w') = fs (sys w) ∧ ∃ l, step w w' [] l) →
  ∀ w w',
    NoDup ρs → ρ ∈ ρs →
    stage_roles config ρs k w = (Ok tt, w') →
    ∃ w0 w1,
      (∃ t l, step w w0 t l) ∧
      (∀ key, outside key ∨ String.prefix (workspace_dir ρ +:+ "/") key = true →
              fs (sys w0) !! key = fs (sys w) !! key) ∧
      stage_role config ρ w0 = (Ok tt, w1) ∧
      (∀ key, String.prefix (workspace_dir ρ) key = true →
              fs (sys w') !! key = fs (sys w1) !! key).
Proof.
  intros Hk. induction ρs as [|ρ' ρs IH]; intros w w' Hnd Hin H; cbn [stage_roles] in H.
  - by apply elem_of_nil in Hin.
  - apply NoDup_cons in Hnd as [Hnin Hnd].
    apply bind_inv in H as [(e' & _ & ?)|([] & w1 & H & Hrest)]; [done|].
    destruct (role_eqb ρ' ρ) eqn:E.
    + apply role_eqb_eq in E as ->. exists w, w1.
      split; [exists [], []; split; by rewrite ?app_nil_r|].
      split; [done|]. split; [done|].
      apply (stage_roles_frame config _ _ Hk) in Hrest as (_ & Hfr).
      intros key Hkey. apply Hfr. intros ρ'' Hρ''.
      apply (slot_apart ρ ρ'' key); [|done]. intros ->. done.
    + apply elem_of_cons in Hin as [->|Hin].
      { by rewrite (proj2 (role_eqb_eq ρ' ρ')) in E. }
      assert (ρ ≠ ρ') as Hne.
      { intros ->. by rewrite (proj2 (role_eqb_eq ρ' ρ')) in E. }
      apply stage_role_frame in H as (t & l & Hs & _ & Hfr & _).
      destruct (IH w1 w' Hnd Hin Hrest) as (w0 & w2 & (t' & l' & Hs') & Hfr' & Hrole & Hafter).
      exists w0, w2. split; [eexists _, _; exact (step_trans _ _ _ _ _ _ _ Hs Hs')|].
      split; [|by split].
      intros key Hkey. rewrite Hfr' by done.
      destruct Hkey as [Hkey|Hkey].
      * destruct (outside_apart ρ' _ Hkey). by apply Hfr.
      * apply prefix_app_l in Hkey. destruct (slot_apart ρ ρ' key Hne Hkey).
        by apply Hfr.
Qed.

(** [SetupTmpFiles] that returns nil, up to the step of the role [ρ]. *)
Lemma SetupTmpFiles_Ok_role (config : Config) (profile : Profile) ρ w w' :
  Pipeline.SetupTmpFiles config profile w = (Ok tt, w') →
  ∃ w0 w1,
    fault (sys w0) = fault (sys w) ∧
    (∀ key, outside key → fs (sys w0) !! key = fs (sys w) !! key) ∧
    (∀ key, String.prefix (workspace_dir ρ +:+ "/") key = true →
            fs (sys w0) !! key = None) ∧
    stage_role config ρ w0 = (Ok tt, w1) ∧
    (∀ key, String.prefix (workspace_dir ρ) key = true →
            fs (sys w') !! key = fs (sys w1) !! key).
Proof.
  intros [(e & t & l & [?|?] & _)|(wa & t & l & Hs & _ & Hclean & _ & _ & Hout & H)]%SetupTmpFiles_inv;
    [done..|].
  destruct (stage_roles_through config ρ _ _ done_keeps wa w' roles_NoDup (role_in_roles ρ) H)
    as (w0 & w1 & (t' & l' & Hs') & Hfr & Hrole & Hafter).
  exists w0, w1. split.
  { by rewrite (step_fault _ _ _ _ Hs'), (step_fault _ _ _ _ Hs). }
  split; [intros key Hkey; rewrite Hfr by auto; by apply Hout|].
  split; [|by split].
  intros key Hkey. rewrite Hfr by auto. apply Hclean.
  change (workspace_dir ρ +:+ "/") with (".regolith/tmp/" +:+ (short_name ρ +:+ "/")) in Hkey.
  by apply prefix_app_l in Hkey.
Qed.

(** When [SetupTmpFiles] returns nil, the slot of a role whose configured
    path is a directory outside the cache is an exact copy of that
    directory: a path below the slot holds what the same path below the
    source holds, and nothing else. What an earlier run left in the slot is
    gone. *)
Theorem staging_copies_the_directory (config : Config) (profile : Profile)
    (ρ : role) w w' :
  role_path config ρ ≠ "" →
  outside (role_path config ρ) →
  fault (sys w) (SysStat (role_path config ρ)) = None →
  fs (sys w) !! role_path config ρ = Some Dir →
  Pipeline.SetupTmpFiles config profile w = (Ok tt, w') →
  fs (sys w') !! workspace_dir ρ = Some Dir ∧
  ∀ rest, String.prefix "/" rest = true →
    fs (sys w') !! (workspace_dir ρ +:+ rest) = fs (sys w) !! (role_path config ρ +:+ rest).
Proof.
  intros Hp Hout Hf Hdir H.
  destruct (SetupTmpFiles_Ok_role config profile ρ w w' H)
    as (w0 & w1 & Hfault & Hsrc & Hclean & Hrole & Hafter).
  apply stage_role_inv in Hrole as (r0 & Hrole & Hr). destruct r0 as [[]|]; [|done].
  unfold Pipeline.setup_tmp_directory in Hrole.
  rewrite (proj2 (String.eqb_neq _ _) Hp) in Hrole. cbn [negb] in Hrole.
  unfold bind at 1 in Hrole. unfold attempt, os.Stat, os.failing, traced in Hrole.
  rewrite Hfault, Hf, (Hsrc _ Hout), Hdir in Hrole. cbn [is_dir is_ok] in Hrole.
  apply orelse_inv in Hrole as [([] & Hcopy & _)|(? & _ & ?)]; [|done].
  apply Copy_Ok in Hcopy. cbn [sys fs add_event] in Hcopy.
  change (".regolith/tmp/" +:+ short_name ρ) with (workspace_dir ρ) in Hcopy.
  assert (Hat : ∀ rest, below rest = true →
            fs (sys w1) !! (workspace_dir ρ +:+ rest)
            = match fs (sys w) !! (role_path config ρ +:+ rest) with
              | Some n => Some n
              | None => os.mkdirs (os.dirs_of (workspace_dir ρ)) (fs (sys w0))
                          !! (workspace_dir ρ +:+ rest)
              end).
  { intros rest Hb. rewrite Hcopy, lookup_copy_tree_moved by done.
    rewrite lookup_mkdirs.
    destruct (decide (role_path config ρ +:+ rest ∈ os.dirs_of (workspace_dir ρ)))
      as [Hin|_].
    - exfalso. pose proof (outside_below _ rest Hout Hb) as Ho.
      rewrite dirs_of_workspace in Hin. apply list_elem_of_In in Hin.
      destruct Hin as [E|[E|[E|[]]]]; rewrite <- E in Ho;
        try (by vm_compute in Ho); destruct ρ; by vm_compute in Ho.
    - by rewrite (Hsrc _ (outside_below _ rest Hout Hb)). }
  split.
  - rewrite Hafter by apply prefix_refl.
    assert (Hroot : workspace_dir ρ +:+ "" = workspace_dir ρ) by (by destruct ρ).
    assert (Hsrc0 : role_path config ρ +:+ "" = role_path config ρ).
    { generalize (role_path config ρ). intros s. induction s as [|a s IH]; [done|].
      by rewrite append_cons, IH. }
    specialize (Hat "" eq_refl). rewrite Hroot, Hsrc0, Hdir in Hat. exact Hat.
  - intros rest Hrest.
    assert (Hb : below rest = true).
    { destruct rest as [|c rest]; [done|]. rewrite prefix_cons in Hrest.
      destruct (ascii_dec "/" c) as [<-|]; [reflexivity|done]. }
    rewrite Hafter by apply prefix_app_r. rewrite (Hat rest Hb).
    destruct (fs (sys w) !! (role_path config ρ +:+ rest)) as [n|]; [done|].
    rewrite lookup_mkdirs.
    assert (Hunder : String.prefix (workspace_dir ρ +:+ "/") (workspace_dir ρ +:+ rest) = true).
    { destruct rest as [|c rest]; [done|]. rewrite prefix_cons in Hrest.
      destruct (ascii_dec "/" c) as [<-|]; [|done].
      change (String "/" rest) with ("/" +:+ rest).
      generalize (workspace_dir ρ). intros s. induction s as [|a s IH].
      - change ("" +:+ "/") with "/". change ("" +:+ ("/" +:+ rest)) with (String "/" rest).
        rewrite prefix_cons. destruct (ascii_dec "/" "/"); [|done]. by destruct rest.
      - rewrite !append_cons, prefix_cons. by destruct (ascii_dec a a). }
    destruct (decide (workspace_dir ρ +:+ rest ∈ os.dirs_of (workspace_dir ρ))) as [Hin|_].
    + exfalso. rewrite dirs_of_workspace in Hin. apply list_elem_of_In in Hin.
      destruct Hin as [E|[E|[E|[]]]]; rewrite <- E in Hunder; destruct ρ;
        by vm_compute in Hunder.
    + by apply Hclean.
Qed.

(** When [SetupTmpFiles] returns nil, the slot of a role whose path is not
    configured (the empty string) is an empty directory. *)
Theorem staging_of_an_unset_path (config : Config) (profile : Profile) (ρ : role) w w' :
  role_path config ρ = "" →
  Pipeline.SetupTmpFiles config profile w = (Ok tt, w') →
  fs (sys w') !! workspace_dir ρ = Some Dir ∧
  ∀ k, String.prefix (workspace_dir ρ +:+ "/") k = true → fs (sys w') !! k = None.
Proof.
  intros Hp H.
  destruct (SetupTmpFiles_Ok_role config profile ρ w w' H)
    as (w0 & w1 & _ & _ & Hclean & Hrole & Hafter).
  apply stage_role_inv in Hrole as (r0 & Hrole & Hr). destruct r0 as [[]|]; [|done].
  unfold Pipeline.setup_tmp_directory in Hrole. rewrite Hp in Hrole.
  cbn [String.eqb negb] in Hrole.
  apply orelse_inv in Hrole as [([] & Hm & _)|(? & _ & ?)]; [|done].
  change (".regolith/tmp/" +:+ short_name ρ) with (workspace_dir ρ) in Hm.
  apply MkdirAll_inv in Hm as (_ & Hfr & _ & Hdirs & _). specialize (Hdirs eq_refl).
  split.
  - rewrite Hafter by apply prefix_refl. apply Hdirs.
    rewrite dirs_of_workspace. apply list_elem_of_In. cbn. auto.
  - intros k Hk. rewrite Hafter by (by apply prefix_app_l in Hk).
    rewrite Hfr; [by apply Hclean|].
    rewrite dirs_of_workspace. intros Hin%list_elem_of_In.
    destruct Hin as [E|[E|[E|[]]]]; rewrite <- E in Hk; destruct ρ; by vm_compute in Hk.
Qed.

Lemma staging_keeps_the_sources_witness :
  let config := Examples.config_with "packs/RP" "packs/BP" "" ∅ in
  let w := Examples.machine Examples.no_fault in
  let run := Pipeline.SetupTmpFiles config zero_Profile w in
  is_ok run.1 = false ∧
  fs (sys run.2) !! "packs/RP/manifest.json" = Some (File "{}") ∧
  fs (sys run.2) !! "packs/BP" = Some (File "oops").
Proof.
  intros config w run.
  destruct (staging_keeps_the_sources config zero_Profile w run.1 run.2
              (surjective_pairing run)) as [Hkeep _].
  split; [vm_compute; reflexivity|].
  split; (rewrite Hkeep; [vm_compute; reflexivity | vm_compute; reflexivity]).
Defined.

Lemma staging_copies_the_directory_witness :
  let config := Examples.config_with "packs/RP" "" "" ∅ in
  let w := Examples.machine Examples.no_fault in
  let run := Pipeline.SetupTmpFiles config zero_Profile w in
  fs (sys w) !! ".regolith/tmp/RP/stale.json" = Some (File "old") ∧
  fs (sys run.2) !! ".regolith/tmp/RP" = Some Dir ∧
  fs (sys run.2) !! ".regolith/tmp/RP/manifest.json" = Some (File "{}") ∧
  fs (sys run.2) !! ".regolith/tmp/RP/stale.json" = None.
Proof.
  intros config w run.
  assert (H1 : role_path config RP ≠ "") by (vm_compute; discriminate).
  assert (H2 : outside (role_path config RP)) by (vm_compute; reflexivity).
  assert (H3 : fault (sys w) (SysStat (role_path config RP)) = None) by reflexivity.
  assert (H4 : fs (sys w) !! role_path config RP = Some Dir) by (vm_compute; reflexivity).
  assert (H5 : Pipeline.SetupTmpFiles config zero_Profile w = (Ok tt, run.2)).
  { transitivity (run.1, run.2); [apply surjective_pairing|].
    apply (f_equal (λ r, (r, run.2))). vm_compute. reflexivity. }
  destruct (staging_copies_the_directory config zero_Profile RP w run.2 H1 H2 H3 H4 H5)
    as [Hdir Hcopy].
  split; [vm_compute; reflexivity|]. split; [exact Hdir|]. split.
  - etransitivity; [exact (Hcopy "/manifest.json" eq_refl)|]. vm_compute. reflexivity.
  - etransitivity; [exact (Hcopy "/stale.json" eq_refl)|]. vm_compute. reflexivity.
Defined.

Lemma staging_of_an_unset_path_witness :
  let config := Examples.config_with "packs/RP" "" "" ∅ in
  let w := Examples.machine Examples.no_fault in
  let run := Pipeline.SetupTmpFiles config zero_Profile w in
  fs (sys run.2) !! ".regolith/tmp/data" = Some Dir ∧
  fs (sys run.2) !! ".regolith/tmp/data/level.dat" = None.
Proof.
  intros config w run.
  assert (H1 : role_path config data = "") by reflexivity.
  assert (H2 : Pipeline.SetupTmpFiles config zero_Profile w = (Ok tt, run.2)).
  { transitivity (run.1, run.2); [apply surjective_pairing|].
    apply (f_equal (λ r, (r, run.2))). vm_compute. reflexivity. }
  destruct (staging_of_an_unset_path config zero_Profile data w run.2 H1 H2)
    as [Hdir Hempty].
  split; [exact Hdir|]. apply Hempty. vm_compute. reflexivity.
Defined.

(** ** The commands under the session lock *)

(** A call into the rest of the package whose error is returned with
    context. *)
Lemma call_step {A B} fn (f : Sys → Res A * Sys) (g : error → error) (k : A → M B) w r w' :
  (x <- call fn f orelse g ;; k x) w = (r, w') →
  (∃ e s, f (sys w) = (Err e, s) ∧ r = Err (g e) ∧
          w' = add_event (EvCall fn false) (set_sys s w)) ∨
  (∃ a s, f (sys w) = (Ok a, s) ∧
          k a (add_event (EvCall fn true) (set_sys s w)) = (r, w')).
Proof.
  unfold bind, or_return, call, traced, on_sys.
  destruct (f (sys w)) as [[a|e] s]; cbn [is_ok].
  - intros H. right. by exists a, s.
  - intros [= <- <-]. left. by exists e, s.
Qed.

Lemma invoke_step {B} ev (f : Sys → Res unit * Sys) (g : error → error) (k : M B) w r w' :
  (invoke ev f orelse g ;; k) w = (r, w') →
  (∃ e s, f (sys w) = (Err e, s) ∧ r = Err (g e) ∧
          w' = add_event (ev false) (set_sys s w)) ∨
  (∃ s, f (sys w) = (Ok tt, s) ∧ k (add_event (ev true) (set_sys s w)) = (r, w')).
Proof.
  unfold bind, or_return, invoke, traced, on_sys.
  destruct (f (sys w)) as [[[]|e] s]; cbn [is_ok].
  - intros H. right. by exists s.
  - intros [= <- <-]. left. by exists e, s.
Qed.

Lemma Logger_step {B} lv msg (k : M B) w :
  (Logger lv msg ;; k) w
  = k (mkWorld (sys w) (log w ++ [(lv, msg)]) (trace w) (sessionLockErr w)).
Proof. reflexivity. Qed.

Ltac trace_eq :=
  cbn [trace add_event set_sys sys log sessionLockErr];
  rewrite <- ?app_assoc; cbn [app]; reflexivity.

Ltac stopped_at n steps :=
  exists (take n steps);
  eexists _, (drop (S n) steps); split; reflexivity.

Section Command_results.

Variable cwd : string.
Variable aquireSessionLockError : string.
Variable osMkdirError createFilterRunnerError filterRunnerCheckError
  setupTmpFilesError filterRunnerRunError : string → string.
Variable LoadConfigAsMap : Sys → Res loc * Sys.
Variable ConfigFromObject : loc → Sys → Res Config * Sys.
Variable GetDotRegolith : bool → string → Sys → Res string * Sys.
Variable CreateDirectoryIfNotExists : string → Sys → Res unit * Sys.
Variable aquireSessionLock : string → Sys → Res (Sys → Res unit * Sys) * Sys.
Variable CheckProfileImpl :
  Profile → string → Config → option RunContext → string → Sys → Res unit * Sys.
Variable RunProfile : RunContext → Sys → Res unit * Sys.
Variable SetupTmpFiles : Config → string → Sys → Res unit * Sys.
Variable InplaceExportProject : Config → string → Sys → Res unit * Sys.
Variable StartWatchingSourceFiles : RunContext → Sys → Sys.
Variable PassError : error → error.
Variable AwaitInterruption : RunContext → Sys → option Sys.

Local Abbreviation lock_session :=
  (Commands.lock_session aquireSessionLockError aquireSessionLock).
Local Abbreviation Tool :=
  (Commands.Tool cwd aquireSessionLockError osMkdirError createFilterRunnerError
     filterRunnerCheckError setupTmpFilesError filterRunnerRunError LoadConfigAsMap
     ConfigFromObject GetDotRegolith CreateDirectoryIfNotExists aquireSessionLock
     SetupTmpFiles InplaceExportProject).
Local Abbreviation runOrWatch :=
  (Commands.runOrWatch cwd aquireSessionLockError osMkdirError LoadConfigAsMap
     ConfigFromObject GetDotRegolith CreateDirectoryIfNotExists aquireSessionLock
     CheckProfileImpl RunProfile StartWatchingSourceFiles PassError AwaitInterruption).

(** The taking of the session lock followed by a body under [defer]: the
    lock is not taken and nothing more happens, or the body runs and the
    deferred closure releases the lock after it, unless the body did not
    return. *)
Lemma locked_inv {A} (returns : A → bool) (body : M A) dot w r w' :
  (unlockSession <- lock_session dot ;;
   go_defer returns (Commands.unlock_closure unlockSession) body) w = (r, w') →
  (∃ e s, aquireSessionLock dot (sys w) = (Err e, s) ∧
          r = Err (WrapError e aquireSessionLockError) ∧
          trace w' = trace w ++ [EvCall "aquireSessionLock" false] ∧ log w' = log w) ∨
  (∃ unlock s w1,
     aquireSessionLock dot (sys w) = (Ok unlock, s) ∧
     body (mkWorld s (log w) (trace w ++ [EvCall "aquireSessionLock" true]) None)
     = (r, w1) ∧
     ((trace w' = trace w1 ++ [EvCall "unlockSession" (is_ok (unlock (sys w1)).1)] ∧
       log w' = log w1 ∧ sys w' = (unlock (sys w1)).2 ∧
       (∀ a, r = Ok a → returns a = true)) ∨
      (∃ a, r = Ok a ∧ returns a = false ∧ w' = w1))).
Proof.
  assert (Hunlock : ∀ unlock w1,
    (Commands.unlock_closure unlock w1).2
    = mkWorld (unlock (sys w1)).2 (log w1)
        (trace w1 ++ [EvCall "unlockSession" (is_ok (unlock (sys w1)).1)])
        (error_of (unlock (sys w1)).1)).
  { intros unlock w1.
    unfold Commands.unlock_closure, bind, attempt, call, traced, on_sys,
      set_sessionLockErr.
    by destruct (unlock (sys w1)) as [ru su]. }
  unfold Commands.lock_session.
  unfold bind at 1. unfold bind at 1. unfold attempt, call, traced, on_sys.
  destruct (aquireSessionLock dot (sys w)) as [[unlock|e] s] eqn:Hlock;
    cbn [is_ok]; unfold bind at 1; unfold set_sessionLockErr at 1; cbn [error_of].
  - unfold ret at 1. unfold go_defer. cbn [sys log trace add_event set_sys].
    destruct (body _) as [[a|e] w1] eqn:Hbody.
    + destruct (returns a) eqn:Hret; intros [= <- <-]; right;
        exists unlock, s, w1; (split; [done|]); (split; [done|]).
      * left. rewrite Hunlock. cbn. repeat split. by intros ? [= <-].
      * right. by exists a.
    + intros [= <- <-]. right. exists unlock, s, w1. split; [done|]. split; [done|].
      left. rewrite Hunlock. cbn. by repeat split.
  - unfold throw. intros [= <- <-]. left. by exists e, s.
Qed.

(** [Tool] goes through its steps in order and stops at the first that
    fails: the calls of the opening, then, under the session lock, the
    check of the runner, the staging, the run of the runner and the export
    in place. It returns nil only when all of them succeeded. Once the lock
    is taken, its release is the last call of the command, whether a step
    failed or not; a filter name that is not among the filter definitions
    is refused before the cache directory is resolved and the lock taken. *)
Theorem tool_steps_in_order (filterName : string) (filterArgs : list string)
    (debug : bool) w r w' :
  Tool filterName filterArgs debug w = (r, w') →
  ∃ t, trace w' = trace w ++ t ∧
    ((is_ok r = false ∧ stopped locked_opening t) ∨
     (r = Err (unknown_filter filterName) ∧
      t = [EvCall "LoadConfigAsMap" true; EvCall "ConfigFromObject" true]) ∨
     (∃ cause ok,
        r = Err (WrapError cause (createFilterRunnerError filterName)) ∧
        t = locked_opening ++ [EvCall "unlockSession" ok]) ∨
     (∃ id body ok,
        is_ok r = false ∧ stopped (tool_steps id) body ∧
        t = locked_opening ++ body ++ [EvCall "unlockSession" ok]) ∨
     (∃ id ok,
        r = Ok tt ∧
        t = locked_opening ++ tool_steps id ++ [EvCall "unlockSession" ok])).
Proof.
  unfold Commands.Tool, Commands.InitLogging.
  intros [(? & ? & ?)|([] & w0 & [= <-] & H)]%bind_inv; [done|].
  apply call_step in H as [(e & s & _ & -> & ->)|(configJson & s1 & _ & H)].
  { eexists. split; [trace_eq|]. left. split; [done|]. stopped_at 0 locked_opening. }
  apply call_step in H as [(e & s & _ & -> & ->)|(config & s2 & _ & H)].
  { eexists. split; [trace_eq|]. left. split; [done|]. stopped_at 1 locked_opening. }
  destruct (FilterDefinitions config !! filterName) as [filterDefinition|].
  2:{ injection H as <- <-. eexists. split; [trace_eq|]. right. left. by split. }
  apply call_step in H as [(e & s & _ & -> & ->)|(dot & s3 & _ & H)].
  { eexists. split; [trace_eq|]. left. split; [done|]. stopped_at 2 locked_opening. }
  apply call_step in H as [(e & s & _ & -> & ->)|([] & s4 & _ & H)].
  { eexists. split; [trace_eq|]. left. split; [done|]. stopped_at 3 locked_opening. }
  apply locked_inv in H as [(e & s & _ & -> & Ht & _)|(unlock & s5 & w1 & _ & H & Hend)].
  { eexists. split; [rewrite Ht; trace_eq|]. left. split; [done|].
    stopped_at 4 locked_opening. }
  destruct Hend as [(Ht & _ & _ & Hret)|(a & _ & ? & _)]; [|done].
  cbn zeta in H.
  apply bind_inv in H as [(e & H & ->)|(filterRunner & wa & H & Hrest)].
  { apply orelse_inv in H as [(? & _ & ?)|(cause & H & [= ->])]; [done|].
    destruct (CreateFilterRunner _ _); [done|]. injection H as _ <-.
    eexists. split; [rewrite Ht; trace_eq|]. right. right. left. by eexists _, _. }
  apply orelse_inv in H as [(? & H & [= <-])|(? & _ & ?)]; [|done].
  destruct (CreateFilterRunner _ _) as [runner|]; [|done]. injection H as -> <-.
  apply invoke_step in Hrest as [(e & s & _ & -> & ->)|(s6 & _ & H)].
  { eexists. split; [rewrite Ht; trace_eq|]. right. right. right. left.
    exists (GetId filterRunner). eexists _, _. split; [done|].
    split; [stopped_at 0 (tool_steps (GetId filterRunner))|reflexivity]. }
  apply call_step in H as [(e & s & _ & -> & ->)|([] & s7 & _ & H)].
  { eexists. split; [rewrite Ht; trace_eq|]. right. right. right. left.
    exists (GetId filterRunner). eexists _, _. split; [done|].
    split; [stopped_at 1 (tool_steps (GetId filterRunner))|reflexivity]. }
  rewrite Logger_step in H.
  apply invoke_step in H as [(e & s & _ & -> & ->)|(s8 & _ & H)].
  { eexists. split; [rewrite Ht; trace_eq|]. right. right. right. left.
    exists (GetId filterRunner). eexists _, _. split; [done|].
    split; [stopped_at 2 (tool_steps (GetId filterRunner))|reflexivity]. }
  rewrite Logger_step in H.
  apply call_step in H as [(e & s & _ & -> & ->)|([] & s9 & _ & H)].
  { eexists. split; [rewrite Ht; trace_eq|]. right. right. right. left.
    exists (GetId filterRunner). eexists _, _. split; [done|].
    split; [stopped_at 3 (tool_steps (GetId filterRunner))|reflexivity]. }
  rewrite Logger_step in H. injection H as <- <-.
  eexists. split; [rewrite Ht; trace_eq|]. right. right. right. right.
  exists (GetId filterRunner). eexists. by split.
Qed.

(** [runOrWatch] without watching goes through the calls of the opening,
    the check of the profile and the run of the pipeline, and stops at the
    first that fails. The error of the check is returned as it is, that of
    the run with the name of the profile as context. Once the lock is taken
    its release is the last call, whether a step failed or not. *)
Theorem run_steps_in_order (fuel : nat) (profileName : string) (debug : bool) w r w' :
  runOrWatch fuel profileName debug false w = (r, w') →
  ∃ t, trace w' = trace w ++ t ∧
    ((is_ok r = false ∧ stopped locked_opening t) ∨
     (r = Err (unknown_profile profileName) ∧
      t = [EvCall "LoadConfigAsMap" true; EvCall "ConfigFromObject" true]) ∨
     (∃ e ok,
        r = Err e ∧
        (∃ profile config dot s s',
           CheckProfileImpl profile (effective_profile profileName) config None dot s
           = (Err e, s')) ∧
        t = locked_opening
            ++ [EvCall "CheckProfileImpl" false; EvCall "unlockSession" ok]) ∨
     (∃ cause ok,
        r = Err (WrapError cause
                   ("Failed to run profile " +:+ q (effective_profile profileName))) ∧
        t = locked_opening
            ++ [EvCall "CheckProfileImpl" true; EvCall "RunProfile" false;
                EvCall "unlockSession" ok]) ∨
     (∃ ok,
        r = Ok Returned ∧
        t = locked_opening ++ run_steps ++ [EvCall "unlockSession" ok])).
Proof.
  unfold Commands.runOrWatch, Commands.InitLogging.
  fold (effective_profile profileName).
  intros [(? & ? & ?)|([] & w0 & [= <-] & H)]%bind_inv; [done|]. cbn zeta in H.
  apply call_step in H as [(e & s & _ & -> & ->)|(configJson & s1 & _ & H)].
  { eexists. split; [trace_eq|]. left. split; [done|]. stopped_at 0 locked_opening. }
  apply call_step in H as [(e & s & _ & -> & ->)|(config & s2 & _ & H)].
  { eexists. split; [trace_eq|]. left. split; [done|]. stopped_at 1 locked_opening. }
  destruct (Profiles config !! effective_profile profileName) as [profile|].
  2:{ injection H as <- <-. eexists. split; [trace_eq|]. right. left. by split. }
  apply call_step in H as [(e & s & _ & -> & ->)|(dot & s3 & _ & H)].
  { eexists. split; [trace_eq|]. left. split; [done|]. stopped_at 2 locked_opening. }
  apply call_step in H as [(e & s & _ & -> & ->)|([] & s4 & _ & H)].
  { eexists. split; [trace_eq|]. left. split; [done|]. stopped_at 3 locked_opening. }
  apply locked_inv in H as [(e & s & _ & -> & Ht & _)|(unlock & s5 & w1 & _ & H & Hend)].
  { eexists. split; [rewrite Ht; trace_eq|]. left. split; [done|].
    stopped_at 4 locked_opening. }
  apply bind_inv in H as [(e & H & ->)|([] & wa & Hcheck & H)].
  { destruct Hend as [(Ht & _ & _ & Hret)|(a & ? & _)]; [|done].
    unfold call, traced, on_sys in H. cbn [sys] in H.
    destruct (CheckProfileImpl _ _ _ _ _ _) as [[[]|e'] s'] eqn:Hc; [done|].
    injection H as -> <-.
    eexists. split; [rewrite Ht; trace_eq|]. right. right. left.
    eexists e, _. split; [done|]. split; [eauto 10|reflexivity]. }
  unfold call at 1, traced, on_sys in Hcheck. cbn [sys] in Hcheck.
  destruct (CheckProfileImpl _ _ _ _ _ _) as [[[]|e'] s']; [|done].
  injection Hcheck as <-. cbn zeta in H.
  apply call_step in H as [(e & s & _ & -> & ->)|([] & s6 & _ & H)].
  { destruct Hend as [(Ht & _ & _ & Hret)|(a & ? & _)]; [|done].
    eexists. split; [rewrite Ht; trace_eq|]. right. right. right. left.
    by eexists e, _. }
  rewrite Logger_step in H.
  unfold bind, Commands.return_sessionLockErr, get_sessionLockErr, return_error in H.
  cbn in H. injection H as <- <-.
  destruct Hend as [(Ht & _ & _ & Hret)|(a & [= <-] & ? & _)]; [|done].
  eexists. split; [rewrite Ht; trace_eq|]. right. right. right. right. by eexists.
Qed.

Lemma watch_loop_events fuel context profileName :
  ∀ w x w',
    Commands.watch_loop RunProfile PassError AwaitInterruption fuel context profileName w
    = (x, w') →
    ∃ exit t, x = Ok exit ∧ exit ≠ Returned ∧ trace w' = trace w ++ t ∧
              Forall watch_event t.
Proof.
  induction fuel as [|fuel IH]; intros w x w' H; cbn [Commands.watch_loop] in H.
  - injection H as <- <-. exists StillWatching, []. by rewrite app_nil_r.
  - unfold bind at 1 in H. unfold attempt, call, traced, on_sys in H.
    destruct (RunProfile context (sys w)) as [r0 s0].
    assert (∃ lg, H = H ∧
      ((match r0 with
        | Err err =>
            Logger Error ("Failed to run profile " +:+ q profileName +:+ ": "
                          +:+ render (PassError err))
        | Ok _ => Logger Info ("Successfully ran the " +:+ q profileName +:+ " profile.")
        end) (add_event (EvCall "RunProfile" (is_ok r0)) (set_sys s0 w))
       = (Ok tt, mkWorld s0 lg (trace w ++ [EvCall "RunProfile" (is_ok r0)])
                   (sessionLockErr w)))) as (lg & _ & Hlog).
    { destruct r0; eexists; split; reflexivity. }
    unfold bind at 1 in H. rewrite Hlog in H. clear Hlog.
    rewrite Logger_step in H. unfold bind at 1 in H. unfold Commands.await in H.
    cbn [sys log trace sessionLockErr] in H.
    destruct (AwaitInterruption context s0) as [s1|].
    + rewrite Logger_step in H.
      apply IH in H as (exit & t & -> & Hne & Ht & Hall).
      exists exit. eexists. split; [done|]. split; [done|].
      split; [rewrite Ht; trace_eq|].
      repeat (apply List.Forall_cons; [by eexists; eauto|]). exact Hall.
    + injection H as <- <-. exists ProcessTerminated. eexists.
      split; [done|]. split; [done|]. split; [trace_eq|].
      repeat (apply List.Forall_cons; [by eexists; eauto|]). apply List.Forall_nil.
Qed.

(** [runOrWatch] that watches never releases the session lock: once the
    check of the profile has passed, the command starts watching and loops
    over runs of the pipeline and waits; it does not return, and no call of
    [unlockSession] is made. Before that it behaves as without watching. *)
Theorem watching_keeps_the_lock (fuel : nat) (profileName : string) (debug : bool)
    w r w' :
  runOrWatch fuel profileName debug true w = (r, w') →
  ∃ t, trace w' = trace w ++ t ∧
    ((is_ok r = false ∧
      (stopped locked_opening t ∨
       t = [EvCall "LoadConfigAsMap" true; EvCall "ConfigFromObject" true] ∨
       ∃ ok, t = locked_opening
                 ++ [EvCall "CheckProfileImpl" false; EvCall "unlockSession" ok])) ∨
     (∃ exit tw,
        r = Ok exit ∧ exit ≠ Returned ∧
        t = locked_opening
            ++ [EvCall "CheckProfileImpl" true; EvCall "StartWatchingSourceFiles" true]
            ++ tw ∧
        Forall watch_event tw ∧
        ∀ ok, EvCall "unlockSession" ok ∉ t)).
Proof.
  unfold Commands.runOrWatch, Commands.InitLogging.
  fold (effective_profile profileName).
  intros [(? & ? & ?)|([] & w0 & [= <-] & H)]%bind_inv; [done|]. cbn zeta in H.
  apply call_step in H as [(e & s & _ & -> & ->)|(configJson & s1 & _ & H)].
  { eexists. split; [trace_eq|]. left. split; [done|]. left.
    stopped_at 0 locked_opening. }
  apply call_step in H as [(e & s & _ & -> & ->)|(config & s2 & _ & H)].
  { eexists. split; [trace_eq|]. left. split; [done|]. left.
    stopped_at 1 locked_opening. }
  destruct (Profiles config !! effective_profile profileName) as [profile|].
  2:{ injection H as <- <-. eexists. split; [trace_eq|]. left. split; [done|].
      right. by left. }
  apply call_step in H as [(e & s & _ & -> & ->)|(dot & s3 & _ & H)].
  { eexists. split; [trace_eq|]. left. split; [done|]. left.
    stopped_at 2 locked_opening. }
  apply call_step in H as [(e & s & _ & -> & ->)|([] & s4 & _ & H)].
  { eexists. split; [trace_eq|]. left. split; [done|]. left.
    stopped_at 3 locked_opening. }
  apply locked_inv in H as [(e & s & _ & -> & Ht & _)|(unlock & s5 & w1 & _ & H & Hend)].
  { eexists. split; [rewrite Ht; trace_eq|]. left. split; [done|]. left.
    stopped_at 4 locked_opening. }
  apply bind_inv in H as [(e & H & ->)|([] & wa & Hcheck & H)].
  { destruct Hend as [(Ht & _ & _ & Hret)|(a & ? & _)]; [|done].
    unfold call, traced, on_sys in H. cbn [sys] in H.
    destruct (CheckProfileImpl _ _ _ _ _ _) as [[[]|e'] s'] eqn:Hc; [done|].
    injection H as -> <-.
    eexists. split; [rewrite Ht; trace_eq|]. left. split; [done|].
    right. right. by eexists. }
  unfold call at 1, traced, on_sys in Hcheck. cbn [sys] in Hcheck.
  destruct (CheckProfileImpl _ _ _ _ _ _) as [[[]|e'] s']; [|done].
  injection Hcheck as <-. cbn zeta in H.
  unfold bind at 1 in H. unfold call at 1, traced, on_sys in H. cbn [is_ok] in H.
  apply watch_loop_events in H as (exit & tw & -> & Hne & Htw & Hall).
  assert (Hexit : returned exit = false) by (by destruct exit).
  destruct Hend as [(_ & _ & _ & Hret)|(a & [= <-] & _ & ->)].
  { specialize (Hret exit eq_refl). congruence. }
  eexists. split; [rewrite Htw; trace_eq|]. right.
  exists exit, tw. split; [done|]. split; [done|]. split; [reflexivity|].
  split; [done|].
  intros ok Hin. unfold locked_opening in Hin.
  repeat (apply elem_of_cons in Hin as [Hin|Hin]; [discriminate Hin|]).
  rewrite Forall_forall in Hall. apply Hall in Hin as (ok' & [?|?]); done.
Qed.

End Command_results.

Section Install_and_update_results.

Variable ConfigFilePath : string.
Variable gitNotInstalledWarning aquireSessionLockError : string.
Variable hasGit : Sys → bool.
Variable parseInstallFilterArgs : list string → Res (list parsedInstallFilterArg).
Variable LoadConfigAsMap : Sys → Res loc * Sys.
Variable ConfigFromObject : loc → Sys → Res Config * Sys.
Variable dataPathFromConfigMap : loc → Sys → Res string * Sys.
Variable filterDefinitionsFromConfigMap : loc → Sys → Res loc * Sys.
Variable GetDotRegolith : bool → string → Sys → Res string * Sys.
Variable aquireSessionLock : string → Sys → Res (Sys → Res unit * Sys) * Sys.
Variable FilterDefinitionFromTheInternet :
  string → string → string → Sys → Res RemoteFilterDefinition * Sys.
Variable RemoteFilterDefinition_CreateFilterRunner :
  RemoteFilterDefinition → gmap string json → Res FilterRunner.
Variable installFilters :
  gmap string FilterInstaller → bool → string → string → Sys → Res unit * Sys.
Variable updateFilters : gmap string FilterInstaller → string → Sys → Res unit * Sys.
Variable json_MarshalIndent : gmap loc (gmap string value) → loc → string.

Local Abbreviation Install :=
  (Commands.Install ConfigFilePath gitNotInstalledWarning aquireSessionLockError hasGit
     parseInstallFilterArgs LoadConfigAsMap dataPathFromConfigMap
     filterDefinitionsFromConfigMap GetDotRegolith aquireSessionLock
     FilterDefinitionFromTheInternet RemoteFilterDefinition_CreateFilterRunner
     installFilters json_MarshalIndent).
Local Abbreviation InstallAll :=
  (Commands.InstallAll gitNotInstalledWarning aquireSessionLockError hasGit
     LoadConfigAsMap ConfigFromObject GetDotRegolith aquireSessionLock installFilters).
Local Abbreviation Update :=
  (Commands.Update gitNotInstalledWarning aquireSessionLockError hasGit
     LoadConfigAsMap ConfigFromObject GetDotRegolith aquireSessionLock updateFilters).
Local Abbreviation UpdateAll :=
  (Commands.UpdateAll gitNotInstalledWarning aquireSessionLockError hasGit
     LoadConfigAsMap ConfigFromObject GetDotRegolith aquireSessionLock updateFilters).
Local Abbreviation load_config := (Commands.load_config LoadConfigAsMap ConfigFromObject).
Local Abbreviation download := (Commands.download FilterDefinitionFromTheInternet).

(** [Update] without a filter name fails before it loads the configuration
    or takes the session lock: it has made no call and changed nothing. *)
Theorem update_needs_a_filter (debug : bool) (w : World) :
  (Update [] debug w).1 = Err (WrappedError "No filters specified.") ∧
  trace (Update [] debug w).2 = trace w ∧
  sys (Update [] debug w).2 = sys w.
Proof.
  unfold Commands.Update, Commands.InitLogging, Commands.has_git.
  unfold bind, ret, Logger. cbn [sys log trace sessionLockErr length Nat.eqb].
  by destruct (negb (hasGit (sys w))).
Qed.

(** The loading of the configuration by [InstallAll], [Update] and
    [UpdateAll]: both calls are made, whatever the first returns. *)
Lemma load_config_inv w r w' :
  load_config w = (r, w') →
  ∃ ok1 ok2,
    trace w' = trace w ++ [EvCall "LoadConfigAsMap" ok1; EvCall "ConfigFromObject" ok2] ∧
    log w' = log w ∧ sessionLockErr w' = sessionLockErr w ∧
    match r with
    | Ok config =>
        ∃ cj s1, LoadConfigAsMap (sys w) = (Ok cj, s1) ∧
                 ConfigFromObject cj s1 = (Ok config, sys w') ∧
                 ok1 = true ∧ ok2 = true
    | Err e =>
        (∃ cause, e = WrapError cause "Failed to load config.json.") ∧
        (ok1 = false ∨ ok2 = false)
    end.
Proof.
  unfold Commands.load_config, bind, attempt, call, traced, on_sys.
  destruct (LoadConfigAsMap (sys w)) as [[cj|e1] s1]; cbn [sys set_sys add_event];
    destruct (ConfigFromObject _ s1) as [[config|e2] s2] eqn:Hc;
    cbn [error_of firstErr is_ok]; intros [= <- <-];
    eexists _, _; (split; [trace_eq|]); (split; [done|]); (split; [done|]); eauto 10.
Qed.

Lemma load_config_Ok w cj s1 config s2 :
  LoadConfigAsMap (sys w) = (Ok cj, s1) →
  ConfigFromObject cj s1 = (Ok config, s2) →
  load_config w = (Ok config, loaded s1 s2 w).
Proof.
  intros HL HC. unfold Commands.load_config, bind, attempt, call, traced, on_sys.
  rewrite HL. cbn [sys set_sys add_event]. by rewrite HC.
Qed.

Lemma select_installed_inv config filters :
  ∀ acc w r w',
    Commands.select_installed config filters acc w = (r, w') →
    ∃ m, r = Ok m ∧ sys w' = sys w ∧ trace w' = trace w ∧
         sessionLockErr w' = sessionLockErr w ∧
         log w' = log w ++ (not_installed <$>
                            List.filter (λ n, negb (is_installed config n)) filters) ∧
         ∀ k, m !! k = match (if decide (k ∈ filters)
                              then FilterDefinitions config !! k else None) with
                       | Some fi => Some fi
                       | None => acc !! k
                       end.
Proof.
  induction filters as [|n rest IH]; intros acc w r w' H; cbn [Commands.select_installed] in H.
  - injection H as <- <-. exists acc. rewrite app_nil_r. by repeat split.
  - cbn [List.filter]. unfold is_installed at 1.
    destruct (FilterDefinitions config !! n) as [fi|] eqn:Hn; cbn [negb].
    + apply IH in H as (m & -> & Hs & Ht & Hk & Hl & Hm).
      exists m. repeat split; try done. intros k. rewrite Hm.
      destruct (decide (k = n)) as [->|Hne].
      * rewrite Hn, lookup_insert_eq.
        destruct (decide (n ∈ n :: rest)) as [_|Hnot]; [|destruct Hnot; by left].
        by destruct (decide (n ∈ rest)).
      * rewrite lookup_insert_ne by done.
        destruct (decide (k ∈ rest)) as [Hin|Hnin];
          destruct (decide (k ∈ n :: rest)) as [Hin'|Hnin']; try done.
        -- destruct Hnin'. by right.
        -- by apply elem_of_cons in Hin' as [?|?].
    + rewrite Logger_step in H.
      apply IH in H as (m & -> & Hs & Ht & Hk & Hl & Hm). cbn in *.
      exists m. repeat split; try done.
      * by rewrite Hl, <- app_assoc.
      * intros k. rewrite Hm.
        destruct (decide (k = n)) as [->|Hne].
        -- rewrite Hn. by destruct (decide (n ∈ rest)), (decide (n ∈ n :: rest)).
        -- destruct (decide (k ∈ rest)) as [Hin|Hnin];
             destruct (decide (k ∈ n :: rest)) as [Hin'|Hnin']; try done.
           ++ destruct Hnin'. by right.
           ++ by apply elem_of_cons in Hin' as [?|?].
Qed.

(** The tail of the three commands under the lock. *)
Ltac maintenance_tail H Hend :=
  apply call_step in H as [(e & s & _ & -> & ->)|([] & s6 & _ & H)];
  [ destruct Hend as [(Ht & _ & _ & _)|(a & ? & _)]; [|done];
    eexists; split; [rewrite Ht; trace_eq|];
    right; right; left; by eexists _, _
  | rewrite Logger_step in H;
    unfold Commands.return_sessionLockErr, bind, get_sessionLockErr, return_error in H;
    cbn in H; injection H as <- <-;
    destruct Hend as [(Ht & _ & _ & _)|(a & _ & ? & _)]; [|done];
    eexists; split; [rewrite Ht; trace_eq|];
    right; right; right; by eexists ].

(** [InstallAll], [UpdateAll] and [Update] with a filter name load the
    configuration with two calls that are both made, resolve the cache
    directory, take the session lock and make the one call that installs or
    updates. They stop at the first of these that fails and return nil when
    none does. Once the lock is taken its release is the last call, whether
    the installation failed or not. [UpdateAll] returns a failed update with
    the context of a failed installation. *)
Theorem maintenance_commands_release_the_lock :
  (∀ force debug w r w',
     InstallAll force debug w = (r, w') →
     ∃ t, trace w' = trace w ++ t ∧
          maintenance_outcome "installFilters" "Could not install filters." r t) ∧
  (∀ debug w r w',
     UpdateAll debug w = (r, w') →
     ∃ t, trace w' = trace w ++ t ∧
          maintenance_outcome "updateFilters" "Could not install filters." r t) ∧
  (∀ filters debug w r w',
     filters ≠ [] →
     Update filters debug w = (r, w') →
     ∃ t, trace w' = trace w ++ t ∧
          maintenance_outcome "updateFilters" "Could not update filters." r t).
Proof.
  split; [|split].
  - intros force debug w r w' H. unfold Commands.InstallAll in H.
    apply prologue_inv in H as (w0 & _ & <- & _ & _ & H).
    apply bind_inv in H as [(e & H & ->)|(config & w1 & Hload & H)].
    { apply load_config_inv in H as (ok1 & ok2 & Ht1 & _ & _ & _ & Hr).
      eexists. split; [exact Ht1|]. left. by exists ok1, ok2. }
    apply load_config_inv in Hload as (ok1 & ok2 & Ht1 & _ & _ & (_ & _ & _ & _ & -> & ->)).
    apply call_step in H as [(e & s & _ & -> & ->)|(dot & s3 & _ & H)].
    { eexists. split; [cbn; rewrite Ht1; trace_eq|]. right. left.
      eexists. split; [done|]. split; [|reflexivity].
      stopped_at 0 (take 2 (maintenance_steps "installFilters")). }
    apply locked_inv in H as [(e & s & _ & -> & Ht & _)|(unlock & s5 & w2 & _ & H & Hend)].
    { eexists. split; [rewrite Ht; cbn; rewrite Ht1; trace_eq|]. right. left.
      eexists. split; [done|]. split; [|reflexivity].
      stopped_at 1 (take 2 (maintenance_steps "installFilters")). }
    cbn [trace add_event set_sys sys log] in H. rewrite Ht1 in H.
    maintenance_tail H Hend.
  - intros debug w r w' H. unfold Commands.UpdateAll in H.
    apply prologue_inv in H as (w0 & _ & <- & _ & _ & H).
    apply bind_inv in H as [(e & H & ->)|(config & w1 & Hload & H)].
    { apply load_config_inv in H as (ok1 & ok2 & Ht1 & _ & _ & _ & Hr).
      eexists. split; [exact Ht1|]. left. by exists ok1, ok2. }
    apply load_config_inv in Hload as (ok1 & ok2 & Ht1 & _ & _ & (_ & _ & _ & _ & -> & ->)).
    apply call_step in H as [(e & s & _ & -> & ->)|(dot & s3 & _ & H)].
    { eexists. split; [cbn; rewrite Ht1; trace_eq|]. right. left.
      eexists. split; [done|]. split; [|reflexivity].
      stopped_at 0 (take 2 (maintenance_steps "updateFilters")). }
    apply locked_inv in H as [(e & s & _ & -> & Ht & _)|(unlock & s5 & w2 & _ & H & Hend)].
    { eexists. split; [rewrite Ht; cbn; rewrite Ht1; trace_eq|]. right. left.
      eexists. split; [done|]. split; [|reflexivity].
      stopped_at 1 (take 2 (maintenance_steps "updateFilters")). }
    cbn [trace add_event set_sys sys log] in H. rewrite Ht1 in H.
    maintenance_tail H Hend.
  - intros filters debug w r w' Hne H. unfold Commands.Update in H.
    apply prologue_inv in H as (w0 & _ & <- & _ & _ & H).
    destruct filters as [|n rest]; [done|]. cbn [length Nat.eqb] in H.
    apply bind_inv in H as [(e & H & ->)|(config & w1 & Hload & H)].
    { apply load_config_inv in H as (ok1 & ok2 & Ht1 & _ & _ & _ & Hr).
      eexists. split; [exact Ht1|]. left. by exists ok1, ok2. }
    apply load_config_inv in Hload as (ok1 & ok2 & Ht1 & _ & _ & (_ & _ & _ & _ & -> & ->)).
    apply call_step in H as [(e & s & _ & -> & ->)|(dot & s3 & _ & H)].
    { eexists. split; [cbn; rewrite Ht1; trace_eq|]. right. left.
      eexists. split; [done|]. split; [|reflexivity].
      stopped_at 0 (take 2 (maintenance_steps "updateFilters")). }
    apply locked_inv in H as [(e & s & _ & -> & Ht & _)|(unlock & s5 & w2 & _ & H & Hend)].
    { eexists. split; [rewrite Ht; cbn; rewrite Ht1; trace_eq|]. right. left.
      eexists. split; [done|]. split; [|reflexivity].
      stopped_at 1 (take 2 (maintenance_steps "updateFilters")). }
    cbn [trace add_event set_sys sys log] in H. rewrite Ht1 in H.
    apply bind_inv in H as [(e & H & ->)|(m & w3 & Hsel & H)].
    { apply select_installed_inv in H as (? & ? & _). done. }
    apply select_installed_inv in Hsel as (m' & [= <-] & Hs3 & Ht3 & Hk3 & _).
    destruct w3 as [s3' l3 t3 k3]. cbn in Hs3, Ht3, Hk3. subst s3' t3 k3.
    maintenance_tail H Hend.
Qed.

(** [Update] hands to [updateFilters] the installers of those of the named
    filters that are among the filter definitions, and no others; for each
    named filter that is not installed it logs a warning and goes on. Its
    result is that of [updateFilters], so it returns nil when none of the
    named filters is installed and the update of nothing succeeds. *)
Theorem update_passes_the_installed_filters (filters : list string) (debug : bool)
    (w : World) cj s1 config s2 dot s3 unlock s4 :
  filters ≠ [] →
  LoadConfigAsMap (sys w) = (Ok cj, s1) →
  ConfigFromObject cj s1 = (Ok config, s2) →
  GetDotRegolith false "." s2 = (Ok dot, s3) →
  aquireSessionLock dot s3 = (Ok unlock, s4) →
  ∃ m,
    (∀ k, m !! k = if decide (k ∈ filters) then FilterDefinitions config !! k else None) ∧
    (Update filters debug w).1
    = match (updateFilters m dot s4).1 with
      | Ok _ => Ok tt
      | Err e => Err (WrapError e "Could not update filters.")
      end ∧
    sys (Update filters debug w).2 = (unlock (updateFilters m dot s4).2).2 ∧
    ∀ n, n ∈ filters → FilterDefinitions config !! n = None →
         not_installed n ∈ log (Update filters debug w).2.
Proof.
  intros Hne HL HC Hdot Hlock.
  destruct (Update filters debug w) as [r w'] eqn:H. cbn [fst snd].
  unfold Commands.Update in H.
  apply prologue_inv in H as (w0 & Hs0 & _ & _ & _ & H).
  destruct filters as [|n0 rest]; [done|]. cbn [length Nat.eqb] in H.
  unfold bind at 1 in H. rewrite <- Hs0 in HL.
  rewrite (load_config_Ok _ _ _ _ _ HL HC) in H.
  apply call_step in H as [(e & s & Hf & _)|(dot' & s3' & Hf & H)];
    unfold loaded in Hf; cbn [sys add_event set_sys] in Hf; rewrite Hdot in Hf; [done|].
  injection Hf as <- <-.
  apply locked_inv in H as [(e & s & Hf & _)|(unlock' & s4' & w2 & Hf & H & Hend)];
    cbn [sys add_event set_sys] in Hf; rewrite Hlock in Hf; [done|].
  injection Hf as <- <-.
  apply bind_inv in H as [(e & H & ->)|(m & w3 & Hsel & H)].
  { apply select_installed_inv in H as (? & ? & _). done. }
  apply select_installed_inv in Hsel as (m' & [= <-] & Hs3 & Ht3 & Hk3 & Hl3 & Hm).
  exists m. split.
  { intros k. rewrite Hm. rewrite lookup_empty.
    by destruct (decide _), (FilterDefinitions config !! k). }
  destruct Hend as [(_ & Hlog & Hsys & _)|(a & -> & ? & _)]; [|done].
  assert (Hwarn : ∀ w4, (∃ l, log w4 = log w3 ++ l) →
            ∀ n, n ∈ n0 :: rest → FilterDefinitions config !! n = None →
                 not_installed n ∈ log w4).
  { intros w4 [l Hl4] n Hin Hnone. rewrite Hl4, Hl3.
    apply elem_of_app. left. apply elem_of_app. right.
    apply list_elem_of_fmap. exists n. split; [done|].
    apply list_elem_of_In, filter_In. split; [by apply list_elem_of_In|].
    unfold is_installed. by rewrite Hnone. }
  cbn [sys] in Hs3.
  unfold bind at 1 in H. unfold or_return at 1, call, traced, on_sys in H.
  rewrite Hs3 in H.
  destruct (updateFilters m dot s4) as [[[]|e] s5] eqn:Hupd; cbn [fst snd is_ok] in *.
  - rewrite Logger_step in H.
    unfold Commands.return_sessionLockErr, bind, get_sessionLockErr, return_error in H.
    cbn [sys log trace sessionLockErr add_event set_sys] in H. rewrite Hk3 in H.
    cbn in H. injection H as <- <-. cbn in Hsys, Hlog.
    split; [done|]. split; [done|]. apply Hwarn. rewrite Hlog. cbn. by eexists.
  - injection H as <- <-. cbn in Hsys, Hlog.
    split; [done|]. split; [done|]. apply Hwarn. rewrite Hlog. cbn. exists []. 
    by rewrite app_nil_r.
Qed.

Lemma download_trace parsedArgs :
  ∀ acc w r w',
    download parsedArgs acc w = (r, w') →
    ∃ n,
      trace w' = trace w ++ downloads n
                 ++ (if is_ok r then []
                     else [EvCall "FilterDefinitionFromTheInternet" false]) ∧
      sessionLockErr w' = sessionLockErr w ∧
      match r with
      | Ok m =>
          n = length parsedArgs ∧
          ∀ k, is_Some (m !! k) ↔ is_Some (acc !! k) ∨ k ∈ name <$> parsedArgs
      | Err e =>
          ∃ a cause, parsedArgs !! n = Some a ∧ e = WrapError cause (download_failure a)
      end.
Proof.
  induction parsedArgs as [|a rest IH]; intros acc w r w' H; cbn [Commands.download] in H.
  - injection H as <- <-. exists 0. cbn. rewrite app_nil_r. split; [done|].
    split; [done|]. split; [done|].
    intros k. split; [by left|]. intros [?|?%elem_of_nil]; done.
  - apply call_step in H as [(e & s & _ & -> & ->)|(d & s & _ & H)].
    + exists 0. split; [done|]. split; [done|]. by exists a, e.
    + cbn zeta in H. apply IH in H as (n & Ht & Hk & Hr). exists (S n). split.
      * rewrite Ht. cbn. by rewrite <- !app_assoc.
      * split; [done|].
        destruct r as [m|e]; [|done]. destruct Hr as [-> Hdom]. split; [done|].
        intros k. rewrite Hdom. rewrite lookup_insert_is_Some, fmap_cons, elem_of_cons.
        destruct (decide (name a = k)) as [<-|Hne]; intuition congruence.
Qed.

Lemma store_trace fd (entries : list (string * RemoteFilterDefinition)) :
  ∀ i w r w',
    for_range i entries (λ _ entry,
      map_store fd entry.1 (VFilterDefinition entry.2)) w = (r, w') →
    r = Ok tt ∧ trace w' = trace w ++ (EvStore fd <$> entries.*1) ∧
    sessionLockErr w' = sessionLockErr w.
Proof.
  induction entries as [|[k d] rest IH]; intros i w r w' H; cbn [for_range] in H.
  - injection H as <- <-. by rewrite app_nil_r.
  - unfold bind at 1, map_store at 1 in H.
    apply IH in H as (-> & Ht & Hk). split; [done|]. split; [|done].
    rewrite Ht. cbn. by rewrite <- app_assoc.
Qed.

(** [Install] goes through its steps in order and stops at the first that
    fails: the calls of the opening, then, under the session lock, one
    download for each request, the installation of all the downloaded
    filters, the storing of their definitions and the writing of the
    configuration file. No definition is stored and the file is not written
    unless every download and the installation have succeeded, and the
    command returns nil exactly when the file was written. Once the lock is
    taken its release is the last call. *)
Theorem install_steps_in_order (filters : list string) (force debug : bool) w r w' :
  Install filters force debug w = (r, w') →
  ∃ t, trace w' = trace w ++ t ∧
    ((∃ e, parseInstallFilterArgs filters = Err e ∧
           r = Err (WrapError e "Failed to parse arguments.") ∧ t = []) ∨
     (∃ parsedArgs,
        parseInstallFilterArgs filters = Ok parsedArgs ∧
        ((is_ok r = false ∧ stopped install_opening t) ∨
         (∃ body ok,
            t = install_opening ++ body ++ [EvCall "unlockSession" ok] ∧
            install_body ConfigFilePath force parsedArgs r body)))).
Proof.
  intros H. unfold Commands.Install in H.
  apply prologue_inv in H as (w0 & _ & <- & _ & _ & H).
  apply bind_inv in H as [(e & H & ->)|(parsedArgs & w1 & Hparse & H)].
  { apply orelse_inv in H as [(? & _ & ?)|(e0 & H & [= ->])]; [done|].
    destruct (parseInstallFilterArgs filters) as [|e1] eqn:Hp; [done|].
    injection H as -> <-. exists []. rewrite app_nil_r. split; [done|]. left. by exists e0. }
  apply orelse_inv in Hparse as [(? & Hparse & [= <-])|(? & _ & ?)]; [|done].
  destruct (parseInstallFilterArgs filters) as [args|] eqn:Hp; [|done].
  injection Hparse as -> <-.
  assert (Hopen : ∀ t, is_ok r = false → stopped install_opening t →
            (∃ e, Ok parsedArgs = Err e ∧
                  r = Err (WrapError e "Failed to parse arguments.") ∧ t = []) ∨
            (∃ parsedArgs0,
               Ok parsedArgs = Ok parsedArgs0 ∧
               ((is_ok r = false ∧ stopped install_opening t) ∨
                (∃ body ok,
                   t = install_opening ++ body ++ [EvCall "unlockSession" ok] ∧
                   install_body ConfigFilePath force parsedArgs0 r body)))).
  { intros t Hr Hs. right. exists parsedArgs. split; [done|]. by left. }
  apply call_step in H as [(e & s & _ & -> & ->)|(config & s1 & _ & H)].
  { eexists. split; [trace_eq|]. apply Hopen; [done|]. stopped_at 0 install_opening. }
  apply call_step in H as [(e & s & _ & -> & ->)|(dataPath & s2 & _ & H)].
  { eexists. split; [trace_eq|]. apply Hopen; [done|]. stopped_at 1 install_opening. }
  apply call_step in H as [(e & s & _ & -> & ->)|(fd & s3 & _ & H)].
  { eexists. split; [trace_eq|]. apply Hopen; [done|]. stopped_at 2 install_opening. }
  apply call_step in H as [(e & s & _ & -> & ->)|(dot & s4 & _ & H)].
  { eexists. split; [trace_eq|]. apply Hopen; [done|]. stopped_at 3 install_opening. }
  apply locked_inv in H as [(e & s & _ & -> & Ht & _)|(unlock & s5 & w2 & _ & H & Hend)].
  { eexists. split; [rewrite Ht; trace_eq|]. apply Hopen; [done|].
    stopped_at 4 install_opening. }
  clear Hopen.
  destruct Hend as [(Ht & _ & _ & _)|(a & _ & ? & _)]; [|done].
  assert (Hbody : ∀ body,
            trace w2 = (trace w0 ++ install_opening) ++ body →
            install_body ConfigFilePath force parsedArgs r body →
            ∃ t, trace w' = trace w0 ++ t ∧
              ((∃ e, Ok parsedArgs = Err e ∧
                     r = Err (WrapError e "Failed to parse arguments.") ∧ t = []) ∨
               (∃ parsedArgs0,
                  Ok parsedArgs = Ok parsedArgs0 ∧
                  ((is_ok r = false ∧ stopped install_opening t) ∨
                   (∃ body ok,
                      t = install_opening ++ body ++ [EvCall "unlockSession" ok] ∧
                      install_body ConfigFilePath force parsedArgs0 r body))))).
  { intros body Hw2 Hb. eexists. split.
    - rewrite Ht, Hw2, <- !app_assoc. reflexivity.
    - right. exists parsedArgs. split; [done|]. right. by eexists body, _. }
  clear Ht.
  apply bind_inv in H as [(e & H & ->)|([] & w3 & Hforce & H)].
  { destruct force; [done|]. cbn [negb] in H. rewrite force_check_loop in H.
    destruct (first_installed _ parsedArgs) as [a|] eqn:Hfirst; [|done].
    injection H as <- <-. apply (Hbody []).
    - cbn. by rewrite <- !app_assoc, app_nil_r.
    - left. exists a. split; [done|]. split; [|done].
      apply find_some in Hfirst as [Hin _]. by apply list_elem_of_In. }
  assert (w3 = mkWorld s5 (log w0)
                 ((trace w0 ++ install_opening)) None) as ->.
  { destruct force; cbn [negb] in Hforce.
    - injection Hforce as <-. cbn. by rewrite <- !app_assoc.
    - rewrite force_check_loop in Hforce.
      destruct (first_installed _ parsedArgs); [done|]. injection Hforce as <-.
      cbn. by rewrite <- !app_assoc. }
  apply bind_inv in H as [(e & H & ->)|(m & w4 & Hdl & H)].
  { apply download_trace in H as (n & Ht & _ & a & cause & Ha & ->). apply (Hbody _ Ht).
    right. left. by exists n, a, cause. }
  apply download_trace in Hdl as (n & Ht4 & Hk4 & -> & Hdom). cbn [is_ok] in Ht4.
  cbn [sessionLockErr] in Hk4.
  rewrite app_nil_r in Ht4.
  apply call_step in H as [(e & s & _ & -> & ->)|([] & s6 & _ & H)].
  { apply (Hbody (downloads (length parsedArgs) ++ [EvCall "installFilters" false])).
    - cbn. rewrite Ht4. cbn [trace]. by rewrite <- !app_assoc.
    - right. right. left. by exists e. }
  apply bind_inv in H as [(e & H & ->)|([] & w5 & Hstore & H)].
  { apply store_trace in H as (? & _). done. }
  apply store_trace in Hstore as (_ & Ht5 & Hk5). cbn in Ht5.
  assert (Hkeys : NoDup (map_to_list m).*1 ∧
                  ∀ k, k ∈ (map_to_list m).*1 ↔ k ∈ name <$> parsedArgs).
  { split; [apply NoDup_fst_map_to_list|]. intros k. split.
    - intros ([k' d] & -> & Hin%elem_of_map_to_list)%list_elem_of_fmap.
      destruct (proj1 (Hdom k') (ex_intro _ d Hin)) as [[? Hempty]|?]; [|done].
      by rewrite lookup_empty in Hempty.
    - intros Hin. destruct (proj2 (Hdom k) (or_intror Hin)) as [d Hd].
      apply list_elem_of_fmap. exists (k, d).
      split; [done|]. by apply elem_of_map_to_list. }
  assert (Hwritten : ∀ data rw w6,
            os.WriteFile ConfigFilePath data w5 = (rw, w6) →
            trace w6 = trace w5 ++ [EvSys (SysWriteFile ConfigFilePath) (is_ok rw)] ∧
            sessionLockErr w6 = None).
  { intros data rw w6 Hwrite. unfold os.WriteFile in Hwrite.
    assert (sessionLockErr w5 = None) as Hnone by (by rewrite Hk5).
    apply failing_inv in Hwrite as (wx & -> & [(? & _ & _ & ->)|(_ & Hwx)]); [done|].
    by destruct (fs (sys w5) !! ConfigFilePath) as [[|?]|]; injection Hwx as _ <-. }
  apply bind_inv in H as [(? & ? & ?)|(jsonBytes & w5' & Hjson & H)]; [done|].
  injection Hjson as <- <-.
  apply bind_inv in H as [(e & Hwrite & ->)|([] & w6 & Hwrite & H)].
  - apply orelse_inv in Hwrite as [(? & _ & ?)|(e0 & Hwrite & [= ->])]; [done|].
    apply Hwritten in Hwrite as [Ht6 _].
    apply (Hbody (downloads (length parsedArgs) ++ [EvCall "installFilters" true]
                  ++ (EvStore fd <$> (map_to_list m).*1)
                  ++ [EvSys (SysWriteFile ConfigFilePath) false])).
    + rewrite Ht6, Ht5, Ht4. cbn [trace is_ok]. rewrite <- !app_assoc. reflexivity.
    + right. right. right. exists fd, (map_to_list m).*1, false.
      destruct Hkeys as [Hnd Hk]. split; [exact Hnd|]. split; [exact Hk|].
      split; [split; discriminate|reflexivity].
  - apply orelse_inv in Hwrite as [([] & Hwrite & _)|(? & _ & ?)]; [|done].
    apply Hwritten in Hwrite as [Ht6 Hk6].
    rewrite Logger_step in H.
    unfold Commands.return_sessionLockErr, bind, get_sessionLockErr, return_error in H.
    cbn [sys log trace sessionLockErr add_event set_sys] in H.
    rewrite Hk6 in H. injection H as <- <-.
    apply (Hbody (downloads (length parsedArgs) ++ [EvCall "installFilters" true]
                  ++ (EvStore fd <$> (map_to_list m).*1)
                  ++ [EvSys (SysWriteFile ConfigFilePath) true])).
    + cbn [trace]. rewrite Ht6, Ht5, Ht4. cbn [trace is_ok]. rewrite <- !app_assoc.
      reflexivity.
    + right. right. right. exists fd, (map_to_list m).*1, true.
      destruct Hkeys as [Hnd Hk]. split; [exact Hnd|]. split; [exact Hk|].
      split; [split; reflexivity|reflexivity].
Qed.

End Install_and_update_results.

(** ** The commands init and clean *)

Lemma prefix_length (a k : string) :
  String.prefix a k = true → (String.length a ≤ String.length k)%nat.
Proof.
  revert k. induction a as [|c a IH]; intros [|d k]; cbn; try done; try lia.
  destruct (ascii_dec c d); [|done]. intros H%IH. lia.
Qed.

Lemma length_append (a b : string) :
  String.length (a +:+ b) = String.length a + String.length b.
Proof.
  induction a as [|c a IH]; [done|]. rewrite append_cons. simpl String.length.
  by rewrite IH.
Qed.

(** The directories [MkdirAll p] makes sure of are [p] and paths above it:
    none is longer than [p]. *)
Lemma dirs_from_length s :
  ∀ acc k, k ∈ os.dirs_from acc s →
           (String.length k ≤ String.length acc + String.length s)%nat.
Proof.
  induction s as [|c s IH]; intros acc k; cbn.
  - destruct (String.eqb acc ""); [by intros ?%elem_of_nil|].
    intros ->%list_elem_of_singleton. lia.
  - destruct (Ascii.eqb c "/").
    + intros [Hk|Hk%IH]%elem_of_app.
      * destruct (String.eqb acc ""); [by apply elem_of_nil in Hk|].
        apply list_elem_of_singleton in Hk as ->. lia.
      * rewrite length_append in Hk. cbn in Hk. lia.
    + intros Hk%IH. rewrite length_append in Hk. cbn in Hk. lia.
Qed.

Lemma below_not_made (p k : string) :
  String.prefix (p +:+ "/") k = true → k ∉ os.dirs_of p.
Proof.
  intros Hk%prefix_length Hin%dirs_from_length.
  rewrite length_append in Hk. cbn in *. lia.
Qed.

(** [MkdirAll p] makes sure of [p] itself. *)
Lemma dirs_from_self s : ∀ acc, acc +:+ s ≠ "" → acc +:+ s ∈ os.dirs_from acc s.
Proof.
  induction s as [|c s IH]; intros acc Hne; cbn.
  - rewrite append_empty_r in *. apply String.eqb_neq in Hne. rewrite Hne. by left.
  - assert (Hstep : acc +:+ String c s ∈ os.dirs_from (acc +:+ String c "") s).
    { rewrite <- append_assoc_cons. apply IH. rewrite append_assoc_cons.
      destruct acc; done. }
    destruct (Ascii.eqb_spec c "/") as [->|]; [|done].
    apply elem_of_app. by right.
Qed.

Lemma dirs_of_self p : p ≠ "" → p ∈ os.dirs_of p.
Proof. intros Hp. by apply (dirs_from_self p ""). Qed.

(** [MkdirAll] never replaces a regular file. *)
Lemma MkdirAll_keeps_files path w r w' k c :
  os.MkdirAll path w = (r, w') →
  fs (sys w) !! k = Some (File c) → fs (sys w') !! k = Some (File c).
Proof.
  unfold os.MkdirAll.
  intros (w1 & -> & [(e & _ & _ & ->)|(_ & H)])%failing_inv Hk; [done|].
  destruct (existsb _ _) eqn:E; injection H as _ <-; [done|]. cbn.
  rewrite lookup_mkdirs. destruct (decide (k ∈ os.dirs_of path)) as [Hin|]; [|done].
  exfalso. apply not_true_iff_false in E. apply E. apply existsb_exists.
  exists k. split; [by apply list_elem_of_In|]. unfold os.is_file_at. by rewrite Hk.
Qed.

Lemma folders_self :
  Forall (λ folder, folder ∈ os.dirs_of folder) Maintenance.ConfigurationFolders.
Proof.
  unfold Maintenance.ConfigurationFolders.
  repeat (apply List.Forall_cons; [apply list_elem_of_In; vm_compute; tauto|]).
  apply List.Forall_nil.
Qed.

Section Init_and_clean_results.

Variable ConfigFilePath GitIgnore : string.
Variable osGetwdError getUserConfigError osUserCacheDirError appDataCachePath : string.
Variable os_Getwd : Sys → Res string.
Variable os_UserCacheDir : Sys → Res string.
Variable IsDirEmpty : string → Sys → Res bool * Sys.
Variable getUserConfig : Sys → Res UserConfig * Sys.
Variable getAppDataDotRegolith : bool → string → Sys → Res string * Sys.
Variable json_MarshalIndent_Config : Config → string.
Variable json_MarshalIndent_map : gmap string json → string.
Variable json_Unmarshal_into : string → gmap string json → gmap string json.
Variable Logger_Error_text : string → string → error → string.

Local Abbreviation Init :=
  (Maintenance.Init ConfigFilePath GitIgnore osGetwdError getUserConfigError os_Getwd
     IsDirEmpty getUserConfig json_MarshalIndent_Config json_MarshalIndent_map
     json_Unmarshal_into Logger_Error_text).
Local Abbreviation CleanCurrentProject :=
  (Maintenance.CleanCurrentProject getAppDataDotRegolith).
Local Abbreviation CleanUserCache :=
  (Maintenance.CleanUserCache osUserCacheDirError appDataCachePath os_UserCacheDir).

(** [CleanUserCache] returns nil exactly when the removal of the cache
    directory did not fail; whether the directory could be made again has no
    part in it. The error of [os.UserCacheDir] is replaced by a fixed
    message. After a successful run nothing is left below the cache
    directory. *)
Theorem clean_user_cache_result w r w' :
  CleanUserCache w = (r, w') →
  match os_UserCacheDir (sys w) with
  | Err _ => r = Err (WrappedError osUserCacheDirError) ∧ sys w' = sys w
  | Ok userCache =>
      let dir := Pipeline.filepath_Join userCache appDataCachePath in
      (r = Ok tt ↔ fault (sys w) (SysRemoveAll dir) = None) ∧
      (r = Ok tt →
         (∀ k, String.prefix (dir +:+ "/") k = true → fs (sys w') !! k = None) ∧
         ∃ made,
           trace w' = trace w ++ [EvCall "os.UserCacheDir" true;
                                  EvSys (SysRemoveAll dir) true;
                                  EvSys (SysMkdirAll dir) made] ∧
           (made = true → fs (sys w') !! dir = Some Dir))
  end.
Proof.
  unfold Maintenance.CleanUserCache. rewrite Logger_step.
  unfold bind at 1. unfold or_return at 1, ask, traced. cbn [sys].
  destruct (os_UserCacheDir (sys w)) as [userCache|e]; cbn [is_ok].
  2:{ by intros [= <- <-]. }
  cbn zeta. set (dir := Pipeline.filepath_Join userCache appDataCachePath).
  rewrite Logger_step.
  intros [(e & H & ->)|([] & w1 & Hrm & H)]%bind_inv.
  { apply orelse_inv in H as [(? & _ & ?)|(e0 & H & [= ->])]; [done|].
    apply RemoveAll_inv in H as (_ & _ & _ & _ & Hok). cbn [sys] in Hok.
    split; [|done]. split; [done|]. intros Hf. by specialize (Hok Hf). }
  apply orelse_inv in Hrm as [([] & Hrm & _)|(? & _ & ?)]; [|done].
  pose proof Hrm as Hrm'. unfold os.RemoveAll in Hrm'.
  apply failing_inv in Hrm' as (? & _ & [(? & _ & ? & _)|(Hfault & _)]); [done|].
  cbn [sys] in Hfault.
  apply RemoveAll_inv in Hrm as (Hs1 & _ & _ & Hgone & _). specialize (Hgone eq_refl).
  apply bind_inv in H as [(? & Hmk & ?)|(rm & w2 & Hmk & H)].
  { apply attempt_inv in Hmk as (? & _ & ?). done. }
  apply attempt_inv in Hmk as (rm' & Hmk & [= ->]).
  rewrite Logger_step in H. injection H as <- <-.
  pose proof Hmk as Hmk'.
  apply MkdirAll_inv in Hmk as (Hs2 & Hfr & _ & Hdirs & _).
  split; [done|]. intros _. cbn [sys]. split.
  - intros k Hk. rewrite Hfr by (by apply below_not_made).
    apply Hgone. apply orb_true_iff. by right.
  - exists (is_ok rm'). split.
    + cbn [trace]. rewrite (step_trace _ _ _ _ Hs2), (step_trace _ _ _ _ Hs1).
      cbn. by rewrite <- !app_assoc.
    + intros Hmade. destruct rm' as [[]|]; [|done]. apply Hdirs; [done|].
      apply dirs_of_self. unfold dir, Pipeline.filepath_Join. by destruct userCache.
Qed.

(** [CleanCurrentProject] removes the cache directory of the project and
    then the one in the application data folder, at the path
    [getAppDataDotRegolith] gave, and nothing else, when looking up the
    latter does not touch the file tree. When the first
    removal fails the command stops there: the second cache is not looked
    up and no file is removed. *)
Theorem clean_current_project_removes_both_caches w r w' :
  (∀ s, fs (getAppDataDotRegolith true "." s).2 = fs s) →
  CleanCurrentProject w = (r, w') →
  (r = Ok tt →
   ∃ dot s s',
     getAppDataDotRegolith true "." s = (Ok dot, s') ∧
     ∀ k, fs (sys w') !! k
          = if os.under ".regolith" k || os.under dot k then None else fs (sys w) !! k) ∧
  (fault (sys w) (SysRemoveAll ".regolith") ≠ None →
   is_ok r = false ∧
   trace w' = trace w ++ [EvSys (SysRemoveAll ".regolith") false] ∧
   fs (sys w') = fs (sys w)).
Proof.
  intros Hkeeps. unfold Maintenance.CleanCurrentProject, Maintenance.clean.
  rewrite !Logger_step.
  intros [(e & H & ->)|([] & w1 & Hrm & H)]%bind_inv.
  { apply orelse_inv in H as [(? & _ & ?)|(e0 & H & _)]; [done|].
    apply orelse_inv in H as [(? & _ & ?)|(e1 & H & _)]; [done|].
    unfold os.RemoveAll in H.
    apply failing_inv in H as (? & -> & [(? & _ & _ & ->)|(_ & ?)]); [|done].
    split; [done|]. intros _. by rewrite app_nil_r || done. }
  apply orelse_inv in Hrm as [([] & Hrm & _)|(? & _ & ?)]; [|done].
  apply orelse_inv in Hrm as [([] & Hrm & _)|(? & _ & ?)]; [|done].
  pose proof Hrm as Hrm'. unfold os.RemoveAll in Hrm'.
  apply failing_inv in Hrm' as (? & _ & [(? & _ & ? & _)|(Hfault & _)]); [done|].
  cbn [sys] in Hfault. split; [|by rewrite Hfault].
  intros ->.
  apply RemoveAll_inv in Hrm as (_ & Hfr1 & _ & Hgone1 & _). specialize (Hgone1 eq_refl).
  cbn [sys] in Hfr1.
  rewrite Logger_step in H.
  apply call_step in H as [(e & s & _ & ? & _)|(dot & s2 & Hdot & H)]; [done|].
  cbn [sys] in Hdot. pose proof (Hkeeps (sys w1)) as Hfs2. rewrite Hdot in Hfs2.
  cbn [snd] in Hfs2.
  rewrite Logger_step in H.
  apply bind_inv in H as [(e & _ & ?)|([] & w3 & Hrm2 & H)]; [done|].
  apply orelse_inv in Hrm2 as [([] & Hrm2 & _)|(? & _ & ?)]; [|done].
  apply orelse_inv in Hrm2 as [([] & Hrm2 & _)|(? & _ & ?)]; [|done].
  apply RemoveAll_inv in Hrm2 as (_ & Hfr2 & _ & Hgone2 & _). specialize (Hgone2 eq_refl).
  cbn [sys fs] in Hfr2.
  rewrite Logger_step in H. injection H as <-. cbn [sys].
  eexists dot, _, _. split; [exact Hdot|]. intros k.
  destruct (os.under dot k) eqn:E2; [rewrite orb_true_r; by apply Hgone2|].
  rewrite orb_false_r, Hfr2 by done. cbn [sys set_sys add_event]. rewrite Hfs2.
  destruct (os.under ".regolith" k) eqn:E1; [by apply Hgone1|by apply Hfr1].
Qed.

(** [Init] in a directory that is not empty refuses to initialize the
    project: it returns the error that names the directory, having written
    no file and created no directory. *)
Theorem init_needs_an_empty_directory (debug : bool) w wd s :
  os_Getwd (sys w) = Ok wd →
  IsDirEmpty wd (sys w) = (Ok false, s) →
  (Init debug w).1 = Err (WrappedError (Maintenance.not_empty_directory wd)) ∧
  sys (Init debug w).2 = s ∧
  trace (Init debug w).2 = trace w ++ [EvCall "os.Getwd" true; EvCall "IsDirEmpty" true].
Proof.
  intros Hwd Hempty.
  assert (Init debug w
          = (Err (WrappedError (Maintenance.not_empty_directory wd)),
             mkWorld s (log w ++ [(Info, "Initializing Regolith project...")])
               (trace w ++ [EvCall "os.Getwd" true; EvCall "IsDirEmpty" true])
               (sessionLockErr w))) as ->; [|done].
  unfold Maintenance.Init, Commands.InitLogging.
  unfold bind at 1. unfold ret at 1. rewrite Logger_step.
  unfold bind at 1. unfold or_return at 1, ask, traced. cbn [sys]. rewrite Hwd.
  cbn [is_ok]. unfold bind at 1. unfold or_return at 1, call, traced, on_sys.
  cbn [sys add_event set_sys log trace sessionLockErr]. rewrite Hempty.
  cbn [is_ok negb]. unfold throw, add_event, set_sys. cbn [sys log trace sessionLockErr].
  by rewrite <- app_assoc.
Qed.

(** The loop of [Init] over the folders of a new project. *)
Lemma init_folders_inv (folders : list string) :
  Forall (λ folder, folder ∈ os.dirs_of folder) folders →
  ∀ i w r w',
    for_range i folders (λ _ folder,
      r <- attempt (os.MkdirAll folder) ;;
      match r with
      | Err err =>
          Logger Error (Logger_Error_text "Could not create folder: %s" folder err)
      | Ok _ => ret tt
      end) w = (r, w') →
    r = Ok tt ∧
    (∀ k c, fs (sys w) !! k = Some (File c) → fs (sys w') !! k = Some (File c)) ∧
    (∀ k, fs (sys w) !! k = Some Dir → fs (sys w') !! k = Some Dir) ∧
    (∀ entry, entry ∈ log w → entry ∈ log w') ∧
    ∀ folder, folder ∈ folders →
      fs (sys w') !! folder = Some Dir ∨
      ∃ err, (Error, Logger_Error_text "Could not create folder: %s" folder err) ∈ log w'.
Proof.
  induction folders as [|folder rest IH]; intros Hself i w r w' H; cbn [for_range] in H.
  - injection H as <- <-. repeat split; try done. by intros ? ?%elem_of_nil.
  - apply Forall_cons in Hself as [Hfolder Hself].
    unfold bind at 1 in H. unfold bind at 1 in H. unfold attempt at 1 in H.
    destruct (os.MkdirAll folder w) as [rm w0] eqn:Hmk.
    pose proof (λ k c, MkdirAll_keeps_files _ _ _ _ k c Hmk) as Hfiles.
    apply MkdirAll_inv in Hmk as (Hs0 & _ & Hdir0 & Hdirs & _).
    destruct rm as [[]|err].
    + unfold ret at 1 in H.
      apply (IH Hself) in H as (-> & Hfiles' & Hdir' & Hlog' & Hrest).
      split; [done|]. split; [|split; [|split]].
      * intros k c Hk. by apply Hfiles', Hfiles.
      * intros k Hk. by apply Hdir', Hdir0.
      * intros entry Hin. apply Hlog'. rewrite (step_log _ _ _ _ Hs0).
        apply elem_of_app. by left.
      * intros folder' [->|Hin]%elem_of_cons; [|by apply Hrest].
        left. apply Hdir'. by apply Hdirs.
    + unfold Logger at 1 in H.
      apply (IH Hself) in H as (-> & Hfiles' & Hdir' & Hlog' & Hrest).
      cbn [sys log] in *.
      split; [done|]. split; [|split; [|split]].
      * intros k c Hk. by apply Hfiles', Hfiles.
      * intros k Hk. by apply Hdir', Hdir0.
      * intros entry Hin. apply Hlog'. rewrite (step_log _ _ _ _ Hs0).
        apply elem_of_app. left. apply elem_of_app. by left.
      * intros folder' [->|Hin]%elem_of_cons; [|by apply Hrest].
        right. exists err. apply Hlog'. apply elem_of_app. right. by left.
Qed.

(** [Init] in an empty directory, when the user configuration can be read,
    fails only with the error of writing the configuration file: a failure
    to write [.gitignore] or to create one of the folders of the project
    does not make it fail. When it returns
    nil, the configuration file holds the default configuration of the user
    with the schema property added, and each folder of the project is a
    directory or the failure to create it was logged. *)
Theorem init_writes_the_default_configuration (debug : bool) w r w' wd s1 userConfig :
  os_Getwd (sys w) = Ok wd →
  IsDirEmpty wd (sys w) = (Ok true, s1) →
  (∀ s, (getUserConfig s).1 = Ok userConfig) →
  Init debug w = (r, w') →
  (r = Ok tt ∨
   ∃ cause, r = Err (WrapError cause ("Failed to write data to " +:+ q ConfigFilePath))) ∧
  (r = Ok tt →
   fs (sys w') !! ConfigFilePath
   = Some (File (json_MarshalIndent_map
                   (<["$schema" := JString Maintenance.schema_url]>
                      (json_Unmarshal_into
                         (json_MarshalIndent_Config
                            (Maintenance.default_config (Username userConfig))) ∅)))) ∧
   ∀ folder, folder ∈ Maintenance.ConfigurationFolders →
     fs (sys w') !! folder = Some Dir ∨
     ∃ err, (Error, Logger_Error_text "Could not create folder: %s" folder err)
            ∈ log w').
Proof.
  intros Hwd Hempty Huser. unfold Maintenance.Init, Commands.InitLogging.
  unfold bind at 1. unfold ret at 1. rewrite Logger_step.
  unfold bind at 1. unfold or_return at 1, ask, traced. cbn [sys]. rewrite Hwd.
  cbn [is_ok]. unfold bind at 1. unfold or_return at 1, call, traced, on_sys.
  cbn [sys add_event set_sys log trace sessionLockErr]. rewrite Hempty.
  cbn [is_ok negb].
  intros [(? & Hg & ?)|(rg & w1 & Hg & H)]%bind_inv.
  { apply attempt_inv in Hg as (? & _ & ?). done. }
  apply call_step in H as [(e & s & Hu & _)|(uc & s3 & Hu & H)];
    apply (f_equal fst) in Hu; rewrite Huser in Hu; [done|]. injection Hu as <-.
  cbn zeta in H.
  apply bind_inv in H as [(e & H & ->)|([] & w2 & Hwrite & H)].
  { apply orelse_inv in H as [(? & _ & ?)|(e0 & _ & [= ->])]; [done|].
    split; [right; by eexists|done]. }
  apply orelse_inv in Hwrite as [([] & Hwrite & _)|(? & _ & ?)]; [|done].
  apply WriteFile_inv in Hwrite as (Hfile & _).
  apply bind_inv in H as [(e & H & _)|([] & w3 & Hloop & H)].
  { apply init_folders_inv in H as (? & _); [done|apply folders_self]. }
  apply init_folders_inv in Hloop as (_ & Hfiles & _ & _ & Hfolders);
    [|apply folders_self].
  rewrite Logger_step in H. injection H as <- <-.
  split; [by left|]. intros _. cbn [sys log]. split; [by apply Hfiles|].
  intros folder Hin. destruct (Hfolders folder Hin) as [?|[err Herr]]; [by left|].
  right. exists err. apply elem_of_app. by left.
Qed.

End Init_and_clean_results.

(** ** Profiles and the run of the pipeline *)

Section Profile_results.

Variable FilterRunnerFromObjectAndDefinitions :
  gmap string json → gmap string FilterInstaller → Res FilterRunner.
Variable ExportTargetFromObject : gmap string json → Res ExportTarget.
Variable nth : nat → string.

Local Abbreviation profile_filters :=
  (Profiles.profile_filters FilterRunnerFromObjectAndDefinitions nth).
Local Abbreviation ProfileFromObject :=
  (Profiles.ProfileFromObject FilterRunnerFromObjectAndDefinitions ExportTargetFromObject nth).
Local Abbreviation parses := (parses_to FilterRunnerFromObjectAndDefinitions).

Lemma profile_filters_parsed defs filters :
  ∀ i acc res,
    profile_filters defs i filters acc = (res, None) ↔
    ∃ runners, res = acc ++ runners ∧ Forall2 (parses defs) filters runners.
Proof.
  induction filters as [|entry rest IH]; intros i acc res; cbn [Profiles.profile_filters].
  - split.
    + intros [= <-]. exists []. by rewrite app_nil_r.
    + intros (runners & -> & ->%Forall2_nil_inv_l). by rewrite app_nil_r.
  - split.
    + destruct entry as [| | | | |filter]; try done.
      destruct (FilterRunnerFromObjectAndDefinitions filter defs) as [runner|] eqn:Hf;
        [|done].
      intros (runners & -> & Hall)%IH. exists (runner :: runners).
      split; [by rewrite <- app_assoc|]. constructor; [by exists filter|done].
    + intros (runners & -> & Hall).
      apply Forall2_cons_inv_l in Hall as (runner & runners' & (filter & -> & Hf) & Hall & ->).
      rewrite Hf. apply IH. exists runners'. split; [by rewrite <- app_assoc|done].
Qed.

(** [ProfileFromObject] returns a nil error exactly when ["filters"] is an
    array of entries of which a runner can be made each, and ["export"] is
    an object of which the export target can be made. The profile then has
    one runner for each entry, in the order of the entries, and that export
    target. *)
Theorem profile_from_object_parses (obj : gmap string json)
    (filterDefinitions : gmap string FilterInstaller) (profile : Profile) :
  ProfileFromObject obj filterDefinitions = (profile, None) ↔
  ∃ filters export,
    obj !! "filters" = Some (JArray filters) ∧
    obj !! "export" = Some (JObject export) ∧
    ExportTargetFromObject export = Ok (profile_ExportTarget profile) ∧
    Forall2 (parses filterDefinitions) filters (Filters profile).
Proof.
  unfold Profiles.ProfileFromObject. cbn zeta. split.
  - destruct (obj !! "filters") as [[| | | |filters|]|]; try done.
    destruct (profile_filters filterDefinitions 0 filters []) as [runners [err|]] eqn:Hf;
      [done|].
    apply profile_filters_parsed in Hf as (runners' & -> & Hall).
    destruct (obj !! "export") as [[| | | | |export]|]; try done.
    destruct (ExportTargetFromObject export) as [target|] eqn:He; [|done].
    intros [= <-]. by exists filters, export.
  - intros (filters & export & -> & -> & -> & Hall).
    assert (profile_filters filterDefinitions 0 filters [] = (Filters profile, None)) as ->.
    { apply profile_filters_parsed. by exists (Filters profile). }
    by destruct profile as [[runners] target].
Qed.

Lemma profile_filters_unparsed defs filters :
  ∀ i0 acc k entry runners,
    filters !! k = Some entry →
    (∀ runner, ¬ parses defs entry runner) →
    Forall2 (parses defs) (take k filters) runners →
    ∃ err,
      profile_filters defs i0 filters acc = (acc ++ runners, Some err) ∧
      (err = WrappedError ("The " +:+ nth (i0 + k) +:+ " filter from the list is not a map.") ∨
       ∃ cause, err = WrapError cause
                        ("Could not parse the " +:+ nth (i0 + k)
                         +:+ " filter of the profile.")).
Proof.
  induction filters as [|first rest IH]; intros i0 acc k entry runners Hk Hno Hall; [done|].
  destruct k as [|k]; cbn in Hk, Hall.
  - injection Hk as ->. apply Forall2_nil_inv_l in Hall as ->.
    rewrite Nat.add_0_r, app_nil_r. cbn [Profiles.profile_filters].
    destruct entry as [| | | | |filter]; try (eexists; split; [reflexivity|by left]).
    destruct (FilterRunnerFromObjectAndDefinitions filter defs) as [runner|cause] eqn:Hf.
    + destruct (Hno runner). by exists filter.
    + eexists. split; [reflexivity|]. right. by eexists.
  - apply Forall2_cons_inv_l in Hall as (runner & runners' & (filter & -> & Hf) & Hall & ->).
    cbn [Profiles.profile_filters]. rewrite Hf.
    replace (i0 + S k) with (S i0 + k) by lia.
    destruct (IH (S i0) (acc ++ [runner]) k entry runners' Hk Hno Hall) as (err & -> & Herr).
    exists err. by rewrite <- app_assoc.
Qed.

(** The first entry of ["filters"] of which no runner can be made stops
    [ProfileFromObject]: the error names the position of the entry, the
    profile returned with it holds the runners of the entries before that
    one, and ["export"] is not looked at, so that the export target is the
    zero value. *)
Theorem profile_stops_at_an_unparsable_filter (obj : gmap string json)
    (filterDefinitions : gmap string FilterInstaller) (filters : list json)
    (i : nat) (entry : json) (runners : list FilterRunner) :
  obj !! "filters" = Some (JArray filters) →
  filters !! i = Some entry →
  (∀ runner, ¬ parses filterDefinitions entry runner) →
  Forall2 (parses filterDefinitions) (take i filters) runners →
  ∃ err,
    ProfileFromObject obj filterDefinitions
    = (mkProfile (mkFilterCollection runners) (mkExportTarget "" false), Some err) ∧
    (err = WrappedError ("The " +:+ nth i +:+ " filter from the list is not a map.") ∨
     ∃ cause, err = WrapError cause
                      ("Could not parse the " +:+ nth i +:+ " filter of the profile.")).
Proof.
  intros Hfilters Hi Hno Hall.
  destruct (profile_filters_unparsed filterDefinitions filters 0 [] i entry runners
              Hi Hno Hall) as (err & Hf & Herr).
  exists err. split; [|exact Herr].
  unfold Profiles.ProfileFromObject. cbn zeta. rewrite Hfilters, Hf. reflexivity.
Qed.

End Profile_results.

Section Pipeline_results.

Variable cwd : string.
Variable LoadConfigAsMap : Sys → Res loc * Sys.
Variable ConfigFromObject : loc → Sys → Res Config * Sys.
Variable ExportProject : Profile → string → string → Sys → Res unit * Sys.

Local Abbreviation RunProfile :=
  (Pipeline.RunProfile cwd LoadConfigAsMap ConfigFromObject ExportProject).

(** When the configuration cannot be loaded or cannot be parsed,
    [RunProfile] returns that error with the same context in both cases,
    and does nothing more: no runner is checked, nothing is staged, run or
    exported. *)
Theorem run_needs_the_configuration (profileName : string) (w : World) r w' :
  RunProfile profileName w = (r, w') →
  (∀ e s, LoadConfigAsMap (sys w) = (Err e, s) →
     r = Err (WrapError e could_not_load) ∧
     w' = add_event (EvCall "LoadConfigAsMap" false) (set_sys s w)) ∧
  (∀ cj s1 e s2,
     LoadConfigAsMap (sys w) = (Ok cj, s1) →
     ConfigFromObject cj s1 = (Err e, s2) →
     r = Err (WrapError e could_not_load) ∧
     w' = add_event (EvCall "ConfigFromObject" false)
            (set_sys s2 (add_event (EvCall "LoadConfigAsMap" true) (set_sys s1 w)))).
Proof.
  unfold Pipeline.RunProfile. intros H. split.
  - intros e s HL.
    apply call_step in H as [(e' & s' & Hf & -> & ->)|(? & ? & Hf & _)];
      rewrite HL in Hf; [|done]. by injection Hf as <- <-.
  - intros cj s1 e s2 HL HC.
    apply call_step in H as [(e' & s' & Hf & _)|(cj' & s1' & Hf & H)];
      rewrite HL in Hf; [done|]. injection Hf as <- <-.
    apply call_step in H as [(e' & s' & Hf & -> & ->)|(? & ? & Hf & _)];
      cbn [sys add_event set_sys] in Hf; rewrite HC in Hf; [|done].
    by injection Hf as <- <-.
Qed.

(** A pass of [RunProfileImpl] that returns nil has run the runners that are
    not disabled, in order, and has logged for each runner that it is
    skipped, when it is disabled, and otherwise that it runs, unless its id
    is empty, and that it was executed. *)
Theorem run_phase_log (profile : Profile) (profileName : string) (config : Config)
    (parentContext : option RunContext) w w' :
  Pipeline.RunProfileImpl cwd profile profileName config parentContext w = (Ok tt, w') →
  log w' = log w ++ run_lines (Filters profile) ∧
  trace w' = trace w ++ runs_ok 0 (Filters profile).
Proof.
  unfold Pipeline.RunProfileImpl. generalize 0 as i. revert w.
  induction (Filters profile) as [|f l IH]; intros w i H; cbn [for_range] in H.
  - injection H as <-. by rewrite !app_nil_r.
  - cbn [run_lines flat_map runs_ok]. fold (run_lines l).
    unfold bind at 1 in H. cbn zeta in H. destruct (IsDisabled f).
    + unfold Logger at 1 in H. apply IH in H as [Hl Ht]. cbn in *.
      split; [by rewrite Hl, <- app_assoc|done].
    + assert (∃ lines,
        lines = (if negb (String.eqb (GetId f) "")
                 then [(Info, "Running filter " +:+ GetId f)] else []) ∧
        ((if negb (String.eqb (GetId f) "")
          then Logger Info ("Running filter " +:+ GetId f) else ret tt) w
         = (Ok tt, mkWorld (sys w) (log w ++ lines) (trace w) (sessionLockErr w))))
        as (lines & Hlines & Hstart).
      { destruct (negb _); eexists; split; try reflexivity.
        unfold ret. rewrite app_nil_r. by destruct w. }
      unfold bind at 1 in H. rewrite Hstart in H. rewrite <- Hlines. clear Hstart Hlines.
      unfold bind at 1 in H. unfold attempt, invoke, traced, on_sys in H. cbn [sys] in H.
      destruct (runner_Run f _ (sys w)) as [[[]|e] s]; cbn [is_ok] in H;
        rewrite Logger_step in H; [|done].
      unfold ret at 1 in H. apply IH in H as [Hl Ht]. cbn in *.
      split; [by rewrite Hl, <- !app_assoc|by rewrite Ht, <- app_assoc].
Qed.

End Pipeline_results.

(** * Further runs of the concrete projects *)

Lemma tool_steps_in_order_witness :
  let w := Examples.project_machine in
  let run := Examples.Tool "lint" [] false w in
  run.1 = Ok tt ∧
  ∃ id ok, trace run.2 = locked_opening ++ tool_steps id ++ [EvCall "unlockSession" ok].
Proof.
  intros w run.
  assert (Hr : run.1 = Ok tt) by (vm_compute; reflexivity).
  split; [exact Hr|].
  destruct (tool_steps_in_order "/project" "the session is locked" (λ path, "mkdir " +:+ path)
              (λ n, "create " +:+ n) (λ n, "check " +:+ n) (λ path, "setup " +:+ path)
              (λ n, "run " +:+ n) Examples.load (Examples.parse Examples.loaded_config)
              Examples.dot_regolith Examples.succeed Examples.acquire
              (λ _ _ s, (Ok tt, s)) (λ _ _ s, (Ok tt, s))
              "lint" [] false w run.1 run.2 (surjective_pairing run))
    as (t & Ht & [(H & _)|[(H & _)|[(c & ok & H & _)|[(id & body & ok & H & _)
                  |(id & ok & _ & ->)]]]]);
    try (rewrite Hr in H; discriminate H).
  exists id, ok. exact Ht.
Defined.

Lemma run_steps_in_order_witness :
  let w := Examples.project_machine in
  let run := Examples.runOrWatch (Ok tt) true 1 "default" false false w in
  run.1 = Ok Returned ∧
  ∃ ok, trace run.2 = locked_opening ++ run_steps ++ [EvCall "unlockSession" ok].
Proof.
  intros w run.
  assert (Hr : run.1 = Ok Returned) by (vm_compute; reflexivity).
  split; [exact Hr|].
  destruct (run_steps_in_order "/project" "the session is locked" (λ path, "mkdir " +:+ path)
              Examples.load (Examples.parse Examples.loaded_config) Examples.dot_regolith
              Examples.succeed Examples.acquire
              (λ _ _ _ _ _ s, (Ok tt, s)) (λ _ s, (Ok tt, s)) (λ _ s, s) (λ e, e)
              (λ _ s, Some s)
              1 "default" false w run.1 run.2 (surjective_pairing run))
    as (t & Ht & [(H & _)|[(H & _)|[(e & ok & H & _)|[(c & ok & H & _)
                  |(ok & _ & ->)]]]]);
    try (rewrite Hr in H; discriminate H).
  exists ok. exact Ht.
Defined.

Lemma watching_keeps_the_lock_witness :
  let w := Examples.project_machine in
  let run := Examples.runOrWatch (Ok tt) true 3 "default" false true w in
  is_ok run.1 = true ∧
  ∀ ok, EvCall "unlockSession" ok ∉ trace run.2.
Proof.
  intros w run.
  assert (Hr : is_ok run.1 = true) by (vm_compute; reflexivity).
  split; [exact Hr|].
  destruct (watching_keeps_the_lock "/project" "the session is locked"
              (λ path, "mkdir " +:+ path)
              Examples.load (Examples.parse Examples.loaded_config) Examples.dot_regolith
              Examples.succeed Examples.acquire
              (λ _ _ _ _ _ s, (Ok tt, s)) (λ _ s, (Ok tt, s)) (λ _ s, s) (λ e, e)
              (λ _ s, Some s)
              3 "default" false w run.1 run.2 (surjective_pairing run))
    as (t & Ht & [(H & _)|(exit & tw & _ & _ & _ & _ & Hno)]).
  - rewrite Hr in H. discriminate H.
  - intros ok. rewrite Ht. exact (Hno ok).
Defined.

Lemma maintenance_commands_release_the_lock_witness :
  let w := Examples.project_machine in
  let outcome (fn msg : string) (run : Res unit * World) : Prop :=
    ∃ t, trace run.2 = trace w ++ t ∧ maintenance_outcome fn msg run.1 t in
  outcome "installFilters" "Could not install filters." (Examples.InstallAll false false w) ∧
  outcome "updateFilters" "Could not install filters." (Examples.UpdateAll false w) ∧
  outcome "updateFilters" "Could not update filters." (Examples.Update ["lint"] false w).
Proof.
  intros w outcome.
  destruct (maintenance_commands_release_the_lock "git is not installed"
              "the session is locked" (λ _, true) Examples.load
              (Examples.parse Examples.loaded_config) Examples.dot_regolith
              Examples.acquire Examples.install_filters Examples.update_filters)
    as (H1 & H2 & H3).
  split; [|split].
  - exact (H1 false false w _ _ (surjective_pairing _)).
  - exact (H2 false w _ _ (surjective_pairing _)).
  - refine (H3 ["lint"] false w _ _ _ (surjective_pairing _)). discriminate.
Defined.

Lemma update_passes_the_installed_filters_witness :
  let w := Examples.project_machine in
  let run := Examples.Update ["lint"; "ghost"] false w in
  run.1 = Ok tt ∧ not_installed "ghost" ∈ log run.2.
Proof.
  intros w run.
  destruct (update_passes_the_installed_filters "git is not installed"
              "the session is locked" (λ _, true) Examples.load
              (Examples.parse Examples.loaded_config) Examples.dot_regolith
              Examples.acquire Examples.update_filters
              ["lint"; "ghost"] false w 1 (sys w) Examples.loaded_config (sys w)
              ".regolith" (sys w) Examples.failing_unlock (sys w))
    as (m & _ & Hr & _ & Hwarn).
  - discriminate.
  - reflexivity.
  - reflexivity.
  - reflexivity.
  - reflexivity.
  - split; [exact Hr|]. apply Hwarn.
    + apply list_elem_of_In. right. left. reflexivity.
    + vm_compute. reflexivity.
Defined.

Lemma install_steps_in_order_witness :
  let w := Examples.project_machine in
  let run := Examples.Install ["github.com/x/shade==1.0.0"] false false w in
  run.1 = Ok tt ∧
  ∃ body ok,
    trace run.2 = install_opening ++ body ++ [EvCall "unlockSession" ok] ∧
    install_body "config.json" false [mkParsedArg "github.com/x/shade" "shade" "1.0.0"]
      run.1 body.
Proof.
  intros w run.
  assert (Hr : run.1 = Ok tt) by (vm_compute; reflexivity).
  split; [exact Hr|].
  destruct (install_steps_in_order "config.json" "git is not installed"
              "the session is locked" (λ _, true) Examples.parse_requests Examples.load
              Examples.data_path Examples.filter_definitions Examples.dot_regolith
              Examples.acquire (Examples.from_the_internet ["1.2.0"; "1.1.0"])
              Examples.create_runner Examples.install_filters Examples.marshal
              ["github.com/x/shade==1.0.0"] false false w run.1 run.2
              (surjective_pairing run))
    as (t & Ht & [(e & H & _)|(parsedArgs & Hp & [(H & _)|(body & ok & -> & Hb)])]).
  - vm_compute in H. discriminate H.
  - rewrite Hr in H. discriminate H.
  - exists body, ok. split; [exact Ht|].
    vm_compute in Hp. injection Hp as <-. exact Hb.
Defined.

Lemma clean_user_cache_result_witness :
  let w := Fixtures.cached_machine in
  let run := Fixtures.CleanUserCache w in
  let dir := "/home/nobody/.cache/regolith" in
  run.1 = Ok tt ∧
  (∀ k, String.prefix (dir +:+ "/") k = true → fs (sys run.2) !! k = None) ∧
  fs (sys run.2) !! dir = Some Dir.
Proof.
  intros w run dir.
  assert (Hr : run.1 = Ok tt) by (vm_compute; reflexivity).
  split; [exact Hr|].
  pose proof (clean_user_cache_result "cannot get the user cache directory" "regolith"
                Fixtures.user_cache w run.1 run.2 (surjective_pairing run)) as H.
  cbv beta iota zeta delta [Fixtures.user_cache] in H.
  change (Pipeline.filepath_Join "/home/nobody/.cache" "regolith") with dir in H.
  destruct H as (_ & H). destruct (H Hr) as (Hgone & made & Ht & Hmade).
  split; [exact Hgone|]. apply Hmade.
  assert (Hlast : last (trace run.2) = Some (EvSys (SysMkdirAll dir) true))
    by (vm_compute; reflexivity).
  rewrite Ht in Hlast. vm_compute in Hlast. by injection Hlast.
Defined.

Lemma clean_current_project_removes_both_caches_witness :
  let w := Fixtures.cached_machine in
  let run := Maintenance.CleanCurrentProject Fixtures.app_data w in
  run.1 = Ok tt ∧
  fs (sys run.2) !! ".regolith/cache/venvs/v1" = None ∧
  fs (sys run.2) !! "/home/nobody/.cache/regolith/project-cache/f1" = None ∧
  fs (sys run.2) !! "/home/nobody/.cache/regolith/other/f2" = Some (File "filter") ∧
  fs (sys run.2) !! "packs/RP/manifest.json" = Some (File "{}").
Proof.
  intros w run.
  assert (Hr : run.1 = Ok tt) by (vm_compute; reflexivity).
  split; [exact Hr|].
  destruct (clean_current_project_removes_both_caches Fixtures.app_data w run.1 run.2
              (λ s, eq_refl) (surjective_pairing run)) as (H & _).
  destruct (H Hr) as (dot & s & s' & Hdot & Hfs). injection Hdot as <- _.
  rewrite !Hfs. repeat split; vm_compute; reflexivity.
Defined.

Lemma init_needs_an_empty_directory_witness :
  let w := Examples.project_machine in
  let run := Fixtures.Init false w in
  run.1 = Err (WrappedError (Maintenance.not_empty_directory "/project")) ∧
  sys run.2 = sys w.
Proof.
  intros w run.
  destruct (init_needs_an_empty_directory "config.json" "/build"
              "cannot get the working directory" "cannot get the user configuration"
              Fixtures.getwd Fixtures.is_dir_empty Fixtures.user_config
              Fixtures.marshal_config Fixtures.marshal_map Fixtures.unmarshal_into
              Fixtures.error_text false w "/project" (sys w))
    as (Hr & Hs & _).
  - reflexivity.
  - vm_compute. reflexivity.
  - split; [exact Hr|exact Hs].
Defined.

Lemma init_writes_the_default_configuration_witness :
  let w := Fixtures.empty_machine in
  let run := Fixtures.Init false w in
  run.1 = Ok tt ∧
  fs (sys run.2) !! "config.json"
  = Some (File ("text: name: Project name, author: nobody; $schema: "
                +:+ Maintenance.schema_url +:+ "; ")) ∧
  fs (sys run.2) !! "packs/RP" = Some Dir.
Proof.
  intros w run.
  assert (Hr : run.1 = Ok tt) by (vm_compute; reflexivity).
  split; [exact Hr|].
  destruct (init_writes_the_default_configuration "config.json" "/build"
              "cannot get the working directory" "cannot get the user configuration"
              Fixtures.getwd Fixtures.is_dir_empty Fixtures.user_config
              Fixtures.marshal_config Fixtures.marshal_map Fixtures.unmarshal_into
              Fixtures.error_text false w run.1 run.2 "/project" (sys w)
              (mkUserConfig "nobody"))
    as (_ & H).
  - reflexivity.
  - vm_compute. reflexivity.
  - intros s. reflexivity.
  - apply surjective_pairing.
  - destruct (H Hr) as (Hfile & Hfolders). split.
    + etransitivity; [exact Hfile|]. vm_compute. reflexivity.
    + destruct (Hfolders "packs/RP") as [Hdir|(err & Hlog)].
      * apply list_elem_of_In. vm_compute. tauto.
      * exact Hdir.
      * exfalso. apply list_elem_of_In in Hlog. vm_compute in Hlog.
        destruct Hlog as [Hl|[Hl|[]]]; discriminate Hl.
Defined.

Lemma profile_from_object_parses_witness :
  let obj : gmap string json :=
    {[ "filters" := JArray [Fixtures.lint_entry];
       "export" := JObject Fixtures.export_entry ]} in
  Profiles.ProfileFromObject Fixtures.runner_of Fixtures.export_of Fixtures.ordinal obj
    (FilterDefinitions Examples.loaded_config)
  = (Examples.profile_of [Examples.passing "lint" false], None).
Proof.
  intros obj.
  apply (profile_from_object_parses Fixtures.runner_of Fixtures.export_of
           Fixtures.ordinal obj (FilterDefinitions Examples.loaded_config)
           (Examples.profile_of [Examples.passing "lint" false])).
  exists [Fixtures.lint_entry], Fixtures.export_entry.
  split; [vm_compute; reflexivity|]. split; [vm_compute; reflexivity|].
  split; [vm_compute; reflexivity|].
  constructor; [|constructor].
  exists {[ "filter" := JString "lint" ]}. split; [reflexivity|vm_compute; reflexivity].
Defined.

Lemma profile_stops_at_an_unparsable_filter_witness :
  let obj : gmap string json :=
    {[ "filters" := JArray [Fixtures.lint_entry; JString "lint"];
       "export" := JObject Fixtures.export_entry ]} in
  Profiles.ProfileFromObject Fixtures.runner_of Fixtures.export_of Fixtures.ordinal obj
    (FilterDefinitions Examples.loaded_config)
  = (mkProfile (mkFilterCollection [Examples.passing "lint" false])
       (mkExportTarget "" false),
     Some (WrappedError "The 2nd filter from the list is not a map.")).
Proof.
  intros obj.
  destruct (profile_stops_at_an_unparsable_filter Fixtures.runner_of Fixtures.export_of
              Fixtures.ordinal obj (FilterDefinitions Examples.loaded_config)
              [Fixtures.lint_entry; JString "lint"] 1 (JString "lint")
              [Examples.passing "lint" false])
    as (err & Hrun & [->|[cause ->]]).
  - vm_compute. reflexivity.
  - reflexivity.
  - intros runner (filter & Hentry & _). discriminate Hentry.
  - constructor; [|constructor].
    exists {[ "filter" := JString "lint" ]}. split; [reflexivity|vm_compute; reflexivity].
  - exact Hrun.
  - exfalso. revert Hrun. vm_compute. discriminate.
Defined.

Lemma run_needs_the_configuration_witness :
  let w := Examples.machine Examples.no_fault in
  let broken : loc → Sys → Res Config * Sys :=
    λ _ s, (Err (Foreign "the name is missing"), s) in
  let run := Pipeline.RunProfile "/project" Examples.load broken Examples.export
               "default" w in
  run.1 = Err (WrapError (Foreign "the name is missing") could_not_load) ∧
  sys run.2 = sys w.
Proof.
  intros w broken run.
  destruct (run_needs_the_configuration "/project" Examples.load broken Examples.export
              "default" w run.1 run.2 (surjective_pairing run)) as (_ & H).
  destruct (H 1 (sys w) (Foreign "the name is missing") (sys w) eq_refl eq_refl)
    as (Hr & Hw).
  split; [exact Hr|]. rewrite Hw. reflexivity.
Defined.

Lemma run_phase_log_witness :
  let w := Examples.machine Examples.no_fault in
  let profile := Examples.profile_of
                   [Examples.passing "lint" false; Examples.passing "minify" true] in
  let config := Examples.config_with "packs/RP" "" "" {[ "default" := profile ]} in
  let run := Pipeline.RunProfileImpl "/project" profile "default" config None w in
  log run.2
  = [(Info, "Running filter lint"); (Debug, "Executed in ");
     (Info, "Filter " +:+ q "minify" +:+ " is disabled, skipping.")].
Proof.
  intros w profile config run.
  assert (Hr : run.1 = Ok tt) by (vm_compute; reflexivity).
  assert (Hrun : Pipeline.RunProfileImpl "/project" profile "default" config None w
                 = (Ok tt, run.2)).
  { rewrite <- Hr. apply surjective_pairing. }
  destruct (run_phase_log "/project" profile "default" config None w run.2 Hrun)
    as (Hlog & _).
  etransitivity; [exact Hlog|]. vm_compute. reflexivity.
Defined.
